(** * marks-grader: the response normaliser and the analytics engine

    A shallow embedding of [grading_service.py] (the part that turns the
    text returned by the grading model into a grading record), of
    [analytics_service.py] (the statistics over many records and the data
    of the charts) and of [process_single_file] of [app.py] (the record of
    one uploaded file), followed by the properties the specification
    states about them and by further properties of the code.

    Conventions of the embedding.
    - Python [str] is [string]. The model is exact on ASCII text: a byte
      above 127 is an opaque character that is neither white space, digit
      nor letter (Unicode white space, digits and case folding outside
      ASCII are not modelled).
    - Python [int] is [Z], without the interpreter's limit on the number
      of digits [int()] reads.
    - A finite Python [float] is the rational [Q] it stands for, without
      overflow or underflow. The floats [inf], [-inf]
      and [nan] are values of their own; they enter only through the
      decoder's literals [Infinity], [-Infinity] and [NaN].
    - Where the code decides on a computed float (the thresholds of the
      consistency queries, the comparison with the class average, the
      sort keys), the arithmetic that produces the float is a parameter
      ([Arithmetic]): the properties hold however the platform rounds.
      Where a float is only reported it is given without rounding; the
      standard deviation of the grade distribution is reported by its
      square, since [Q] has no square roots.
    - Exceptions are values of [exn] threaded through the [Exc] monad;
      [try ... except] is a [match] on the outcome.
    - The recursion limit of the interpreter is not modelled.
    - What lies outside the program (the request to the grading model, the
      text extraction, the drawing of a figure) is not modelled: the answer
      of the model and the extracted text are inputs, and a figure is the
      data handed to it. *)

From Stdlib Require Import Bool Arith ZArith QArith Qminmax Lia Lqa List Ascii String.
From Stdlib Require Import Permutation Sorted.
From Stdlib Require Floats.
Import ListNotations.

Set Warnings "-register-all".
Close Scope Q_scope.
Close Scope Z_scope.
Open Scope string_scope.
Open Scope list_scope.
Open Scope nat_scope.

(* ===================================================================== *)
(** ** Python values, exceptions and string primitives                    *)
(* ===================================================================== *)

Module Py.

(** The values [json.loads] produces, which are also the values stored in
    the fields of a grading result. [VFloat] is a finite float; [VInf] and
    [VNaN] are the floats [inf], [-inf] and [nan], which the decoder
    produces from its literals [Infinity], [-Infinity] and [NaN]. *)
Inductive value : Type :=
| VNone
| VBool (b : bool)
| VInt (z : Z)
| VFloat (q : Q)
| VInf (negative : bool)
| VNaN
| VStr (s : string)
| VList (l : list value)
| VDict (d : list (string * value)).

Definition dict := list (string * value).

Inductive exn : Type :=
| ValueError (msg : string)
| JSONDecodeError
| TypeError
| AttributeError
| ZeroDivisionError.

Inductive Exc (A : Type) : Type :=
| Return (a : A)
| Raise (e : exn).
Arguments Return {A} a.
Arguments Raise {A} e.

Definition bind {A B} (m : Exc A) (k : A -> Exc B) : Exc B :=
  match m with
  | Return a => k a
  | Raise e => Raise e
  end.

(** What the interpreter supplies and the repository does not define:
    [str(v)] for a value that is not already a string, and [str(e)] for an
    exception the interpreter raised itself. *)
Class Interpreter := {
  repr_value : value -> string;
  exn_text : exn -> string
}.

Definition py_str `{Interpreter} (v : value) : string :=
  match v with
  | VStr s => s
  | _ => repr_value v
  end.

Definition str_exn `{Interpreter} (e : exn) : string :=
  match e with
  | ValueError msg => msg
  | _ => exn_text e
  end.

(** [d.get(key, default)] and [d[key] = v] on a dict kept in insertion
    order. *)
Fixpoint dict_lookup (key : string) (d : dict) : option value :=
  match d with
  | [] => None
  | (k, v) :: d' => if String.eqb k key then Some v else dict_lookup key d'
  end.

Definition dict_get (d : dict) (key : string) (default : value) : value :=
  match dict_lookup key d with
  | Some v => v
  | None => default
  end.

Fixpoint dict_set (d : dict) (key : string) (v : value) : dict :=
  match d with
  | [] => [(key, v)]
  | (k, w) :: d' =>
      if String.eqb k key then (k, v) :: d' else (k, w) :: dict_set d' key v
  end.

(** [dict(pairs)]: later pairs overwrite earlier ones. *)
Definition dict_of_pairs (pairs : list (string * value)) : dict :=
  fold_left (fun d kv => dict_set d (fst kv) (snd kv)) pairs [].

(** Finite numbers: [bool] is a subclass of [int]. *)
Definition as_number (v : value) : option Q :=
  match v with
  | VBool b => Some (if b then 1 else 0)%Q
  | VInt z => Some (inject_Z z)
  | VFloat q => Some q
  | _ => None
  end.

Definition Qlt_bool (a b : Q) : bool := negb (Qle_bool b a).

(** Truth value of an object in a condition. *)
Definition truthy (v : value) : bool :=
  match v with
  | VNone => false
  | VBool b => b
  | VInt z => negb (Z.eqb z 0)
  | VFloat q => negb (Qeq_bool q 0)
  | VInf _ => true
  | VNaN => true
  | VStr s => negb (String.eqb s EmptyString)
  | VList l => match l with [] => false | _ => true end
  | VDict d => match d with [] => false | _ => true end
  end.

(** The quotation mark, and a text set between two of them. *)
Definition dquote : ascii := ascii_of_nat 34.
Definition quoted (s : string) : string :=
  String dquote (s ++ String dquote EmptyString).
Definition newline : string := String (ascii_of_nat 10) EmptyString.

(** [str.isspace] on one ASCII character: TAB, LF, VT, FF, CR, the four
    separators 0x1c..0x1f and the space. *)
Definition isspace (c : ascii) : bool :=
  let n := nat_of_ascii c in
  ((9 <=? n) && (n <=? 13)) || ((28 <=? n) && (n <=? 32)).

Definition isdigit (c : ascii) : bool :=
  let n := nat_of_ascii c in (48 <=? n) && (n <=? 57).

Definition digit_val (c : ascii) : Z := Z.of_nat (nat_of_ascii c) - 48.

Fixpoint lstrip (s : string) : string :=
  match s with
  | EmptyString => EmptyString
  | String c r => if isspace c then lstrip r else s
  end.

Fixpoint rstrip (s : string) : string :=
  match s with
  | EmptyString => EmptyString
  | String c r =>
      match rstrip r with
      | EmptyString => if isspace c then EmptyString else String c EmptyString
      | r' => String c r'
      end
  end.

Definition strip (s : string) : string := rstrip (lstrip s).

(** [s.find(c)] and [s.rfind(c)]: [None] stands for [-1]. *)
Fixpoint find (c : ascii) (s : string) : option nat :=
  match s with
  | EmptyString => None
  | String a r =>
      if Ascii.eqb a c then Some 0%nat else option_map S (find c r)
  end.

Fixpoint rfind (c : ascii) (s : string) : option nat :=
  match s with
  | EmptyString => None
  | String a r =>
      match rfind c r with
      | Some i => Some (S i)
      | None => if Ascii.eqb a c then Some 0%nat else None
      end
  end.

(** [s.count(c)] *)
Fixpoint count (c : ascii) (s : string) : nat :=
  match s with
  | EmptyString => 0
  | String a r => (if Ascii.eqb a c then 1 else 0) + count c r
  end.

(** Slices [s[i:]], [s[:j]] and [s[i:j]] for [0 <= i], [0 <= j]. *)
Fixpoint drop (i : nat) (s : string) : string :=
  match i, s with
  | O, _ => s
  | S i', String _ r => drop i' r
  | S _, EmptyString => EmptyString
  end.

Fixpoint take (j : nat) (s : string) : string :=
  match j, s with
  | O, _ => EmptyString
  | S j', String a r => String a (take j' r)
  | S _, EmptyString => EmptyString
  end.

Definition slice (i j : nat) (s : string) : string := take (j - i) (drop i s).

(** [sep.join(parts)] *)
Fixpoint join (sep : string) (parts : list string) : string :=
  match parts with
  | [] => EmptyString
  | [p] => p
  | p :: rest => p ++ sep ++ join sep rest
  end.

(** Leading run of decimal digits and what follows it. *)
Fixpoint span_digits (s : string) : string * string :=
  match s with
  | EmptyString => (EmptyString, EmptyString)
  | String c r =>
      if isdigit c then let (ds, rest) := span_digits r in (String c ds, rest)
      else (EmptyString, s)
  end.

(** [int(ds)] for a run of decimal digits. *)
Fixpoint digits_value (acc : Z) (s : string) : Z :=
  match s with
  | EmptyString => acc
  | String c r => digits_value (10 * acc + digit_val c)%Z r
  end.

Definition int_of_digits (ds : string) : Z := digits_value 0%Z ds.

Definition lower (c : ascii) : ascii :=
  let n := nat_of_ascii c in
  if (65 <=? n) && (n <=? 90) then ascii_of_nat (n + 32) else c.

(** [s] starts with [p], compared without regard to (ASCII) case; the
    result is the text after the prefix. [p] is given in lower case. *)
Fixpoint skip_prefix_nocase (p s : string) : option string :=
  match p, s with
  | EmptyString, _ => Some s
  | String a p', String b s' =>
      if Ascii.eqb a (lower b) then skip_prefix_nocase p' s' else None
  | String _ _, EmptyString => None
  end.

Fixpoint skip_prefix (p s : string) : option string :=
  match p, s with
  | EmptyString, _ => Some s
  | String a p', String b s' =>
      if Ascii.eqb a b then skip_prefix p' s' else None
  | String _ _, EmptyString => None
  end.

End Py.

(* ===================================================================== *)
(** ** [json.loads]: the strict JSON decoder of the standard library      *)
(* ===================================================================== *)

Module Json.
Import Py.

(** Outcome of scanning a prefix of the text: a result with the text left
    over, a syntax error, or recursion budget used up. *)
Inductive scan (A : Type) : Type :=
| Scanned (a : A) (rest : string)
| Malformed
| Exhausted.
Arguments Scanned {A} a rest.
Arguments Malformed {A}.
Arguments Exhausted {A}.

(** JSON white space: space, TAB, LF, CR. *)
Definition is_ws (c : ascii) : bool :=
  let n := nat_of_ascii c in
  (n =? 32) || (n =? 9) || (n =? 10) || (n =? 13).

Fixpoint skip_ws (s : string) : string :=
  match s with
  | EmptyString => EmptyString
  | String c r => if is_ws c then skip_ws r else s
  end.

Definition hex_val (c : ascii) : option Z :=
  let n := nat_of_ascii c in
  if (48 <=? n) && (n <=? 57) then Some (Z.of_nat n - 48)%Z
  else if (97 <=? n) && (n <=? 102) then Some (Z.of_nat n - 87)%Z
  else if (65 <=? n) && (n <=? 70) then Some (Z.of_nat n - 55)%Z
  else None.

Definition hex4 (a b c d : ascii) : option Z :=
  match hex_val a, hex_val b, hex_val c, hex_val d with
  | Some x, Some y, Some z, Some w => Some (((x * 16 + y) * 16 + z) * 16 + w)%Z
  | _, _, _, _ => None
  end.

(** The pieces of a string literal: a character taken as it is, or the
    16-bit unit written by a [\uXXXX] escape. *)
Inductive unit16 : Type :=
| Plain (c : ascii)
| Unit (u : Z).

Definition simple_escape (e : ascii) : option ascii :=
  let n := nat_of_ascii e in
  if n =? 34 then Some e                         (* quotation mark *)
  else if n =? 92 then Some e                    (* reverse solidus *)
  else if n =? 47 then Some e                    (* solidus *)
  else if n =? 98 then Some (ascii_of_nat 8)     (* b: backspace *)
  else if n =? 102 then Some (ascii_of_nat 12)   (* f: form feed *)
  else if n =? 110 then Some (ascii_of_nat 10)   (* n: line feed *)
  else if n =? 114 then Some (ascii_of_nat 13)   (* r: carriage return *)
  else if n =? 116 then Some (ascii_of_nat 9)    (* t: tab *)
  else None.

(** Body of a string literal, read after its opening quote, up to and
    including the closing quote. Strict mode: a control character inside
    the literal is an error. *)
Fixpoint scan_units (s : string) : option (list unit16 * string) :=
  match s with
  | EmptyString => None
  | String c r =>
      if Ascii.eqb c dquote then Some ([], r)
      else if Ascii.eqb c "\" then
        match r with
        | String e r1 =>
            if Ascii.eqb e "u" then
              match r1 with
              | String h1 (String h2 (String h3 (String h4 r2))) =>
                  match hex4 h1 h2 h3 h4 with
                  | Some u =>
                      match scan_units r2 with
                      | Some (us, rest) => Some (Unit u :: us, rest)
                      | None => None
                      end
                  | None => None
                  end
              | _ => None
              end
            else
              match simple_escape e with
              | Some x =>
                  match scan_units r1 with
                  | Some (us, rest) => Some (Plain x :: us, rest)
                  | None => None
                  end
              | None => None
              end
        | EmptyString => None
        end
      else if (nat_of_ascii c <? 32)%nat then None
      else
        match scan_units r with
        | Some (us, rest) => Some (Plain c :: us, rest)
        | None => None
        end
  end.

Definition byte_of (z : Z) : ascii := ascii_of_nat (Z.to_nat z).

(** UTF-8 bytes of a code point. *)
Definition utf8 (cp : Z) : string :=
  (if cp <? 128 then String (byte_of cp) EmptyString
   else if cp <? 2048 then
     String (byte_of (192 + cp / 64))
       (String (byte_of (128 + cp mod 64)) EmptyString)
   else if cp <? 65536 then
     String (byte_of (224 + cp / 4096))
       (String (byte_of (128 + (cp / 64) mod 64))
          (String (byte_of (128 + cp mod 64)) EmptyString))
   else
     String (byte_of (240 + cp / 262144))
       (String (byte_of (128 + (cp / 4096) mod 64))
          (String (byte_of (128 + (cp / 64) mod 64))
             (String (byte_of (128 + cp mod 64)) EmptyString))))%Z.

(** A high surrogate directly followed by a low one is one code point. *)
Fixpoint decode_units (us : list unit16) : string :=
  match us with
  | [] => EmptyString
  | Plain c :: rest => String c (decode_units rest)
  | Unit u :: rest =>
      match rest with
      | Unit u2 :: rest2 =>
          if ((55296 <=? u) && (u <=? 56319) && (56320 <=? u2) && (u2 <=? 57343))%Z
          then utf8 (65536 + (u - 55296) * 1024 + (u2 - 56320))%Z
                 ++ decode_units rest2
          else utf8 u ++ decode_units rest
      | _ => utf8 u ++ decode_units rest
      end
  end.

Definition scanstring (s : string) : option (string * string) :=
  match scan_units s with
  | Some (us, rest) => Some (decode_units us, rest)
  | None => None
  end.

(** Numbers, as the decoder's pattern reads them: an optional minus sign,
    then [0] or a non-zero digit followed by digits; then, optionally, a
    point and one or more digits; then, optionally, [e] or [E], an optional
    sign and one or more digits. The fraction and the exponent are taken
    only when they are complete. *)
Definition scan_frac (s : string) : option (string * string) :=
  match s with
  | String c r =>
      if Ascii.eqb c "." then
        match span_digits r with
        | (EmptyString, _) => None
        | (ds, rest) => Some (ds, rest)
        end
      else None
  | EmptyString => None
  end.

Definition scan_exp (s : string) : option (Z * string) :=
  match s with
  | String c r =>
      if Ascii.eqb c "e" || Ascii.eqb c "E" then
        let '(neg, r1) :=
          match r with
          | String sg r' =>
              if Ascii.eqb sg "-" then (true, r')
              else if Ascii.eqb sg "+" then (false, r')
              else (false, r)
          | EmptyString => (false, r)
          end in
        match span_digits r1 with
        | (EmptyString, _) => None
        | (ds, rest) =>
            Some ((if neg then - int_of_digits ds else int_of_digits ds)%Z, rest)
        end
      else None
  | EmptyString => None
  end.

(** The integer part: [0], or a non-zero digit and the digits after it. *)
Definition scan_int (s : string) : option (string * string) :=
  match s with
  | String c r =>
      if Ascii.eqb c "0" then Some (String c EmptyString, r)
      else if isdigit c then
        let (ds, rest) := span_digits r in Some (String c ds, rest)
      else None
  | EmptyString => None
  end.

Definition scan_number (s : string) : option (value * string) :=
  let '(neg, s1) :=
    match s with
    | String c r => if Ascii.eqb c "-" then (true, r) else (false, s)
    | EmptyString => (false, s)
    end in
  match scan_int s1 with
  | None => None
  | Some (ids, r1) =>
      let '(frac, r2) :=
        match scan_frac r1 with
        | Some (fds, r) => (Some fds, r)
        | None => (None, r1)
        end in
      let '(ex, r3) :=
        match scan_exp r2 with
        | Some (e, r) => (Some e, r)
        | None => (None, r2)
        end in
      let sign (z : Z) := if neg then (- z)%Z else z in
      match frac, ex with
      | None, None => Some (VInt (sign (int_of_digits ids)), r3)
      | _, _ =>
          let fds := match frac with Some f => f | None => EmptyString end in
          let e := match ex with Some e => e | None => 0%Z end in
          let mant := sign (int_of_digits (ids ++ fds)) in
          let q := (inject_Z mant * Qpower 10 (e - Z.of_nat (String.length fds)))%Q in
          Some (VFloat (Qred q), r3)
      end
  end.

(** The recursive-descent scanner. [scan_once] reads one value;
    [object_pairs] is the loop of the object reader, entered after the
    opening quote of a key; [array_items] is the loop of the array reader,
    entered at the start of an item. *)
Fixpoint scan_once (fuel : nat) (s : string) : scan value :=
  match fuel with
  | O => Exhausted
  | S fuel' =>
      match s with
      | EmptyString => Malformed
      | String c r =>
          if Ascii.eqb c dquote then
            match scanstring r with
            | Some (str, rest) => Scanned (VStr str) rest
            | None => Malformed
            end
          else if Ascii.eqb c "{" then
            match skip_ws r with
            | String c1 r1 =>
                if Ascii.eqb c1 "}" then Scanned (VDict []) r1
                else if Ascii.eqb c1 dquote then object_pairs fuel' [] r1
                else Malformed
            | EmptyString => Malformed
            end
          else if Ascii.eqb c "[" then
            match skip_ws r with
            | String c1 r1 as r' =>
                if Ascii.eqb c1 "]" then Scanned (VList []) r1
                else array_items fuel' [] r'
            | EmptyString => Malformed
            end
          else
            match skip_prefix "null" s with
            | Some rest => Scanned VNone rest
            | None =>
            match skip_prefix "true" s with
            | Some rest => Scanned (VBool true) rest
            | None =>
            match skip_prefix "false" s with
            | Some rest => Scanned (VBool false) rest
            | None =>
            match scan_number s with
            | Some (v, rest) => Scanned v rest
            | None =>
            match skip_prefix "NaN" s with
            | Some rest => Scanned VNaN rest
            | None =>
            match skip_prefix "Infinity" s with
            | Some rest => Scanned (VInf false) rest
            | None =>
            match skip_prefix "-Infinity" s with
            | Some rest => Scanned (VInf true) rest
            | None => Malformed
            end end end end end end end
      end
  end

with object_pairs (fuel : nat) (pairs : list (string * value)) (s : string)
  : scan value :=
  match fuel with
  | O => Exhausted
  | S fuel' =>
      match scanstring s with
      | None => Malformed
      | Some (key, r) =>
          match skip_ws r with
          | String c r1 =>
              if Ascii.eqb c ":" then
                match scan_once fuel' (skip_ws r1) with
                | Scanned v r2 =>
                    let pairs' := pairs ++ [(key, v)] in
                    match skip_ws r2 with
                    | String c2 r3 =>
                        if Ascii.eqb c2 "}" then
                          Scanned (VDict (dict_of_pairs pairs')) r3
                        else if Ascii.eqb c2 "," then
                          match skip_ws r3 with
                          | String c3 r4 =>
                              if Ascii.eqb c3 dquote then object_pairs fuel' pairs' r4
                              else Malformed
                          | EmptyString => Malformed
                          end
                        else Malformed
                    | EmptyString => Malformed
                    end
                | Malformed => Malformed
                | Exhausted => Exhausted
                end
              else Malformed
          | EmptyString => Malformed
          end
      end
  end

with array_items (fuel : nat) (items : list value) (s : string) : scan value :=
  match fuel with
  | O => Exhausted
  | S fuel' =>
      match scan_once fuel' s with
      | Scanned v r =>
          let items' := items ++ [v] in
          match skip_ws r with
          | String c r1 =>
              if Ascii.eqb c "]" then Scanned (VList items') r1
              else if Ascii.eqb c "," then array_items fuel' items' (skip_ws r1)
              else Malformed
          | EmptyString => Malformed
          end
      | Malformed => Malformed
      | Exhausted => Exhausted
      end
  end.

(** [decode]: one value, with white space allowed around it and nothing
    else after it. *)
Definition decode (fuel : nat) (s : string) : scan value :=
  match scan_once fuel (skip_ws s) with
  | Scanned v rest =>
      match skip_ws rest with
      | EmptyString => Scanned v EmptyString
      | _ => Malformed
      end
  | other => other
  end.

(** [json.loads]. A call of the scanner that goes one level down has
    either consumed a character or will consume one before going down
    again, so twice the length of the text bounds the depth of the
    recursion ([decode_never_exhausted]). *)
Definition loads (s : string) : Exc value :=
  match decode (2 * String.length s + 1) s with
  | Scanned v _ => Return v
  | _ => Raise JSONDecodeError
  end.

End Json.

(* ===================================================================== *)
(** ** [grading_service.py]: the response normaliser                       *)
(* ===================================================================== *)

Module GradingService.
Import Py.

Declare Scope exc_scope.
Notation "x <- m ;; k" := (bind m (fun x => k))
  (at level 61, m at next level, right associativity) : exc_scope.
Open Scope exc_scope.

(** The dictionary every path of the normaliser returns. The fallback and
    error records have no [criteria_explanations] key. *)
Record GradingResult : Type := {
  total_score : value;
  percentage : value;
  feedback : string;
  criteria_scores : value;
  criteria_explanations : option value;
  questions : value;
  strengths : value;
  areas_for_improvement : value;
  grade_justification : value
}.

Definition set_percentage (r : GradingResult) (p : value) : GradingResult :=
  {| total_score := total_score r;
     percentage := p;
     feedback := feedback r;
     criteria_scores := criteria_scores r;
     criteria_explanations := criteria_explanations r;
     questions := questions r;
     strengths := strengths r;
     areas_for_improvement := areas_for_improvement r;
     grade_justification := grade_justification r |}.

(** [_create_error_result] *)
Definition _create_error_result (error_message : string) : GradingResult :=
  {| total_score := VInt 0;
     percentage := VInt 0;
     feedback := "Error during grading: " ++ error_message;
     criteria_scores := VDict [];
     criteria_explanations := None;
     questions := VList [];
     strengths := VList [];
     areas_for_improvement := VList [];
     grade_justification := VStr "Grading failed due to technical error." |}.

(** *** [_repair_json] *)

Definition is_opener (c : ascii) : bool := Ascii.eqb c "{" || Ascii.eqb c "[".
Definition is_closer (c : ascii) : bool := Ascii.eqb c "}" || Ascii.eqb c "]".

(** The loop over the characters: the stack has its top first. A closer
    pops only when it matches the top; otherwise it is passed over. *)
Fixpoint balance (json_str : string) (stack : list ascii) : list ascii :=
  match json_str with
  | EmptyString => stack
  | String char rest =>
      if is_opener char then balance rest (char :: stack)
      else if is_closer char then
        match stack with
        | top :: below =>
            if (Ascii.eqb char "}" && Ascii.eqb top "{")
               || (Ascii.eqb char "]" && Ascii.eqb top "[")
            then balance rest below
            else balance rest stack
        | [] => balance rest stack
        end
      else balance rest stack
  end.

(** The closing loop: pop every opener and append its closer. *)
Fixpoint close_open (stack : list ascii) : string :=
  match stack with
  | [] => EmptyString
  | opener :: below =>
      (if Ascii.eqb opener "{" then "}"
       else if Ascii.eqb opener "[" then "]"
       else EmptyString) ++ close_open below
  end.

Definition balance_quotes (json_str : string) : string :=
  if Nat.eqb (Nat.modulo (count dquote json_str) 2) 0 then json_str
  else json_str ++ String dquote EmptyString.

Definition _repair_json (json_str : string) : string :=
  let json_str := strip json_str in
  let json_str := balance_quotes json_str in
  let stack := balance json_str [] in
  json_str ++ close_open stack.

(** *** [_create_grading_prompt] *)

(** The keys of a question object in the JSON format the prompt asks the
    model for (its [questions] entry). *)
Definition prompt_question_keys : list string :=
  ["question_number"; "question_text"; "score"; "max_score"; "feedback"].

Section Service.
Context {interp : Interpreter}.

(** *** [_combine_feedback] *)

(** [for x in v]: a list gives its items, a string its characters, a dict
    its keys; nothing else can be iterated. *)
Definition iterate (v : value) : Exc (list value) :=
  match v with
  | VList l => Return l
  | VStr s => Return (map (fun c => VStr (String c EmptyString)) (list_ascii_of_string s))
  | VDict d => Return (map (fun kv => VStr (fst kv)) d)
  | _ => Raise TypeError
  end.

Definition bullets (items : list value) : string :=
  join newline (map (fun x => "• " ++ py_str x)%string items).

(** [sep.join(parts)] where the parts are values: each must be a string. *)
Fixpoint strings_of (parts : list value) : Exc (list string) :=
  match parts with
  | [] => Return []
  | VStr s :: rest => ss <- strings_of rest ;; Return (s :: ss)
  | _ :: _ => Raise TypeError
  end.

Definition labelled_list (label : string) (v : value) (parts : list value)
  : Exc (list value) :=
  if truthy v then
    items <- iterate v ;;
    Return (parts ++ [VStr (label ++ newline ++ bullets items)])%list
  else Return parts.

Definition _combine_feedback (grading_data : dict) : Exc string :=
  let feedback_parts : list value := [] in
  let overall := dict_get grading_data "overall_feedback" VNone in
  let feedback_parts :=
    if truthy overall then (feedback_parts ++ [overall])%list else feedback_parts in
  feedback_parts <-
    labelled_list "**Strengths:**"
      (dict_get grading_data "strengths" VNone) feedback_parts ;;
  feedback_parts <-
    labelled_list "**Areas for Improvement:**"
      (dict_get grading_data "areas_for_improvement" VNone) feedback_parts ;;
  let justification := dict_get grading_data "grade_justification" VNone in
  let feedback_parts :=
    if truthy justification
    then (feedback_parts
            ++ [VStr ("**Grade Justification:**" ++ newline ++ py_str justification)])%list
    else feedback_parts in
  parts <- strings_of feedback_parts ;;
  Return (join (newline ++ newline) parts).

(** *** Normalisation of a parsed structure (the dictionary literal and the
    recalculation that follow the parse in [_parse_grading_response]) *)

(** [min(a, b)] with [b] an [int]: [b] when [b < a], else [a]. No [int]
    is below [nan] or [-inf], and every [int] is below [inf]; a value that
    is no number cannot be compared. *)
Definition py_min (a : value) (b : Z) : Exc value :=
  match as_number a with
  | Some q => Return (if Qlt_bool (inject_Z b) q then VInt b else a)
  | None =>
      match a with
      | VNaN => Return VNaN
      | VInf true => Return (VInf true)
      | VInf false => Return (VInt b)
      | _ => Raise TypeError
      end
  end.

(** [v > 0] for a number [v] *)
Definition py_positive (v : value) : bool :=
  match v with
  | VNaN => false
  | VInf negative => negb negative
  | _ =>
      match as_number v with
      | Some q => Qlt_bool 0 q
      | None => false
      end
  end.

(** [a / b] *)
Definition py_div (a b : Q) : Exc Q :=
  if Qeq_bool b 0 then Raise ZeroDivisionError else Return (a / b)%Q.

Definition number_of (v : value) : Q :=
  match as_number v with
  | Some q => q
  | None => 0%Q
  end.

(** [(score / total_marks) * 100] for a number [score] *)
Definition py_percent (score : value) (total_marks : Z) : Exc value :=
  match score with
  | VNaN =>
      if Z.eqb total_marks 0 then Raise ZeroDivisionError else Return VNaN
  | VInf negative =>
      if Z.eqb total_marks 0 then Raise ZeroDivisionError
      else Return (VInf (xorb negative (total_marks <? 0)%Z))
  | _ =>
      ratio <- py_div (number_of score) (inject_Z total_marks) ;;
      Return (VFloat (ratio * 100)%Q)
  end.

Definition normalize (grading_data : dict) (total_marks : Z) : Exc GradingResult :=
  score <- py_min (dict_get grading_data "total_score" (VInt 0)) total_marks ;;
  combined <- _combine_feedback grading_data ;;
  let normalized_result :=
    {| total_score := score;
       percentage := dict_get grading_data "percentage" (VInt 0);
       feedback := combined;
       criteria_scores := dict_get grading_data "criteria_scores" (VDict []);
       criteria_explanations :=
         Some (dict_get grading_data "criteria_explanations" (VDict []));
       questions := dict_get grading_data "questions" (VList []);
       strengths := dict_get grading_data "strengths" (VList []);
       areas_for_improvement :=
         dict_get grading_data "areas_for_improvement" (VList []);
       grade_justification :=
         dict_get grading_data "grade_justification" (VStr EmptyString) |} in
  if py_positive score then
    recalculated <- py_percent score total_marks ;;
    Return (set_percentage normalized_result recalculated)
  else Return normalized_result.

(** *** [_fallback_text_parsing] *)

Definition is_sep (c : ascii) : bool := Ascii.eqb c ":" || isspace c.

Fixpoint skip_seps (s : string) : string :=
  match s with
  | EmptyString => EmptyString
  | String c r => if is_sep c then skip_seps r else s
  end.

(** What follows the keyword in the pattern: colons and white space, the
    digits of group 1, and optionally a slash and the digits of group 2.
    The greedy choices are final here: the run of separators ends at a
    character that is no separator, so a shorter run is followed by a
    separator, never by a digit; and everything after group 1 is
    optional. *)
Definition match_number (s : string) : option (string * option string) :=
  match span_digits (skip_seps s) with
  | (EmptyString, _) => None
  | (g1, rest) =>
      match rest with
      | String c r =>
          if Ascii.eqb c "/" then
            match span_digits r with
            | (EmptyString, _) => Some (g1, None)
            | (g2, _) => Some (g1, Some g2)
            end
          else Some (g1, None)
      | EmptyString => Some (g1, None)
      end
  end.

Definition or_else {A} (a b : option A) : option A :=
  match a with
  | Some _ => a
  | None => b
  end.

(** The pattern tried at the start of [s], case ignored: the alternative
    [score] first, then [mark] with its optional [s] (with the [s] first,
    without it if that fails). *)
Definition match_here (s : string) : option (string * option string) :=
  or_else
    (match skip_prefix_nocase "score" s with
     | Some r => match_number r
     | None => None
     end)
    (match skip_prefix_nocase "mark" s with
     | Some r =>
         or_else
           (match skip_prefix_nocase "s" r with
            | Some r' => match_number r'
            | None => None
            end)
           (match_number r)
     | None => None
     end).

(** [re.search]: the first position of the text where the pattern
    matches. *)
Fixpoint score_search (s : string) : option (string * option string) :=
  match match_here s with
  | Some m => Some m
  | None =>
      match s with
      | EmptyString => None
      | String _ r => score_search r
      end
  end.

Definition fallback_record (response : string) (score percent : value)
  : GradingResult :=
  {| total_score := score;
     percentage := percent;
     feedback := response;
     criteria_scores := VDict [];
     criteria_explanations := None;
     questions := VList [];
     strengths := VList [];
     areas_for_improvement := VList [];
     grade_justification :=
       VStr "Grading performed using fallback text analysis." |}.

(** The body of the [try] block. *)
Definition fallback_body (response : string) (total_marks : Z) : Exc GradingResult :=
  score <-
    match score_search response with
    | Some (g1, g2) =>
        let score := int_of_digits g1 in
        let max_score :=
          match g2 with
          | Some ds => int_of_digits ds
          | None => total_marks
          end in
        scaled <-
          (if negb (Z.eqb max_score total_marks) then
             ratio <- py_div (inject_Z score) (inject_Z max_score) ;;
             Return (VFloat (ratio * inject_Z total_marks)%Q)
           else Return (VInt score)) ;;
        py_min scaled total_marks
    | None => Return (VInt 0)
    end ;;
  percent <-
    (if (0 <? total_marks)%Z then
       ratio <- py_div (number_of score) (inject_Z total_marks) ;;
       Return (VFloat (ratio * 100)%Q)
     else Return (VInt 0)) ;;
  Return (fallback_record response score percent).

Definition _fallback_text_parsing (response : string) (total_marks : Z)
  : Exc GradingResult :=
  match fallback_body response total_marks with
  | Return r => Return r
  | Raise _ => Return (_create_error_result "Failed to parse grading response")
  end.

(** *** [_parse_grading_response] *)

(** The text handed to the decoder: from the first opening brace to the
    last closing brace when there is one after it, else to the end. *)
Definition json_region (raw_text : string) (json_start : nat) : string :=
  match rfind "}" raw_text with
  | Some json_end =>
      if json_start <? json_end
      then slice json_start (json_end + 1) raw_text
      else drop json_start raw_text
  | None => drop json_start raw_text
  end.

(** Strict parse, and one more after repair when the first fails. *)
Definition parse_or_repair (json_content : string) : Exc value :=
  match Json.loads json_content with
  | Raise JSONDecodeError => Json.loads (_repair_json json_content)
  | outcome => outcome
  end.

(** The body of the outer [try] block. *)
Definition parse_body (response : string) (total_marks : Z) : Exc GradingResult :=
  let raw_text := strip response in
  match find "{" raw_text with
  | None => Raise (ValueError ("Gemini did not return JSON:" ++ newline ++ raw_text))
  | Some json_start =>
      grading_data <- parse_or_repair (json_region raw_text json_start) ;;
      match grading_data with
      | VDict d => normalize d total_marks
      | _ => Raise AttributeError
      end
  end.

Definition _parse_grading_response (response : string) (total_marks : Z)
  : Exc GradingResult :=
  match parse_body response total_marks with
  | Return r => Return r
  | Raise JSONDecodeError => _fallback_text_parsing response total_marks
  | Raise e => Return (_create_error_result (str_exn e))
  end.

(** *** [grade_assignment] *)

(** The request to the model is outside the program: [api_response] is
    what [_call_gemini_api] returned for the prompt, [None] for its
    [None]. The body of the [try] block: *)
Definition grade_body (api_key : string) (api_response : option string)
           (total_marks : Z) : Exc GradingResult :=
  if String.eqb api_key EmptyString then
    Return (_create_error_result "Gemini API key not configured")
  else
    match api_response with
    | Some response =>
        if negb (String.eqb response EmptyString)
        then _parse_grading_response response total_marks
        else Return (_create_error_result "Failed to get response from Gemini AI")
    | None => Return (_create_error_result "Failed to get response from Gemini AI")
    end.

Definition grade_assignment (api_key : string) (api_response : option string)
           (total_marks : Z) : GradingResult :=
  match grade_body api_key api_response total_marks with
  | Return r => r
  | Raise e => _create_error_result (str_exn e)
  end.

End Service.

End GradingService.

(* ===================================================================== *)
(** ** [analytics_service.py]: the dataset builder and the analytics       *)
(* ===================================================================== *)

Module AnalyticsService.
Import Py.

(** A question object of a grading record, restricted to the keys the
    builder reads; [None] is an absent key. *)
Record Question : Type := {
  attempted : option bool;
  score : option Q;
  max_score : option Q
}.

(** A grading record as [process_single_file] builds it, restricted to the
    keys the builder reads. *)
Record GradingRecord : Type := {
  filename : string;
  total_marks : Z;
  awarded_marks : Q;
  percentage : Q;
  questions : list Question
}.

(** Column names. [QAttempted i] is [question_{i}_attempted], and so on:
    the formatted names are distinct for distinct [i]. *)
Inductive column : Type :=
| Filename
| TotalMarks
| AwardedMarks
| Percentage
| QAttempted (i : nat)
| QScore (i : nat)
| QMaxScore (i : nat)
| QPercentage (i : nat).

Definition column_eqb (a b : column) : bool :=
  match a, b with
  | Filename, Filename => true
  | TotalMarks, TotalMarks => true
  | AwardedMarks, AwardedMarks => true
  | Percentage, Percentage => true
  | QAttempted i, QAttempted j => Nat.eqb i j
  | QScore i, QScore j => Nat.eqb i j
  | QMaxScore i, QMaxScore j => Nat.eqb i j
  | QPercentage i, QPercentage j => Nat.eqb i j
  | _, _ => false
  end.

(** [col.startswith('question_') and col.endswith('_attempted')] *)
Definition is_attempted_column (c : column) : bool :=
  match c with
  | QAttempted _ => true
  | _ => false
  end.

Inductive cell : Type :=
| CText (s : string)
| CNumber (q : Q)
| CFlag (b : bool).

(** One dictionary of [data], in insertion order. *)
Definition row := list (column * cell).

(** A cell of the frame: [None] is the missing value (NaN) the frame holds
    where a row has no entry for a column. *)
Fixpoint row_get (c : column) (r : row) : option cell :=
  match r with
  | [] => None
  | (k, v) :: r' => if column_eqb k c then Some v else row_get c r'
  end.

Record DataFrame : Type := {
  columns : list column;
  rows : list row
}.

Definition has_column (c : column) (cols : list column) : bool :=
  existsb (column_eqb c) cols.

(** The columns of [pd.DataFrame(data)]: the keys of the dictionaries, each
    at its first appearance. *)
Definition add_columns (cols : list column) (r : row) : list column :=
  fold_left (fun cs kv => if has_column (fst kv) cs then cs else cs ++ [fst kv])
            r cols.

Definition frame_of (data : list row) : DataFrame :=
  {| columns := fold_left add_columns data []; rows := data |}.

(** [pd.DataFrame()] *)
Definition empty_frame : DataFrame := {| columns := []; rows := [] |}.

(** [df.empty]: no row or no column. *)
Definition frame_empty (df : DataFrame) : bool :=
  match rows df, columns df with
  | [], _ => true
  | _, [] => true
  | _, _ => false
  end.

Definition or_default {A} (o : option A) (d : A) : A :=
  match o with
  | Some a => a
  | None => d
  end.

(** *** Floating-point arithmetic *)

(** Where the code decides on a float it has computed (a threshold, a
    comparison, a sort key), the operations that produce the float are
    those of the platform: a quotient, a product or a difference is the
    float the processor rounds to, and [np_mean] and [np_std] are what
    [numpy] returns. A finite float is the rational it stands for, so the
    comparisons themselves are exact. The properties of the decisions are
    proved for every such arithmetic. *)
Class Arithmetic : Type := {
  float_div : Q -> Q -> Q;
  float_mul : Q -> Q -> Q;
  float_sub : Q -> Q -> Q;
  np_mean : list Q -> Q;
  np_std : list Q -> Q
}.

Section Analytics.
Context {ops : Arithmetic}.

(** The percentage of one question: [(score / max_score) * 100] when
    [max_score > 0], else 0. *)
Definition question_percentage (question : Question) : Q :=
  if Qlt_bool 0 (or_default (max_score question) 0%Q)
  then float_mul
         (float_div (or_default (score question) 0%Q)
                    (or_default (max_score question) 1%Q))
         100%Q
  else 0%Q.

(** The four entries written for question [i] of a record. *)
Definition question_cells (i : nat) (question : Question) : row :=
  [ (QAttempted i, CFlag (or_default (attempted question) false));
    (QScore i, CNumber (or_default (score question) 0%Q));
    (QMaxScore i, CNumber (or_default (max_score question) 0%Q));
    (QPercentage i, CNumber (question_percentage question)) ].

(** [enumerate(l, start)] *)
Fixpoint enumerate {A} (start : nat) (l : list A) : list (nat * A) :=
  match l with
  | [] => []
  | x :: l' => (start, x) :: enumerate (S start) l'
  end.

Definition student_data (result : GradingRecord) : row :=
  [ (Filename, CText (filename result));
    (TotalMarks, CNumber (inject_Z (total_marks result)));
    (AwardedMarks, CNumber (awarded_marks result));
    (Percentage, CNumber (percentage result)) ]
  ++ flat_map (fun iq => question_cells (fst iq) (snd iq))
              (enumerate 1 (questions result)).

(** [_create_dataframe] *)
Definition _create_dataframe (results : list GradingRecord) : DataFrame :=
  match results with
  | [] => empty_frame
  | _ => frame_of (map student_data results)
  end.

(** The service object: [df] is [None] until results are loaded. *)
Record Service : Type := {
  results : list GradingRecord;
  df : option DataFrame
}.

Definition init : Service := {| results := []; df := None |}.

Definition load_results (self : Service) (rs : list GradingRecord) : Service :=
  {| results := rs; df := Some (_create_dataframe rs) |}.

(** [self.df is None or self.df.empty] *)
Definition no_data (self : Service) : bool :=
  match df self with
  | None => true
  | Some d => frame_empty d
  end.

Definition frame (self : Service) : DataFrame :=
  or_default (df self) empty_frame.

(** [get_max_questions] *)
Definition get_max_questions (self : Service) : nat :=
  if no_data self then 0
  else List.length (filter is_attempted_column (columns (frame self))).

(** [df[col].sum()] on a column of flags: a missing value is skipped. *)
Definition flag_count (c : option cell) : Z :=
  match c with
  | Some (CFlag true) => 1%Z
  | _ => 0%Z
  end.

Definition column_sum (col : column) (d : DataFrame) : Z :=
  fold_left (fun acc r => (acc + flag_count (row_get col r))%Z) (rows d) 0%Z.

Record AttemptAnalysis : Type := {
  attempted_count : Z;
  total_students : nat;
  attempt_percentage : Q
}.

(** [analyze_question_attempts] *)
Definition analyze_question_attempts (self : Service) (question_number : nat)
  : AttemptAnalysis :=
  if no_data self then
    {| attempted_count := 0; total_students := 0; attempt_percentage := 0 |}
  else
    let d := frame self in
    let col_name := QAttempted question_number in
    if negb (has_column col_name (columns d)) then
      {| attempted_count := 0; total_students := List.length (rows d);
         attempt_percentage := 0 |}
    else
      let attempted_sum := column_sum col_name d in
      let total := List.length (rows d) in
      {| attempted_count := attempted_sum;
         total_students := total;
         attempt_percentage :=
           if 0 <? total
           then (inject_Z attempted_sum / inject_Z (Z.of_nat total) * 100)%Q
           else 0%Q |}.

(** [max(items, key=key)] on a list with first item [best]: a later item
    replaces the current one only when its key is strictly greater. *)
Fixpoint max_by {A} (key : A -> Z) (best : A) (items : list A) : A :=
  match items with
  | [] => best
  | x :: rest =>
      if (key best <? key x)%Z then max_by key x rest else max_by key best rest
  end.

(** An entry of [attempts_data] or [skip_data], and the dictionary the two
    queries return (with [q_count] under the key [attempts], respectively
    [skipped_count]). *)
Record QuestionCount : Type := {
  question_number : nat;
  q_count : Z;
  share : Q
}.

Definition zero_count : QuestionCount :=
  {| question_number := 0; q_count := 0; share := 0 |}.

(** [range(1, n + 1)] *)
Definition range1 (n : nat) : list nat := seq 1 n.

Definition attempts_entry (self : Service) (i : nat) : QuestionCount :=
  let analysis := analyze_question_attempts self i in
  {| question_number := i;
     q_count := attempted_count analysis;
     share := attempt_percentage analysis |}.

(** [get_most_attempted_question] *)
Definition get_most_attempted_question (self : Service) : QuestionCount :=
  if no_data self then zero_count
  else
    let max_questions := get_max_questions self in
    if max_questions =? 0 then zero_count
    else
      match map (attempts_entry self) (range1 max_questions) with
      | [] => zero_count
      | first :: rest => max_by q_count first rest
      end.

Definition skip_entry (self : Service) (i : nat) : QuestionCount :=
  let analysis := analyze_question_attempts self i in
  let skipped_count :=
    (Z.of_nat (total_students analysis) - attempted_count analysis)%Z in
  {| question_number := i;
     q_count := skipped_count;
     share :=
       if 0 <? total_students analysis
       then (inject_Z skipped_count
             / inject_Z (Z.of_nat (total_students analysis)) * 100)%Q
       else 0%Q |}.

(** [get_most_skipped_question] *)
Definition get_most_skipped_question (self : Service) : QuestionCount :=
  if no_data self then zero_count
  else
    let max_questions := get_max_questions self in
    if max_questions =? 0 then zero_count
    else
      match map (skip_entry self) (range1 max_questions) with
      | [] => zero_count
      | first :: rest => max_by q_count first rest
      end.

(** [get_average_questions_attempted] *)
Definition get_average_questions_attempted (self : Service) : Q :=
  if no_data self then 0%Q
  else
    let max_questions := get_max_questions self in
    if max_questions =? 0 then 0%Q
    else
      let d := frame self in
      let total_attempts :=
        fold_left
          (fun acc i =>
             if has_column (QAttempted i) (columns d)
             then (acc + column_sum (QAttempted i) d)%Z else acc)
          (range1 max_questions) 0%Z in
      if 0 <? List.length (rows d)
      then (inject_Z total_attempts / inject_Z (Z.of_nat (List.length (rows d))))%Q
      else 0%Q.

(** *** Statistics reported by [get_grade_distribution]

    The mean, the median and the standard deviation of all percentages are
    only reported, never decided on: they are given without rounding, the
    standard deviation by its square. *)

Definition Qsum (xs : list Q) : Q := fold_right Qplus 0%Q xs.

Definition Qlen (xs : list Q) : Q := inject_Z (Z.of_nat (List.length xs)).

(** [np.mean], without rounding. *)
Definition mean (xs : list Q) : Q := (Qsum xs / Qlen xs)%Q.

(** The square of [np.std]: the mean of the squared deviations from the
    mean, with divisor [len(xs)]. *)
Definition variance (xs : list Q) : Q :=
  let m := mean xs in
  mean (map (fun x => ((x - m) * (x - m))%Q) xs).

(** [sorted(items, key=...)]: a stable sort, here by insertion. [before x y]
    says that [x] may stand before [y]. *)
Fixpoint insert_by {A} (before : A -> A -> bool) (x : A) (l : list A) : list A :=
  match l with
  | [] => [x]
  | y :: l' => if before x y then x :: y :: l' else y :: insert_by before x l'
  end.

Definition sort_by {A} (before : A -> A -> bool) (l : list A) : list A :=
  fold_right (insert_by before) [] l.

(** [np.median]: the middle of the sorted values, or the mean of the two
    in the middle. *)
Definition median (xs : list Q) : Q :=
  let sorted := sort_by Qle_bool xs in
  let n := List.length xs in
  if Nat.even n
  then ((nth (n / 2 - 1) sorted 0 + nth (n / 2) sorted 0) / 2)%Q
  else nth (n / 2) sorted 0%Q.

(** *** [get_grade_distribution] *)

Definition grade_ranges : list (string * (Q * Q)) :=
  [ ("A (90-100%)", (90, 100)%Q);
    ("B (80-89%)", (80, 89)%Q);
    ("C (70-79%)", (70, 79)%Q);
    ("D (60-69%)", (60, 69)%Q);
    ("F (0-59%)", (0, 59)%Q) ].

Definition in_range (bounds : Q * Q) (p : Q) : bool :=
  Qle_bool (fst bounds) p && Qle_bool p (snd bounds).

Record GradeDistribution : Type := {
  grades : list (string * nat);
  average : Q;
  median_score : Q;
  std_dev_squared : Q
}.

Definition cell_number (c : option cell) : Q :=
  match c with
  | Some (CNumber q) => q
  | _ => 0%Q
  end.

(** [df['percentage'].tolist()] *)
Definition percentages (d : DataFrame) : list Q :=
  map (fun r => cell_number (row_get Percentage r)) (rows d).

Definition get_grade_distribution (self : Service) : GradeDistribution :=
  if no_data self then
    {| grades := []; average := 0; median_score := 0; std_dev_squared := 0 |}
  else
    let ps := percentages (frame self) in
    let grade_counts :=
      map (fun gr => (fst gr, List.length (filter (in_range (snd gr)) ps)))
          grade_ranges in
    let nonempty := match ps with [] => false | _ => true end in
    {| grades := grade_counts;
       average := if nonempty then mean ps else 0%Q;
       median_score := if nonempty then median ps else 0%Q;
       std_dev_squared := if nonempty then variance ps else 0%Q |}.

(** *** [get_consistent_performers] and [get_inconsistent_performers] *)

(** The inner loop over the question columns of one row: a percentage is
    kept when its column exists and its cell is not missing. *)
Definition question_percentages (d : DataFrame) (max_questions : nat) (r : row)
  : list Q :=
  flat_map
    (fun i =>
       if has_column (QPercentage i) (columns d) then
         match row_get (QPercentage i) r with
         | Some c => [cell_number (Some c)]
         | None => []
         end
       else [])
    (range1 max_questions).

Definition row_filename (r : row) : string :=
  match row_get Filename r with
  | Some (CText s) => s
  | _ => EmptyString
  end.

Record Consistent : Type := {
  c_filename : string;
  average_score : Q;
  c_std_deviation : Q;
  c_question_scores : list Q
}.

(** [len(qs) >= 2], then [std_dev < 15 and avg_score > 50] *)
Definition is_consistent (qs : list Q) : bool :=
  (2 <=? List.length qs) && Qlt_bool (np_std qs) 15 && Qlt_bool 50 (np_mean qs).

Definition get_consistent_performers (self : Service) : list Consistent :=
  if no_data self then []
  else
    let max_questions := get_max_questions self in
    if max_questions <? 2 then []
    else
      let d := frame self in
      let consistent_students :=
        flat_map
          (fun r =>
             let qs := question_percentages d max_questions r in
             if is_consistent qs then
               [ {| c_filename := row_filename r;
                    average_score := np_mean qs;
                    c_std_deviation := np_std qs;
                    c_question_scores := qs |} ]
             else [])
          (rows d) in
      sort_by (fun x y => Qle_bool (c_std_deviation x) (c_std_deviation y))
              consistent_students.

Definition Qmin_list (x : Q) (xs : list Q) : Q :=
  fold_left (fun m y => if Qlt_bool y m then y else m) xs x.

Definition Qmax_list (x : Q) (xs : list Q) : Q :=
  fold_left (fun m y => if Qlt_bool m y then y else m) xs x.

Record Inconsistent : Type := {
  i_filename : string;
  i_std_deviation : Q;
  score_range : Q;
  min_score : Q;
  i_max_score : Q;
  i_question_scores : list Q
}.

Definition get_inconsistent_performers (self : Service) : list Inconsistent :=
  if no_data self then []
  else
    let max_questions := get_max_questions self in
    if max_questions <? 2 then []
    else
      let d := frame self in
      let inconsistent_students :=
        flat_map
          (fun r =>
             match question_percentages d max_questions r with
             | q0 :: (_ :: _) as rest =>
                 let qs := q0 :: rest in
                 let lo := Qmin_list q0 rest in
                 let hi := Qmax_list q0 rest in
                 if Qlt_bool 25 (np_std qs) || Qlt_bool 40 (float_sub hi lo) then
                   [ {| i_filename := row_filename r;
                        i_std_deviation := np_std qs;
                        score_range := float_sub hi lo;
                        min_score := lo;
                        i_max_score := hi;
                        i_question_scores := qs |} ]
                 else []
             | _ => []
             end)
          (rows d) in
      sort_by (fun x y => Qle_bool (i_std_deviation y) (i_std_deviation x))
              inconsistent_students.

(** *** [get_above_average_percentage] *)

Record AboveAverage : Type := {
  above_percentage : Q;
  above_count : nat;
  above_total : nat;
  class_average : Q
}.

Definition get_above_average_percentage (self : Service) : AboveAverage :=
  if no_data self then
    {| above_percentage := 0; above_count := 0; above_total := 0;
       class_average := 0 |}
  else
    let ps := percentages (frame self) in
    let avg := match ps with [] => 0%Q | _ => np_mean ps end in
    let above := List.length (filter (fun p => Qlt_bool avg p) ps) in
    let total := List.length ps in
    {| above_percentage :=
         if 0 <? total
         then (inject_Z (Z.of_nat above) / inject_Z (Z.of_nat total) * 100)%Q
         else 0%Q;
       above_count := above;
       above_total := total;
       class_average := avg |}.

(** *** The charts *)

(** A figure is modelled by the series handed to it; [None] is the empty
    figure [go.Figure()]. *)
Record AttemptsChart : Type := {
  chart_questions : list nat;
  chart_attempted : list Z;
  chart_skipped : list Z
}.

(** [create_question_attempts_chart] *)
Definition create_question_attempts_chart (self : Service) : option AttemptsChart :=
  let max_questions := get_max_questions self in
  if max_questions =? 0 then None
  else
    let questions := range1 max_questions in
    let analyses := map (analyze_question_attempts self) questions in
    Some {| chart_questions := questions;
            chart_attempted := map attempted_count analyses;
            chart_skipped :=
              map (fun analysis =>
                     (Z.of_nat (total_students analysis) - attempted_count analysis)%Z)
                  analyses |}.

(** One marker of the consistency chart: the three lists [students],
    [std_devs] and [avg_scores] grow together, one entry each per row. *)
Record ConsistencyPoint : Type := {
  point_label : string;
  point_std : Q;
  point_average : Q
}.

(** [name[:15] + '...' if len(name) > 15 else name] *)
Definition chart_label (name : string) : string :=
  if 15 <? String.length name then (take 15 name ++ "...")%string else name.

(** [create_performance_consistency_chart] *)
Definition create_performance_consistency_chart (self : Service)
  : option (list ConsistencyPoint) :=
  if no_data self then None
  else
    let max_questions := get_max_questions self in
    if max_questions <? 2 then None
    else
      let d := frame self in
      Some
        (flat_map
           (fun r =>
              let qs := question_percentages d max_questions r in
              if 2 <=? List.length qs then
                [ {| point_label := chart_label (row_filename r);
                     point_std := np_std qs;
                     point_average := np_mean qs |} ]
              else [])
           (rows d)).

End Analytics.

End AnalyticsService.

(* ===================================================================== *)
(** ** [app.py]: one uploaded file                                         *)
(* ===================================================================== *)

Module App.
Import Py GradingService.

(** The result record of [process_single_file], restricted to the keys the
    summary and the analytics read. *)
Record FileResult : Type := {
  filename : string;
  total_marks : Z;
  awarded_marks : value;
  percentage : value;
  feedback : string;
  questions : value;
  text_content : string
}.

(** [x / total_marks * 100] for any object [x]: only numbers divide. *)
Definition percent_of_total `{Interpreter} (x : value) (total_marks : Z) : Exc value :=
  match x with
  | VBool _ | VInt _ | VFloat _ | VInf _ | VNaN => py_percent x total_marks
  | _ => Raise TypeError
  end.

(** [text[:500] + "..." if len(text) > 500 else text] *)
Definition preview (text : string) : string :=
  if 500 <? String.length text then (take 500 text ++ "...")%string else text.

Section Processing.
Context {interp : Interpreter}.

(** The body of the [try] block. The text extraction and the request to
    the model are outside the program: [extracted] is what the OCR service
    or the file processor returned (or raised) for the file, the empty
    string standing for any empty result, and [api_response] is the answer
    of the model. *)
Definition process_body (name : string) (extracted : Exc string)
           (api_key : string) (api_response : option string) (total_marks : Z)
  : Exc FileResult :=
  text <- extracted ;;
  if String.eqb (strip text) EmptyString then
    Return {| filename := name;
              total_marks := total_marks;
              awarded_marks := VInt 0;
              percentage := VInt 0;
              feedback := "No text content could be extracted from this file.";
              questions := VList [];
              text_content := "No content available" |}
  else
    let grading_result := grade_assignment api_key api_response total_marks in
    percent <- percent_of_total (total_score grading_result) total_marks ;;
    Return {| filename := name;
              total_marks := total_marks;
              awarded_marks := total_score grading_result;
              percentage := percent;
              feedback := GradingService.feedback grading_result;
              questions := GradingService.questions grading_result;
              text_content := preview text |}.

(** [process_single_file] *)
Definition process_single_file (name : string) (extracted : Exc string)
           (api_key : string) (api_response : option string) (total_marks : Z)
  : FileResult :=
  match process_body name extracted api_key api_response total_marks with
  | Return result => result
  | Raise e =>
      {| filename := name;
         total_marks := total_marks;
         awarded_marks := VInt 0;
         percentage := VInt 0;
         feedback := "Error processing file: " ++ str_exn e;
         questions := VList [];
         text_content := "Error occurred during processing" |}
  end.

End Processing.
End App.
(* ===================================================================== *)
(** ** Vocabulary of the statements                                       *)
(* ===================================================================== *)

Import Py.

(** An interpreter whose own texts are empty. The examples below are
    evaluated with it; none of them reaches a place where the interpreter
    would have to produce a text. *)
Definition quiet : Interpreter :=
  {| repr_value := fun _ => EmptyString; exn_text := fun _ => EmptyString |}.

Fixpoint all_digits (s : string) : Prop :=
  match s with
  | EmptyString => True
  | String c r => isdigit c = true /\ all_digits r
  end.

Fixpoint has_digit (s : string) : bool :=
  match s with
  | EmptyString => false
  | String c r => isdigit c || has_digit r
  end.

(** *** The pattern of the fallback scan, read declaratively *)

Fixpoint all_seps (s : string) : Prop :=
  match s with
  | EmptyString => True
  | String c r => GradingService.is_sep c = true /\ all_seps r
  end.

Definition starts_with_digit (s : string) : bool :=
  match s with
  | String c _ => isdigit c
  | EmptyString => false
  end.

Fixpoint lower_string (s : string) : string :=
  match s with
  | EmptyString => EmptyString
  | String c r => String (lower c) (lower_string r)
  end.

(** The three spellings the alternation admits, case ignored. *)
Definition is_keyword (kw : string) : Prop :=
  lower_string kw = "score" \/ lower_string kw = "mark" \/ lower_string kw = "marks".

(** The optional denominator: a slash and a longest run of digits, or
    nothing when no digit follows a slash. *)
Definition denominator_at (tail : string) (g2 : option string) : Prop :=
  match g2 with
  | Some d =>
      exists tail', tail = String "/" (d ++ tail') /\ d <> EmptyString /\
                    all_digits d /\ starts_with_digit tail' = false
  | None =>
      match tail with
      | String c r => Ascii.eqb c "/" = true -> starts_with_digit r = false
      | EmptyString => True
      end
  end.

(** [text] begins with a match of the pattern whose groups are [g1] and
    [g2]: a keyword, colons and white space, a longest run of digits, and
    the optional denominator. *)
Definition pattern_at (text g1 : string) (g2 : option string) : Prop :=
  exists kw seps tail,
    text = (kw ++ seps ++ g1 ++ tail)%string /\
    is_keyword kw /\ all_seps seps /\
    g1 <> EmptyString /\ all_digits g1 /\ starts_with_digit tail = false /\
    denominator_at tail g2.

(** The denominator the fallback scan works with: group 2 when it took
    part in the match, else [total_marks]. *)
Definition denominator (g2 : option string) (total_marks : Z) : Z :=
  match g2 with
  | Some ds => int_of_digits ds
  | None => total_marks
  end.

(** The score of the fallback scan before it is clamped. *)
Definition rescaled (g1 : string) (g2 : option string) (total_marks : Z) : value :=
  if Z.eqb (denominator g2 total_marks) total_marks
  then VInt (int_of_digits g1)
  else VFloat (inject_Z (int_of_digits g1)
               / inject_Z (denominator g2 total_marks) * inject_Z total_marks)%Q.

Definition fallback_percentage (score : value) (total_marks : Z) : value :=
  if (0 <? total_marks)%Z
  then VFloat (GradingService.number_of score / inject_Z total_marks * 100)%Q
  else VInt 0.

(** [rest] is what is left of [s] after some of its first characters. *)
Inductive suffix_of (rest : string) : string -> Prop :=
| suffix_here : suffix_of rest rest
| suffix_skip (c : ascii) (s : string) : suffix_of rest s -> suffix_of rest (String c s).

(** ... after at least one of them. *)
Definition proper_suffix (rest s : string) : Prop :=
  match s with
  | EmptyString => False
  | String _ s' => suffix_of rest s'
  end.

(** *** The repair and the payload *)

(** No character of [s] is white space. *)
Fixpoint no_space (s : string) : Prop :=
  match s with
  | EmptyString => True
  | String c r => isspace c = false /\ no_space r
  end.

(** Every character of [s] is a closing brace or a closing bracket. *)
Fixpoint all_closers (s : string) : Prop :=
  match s with
  | EmptyString => True
  | String c r => GradingService.is_closer c = true /\ all_closers r
  end.

Definition is_text (v : value) : bool :=
  match v with
  | VStr _ => true
  | _ => false
  end.

(** What [for x in v] accepts. *)
Definition iterable (v : value) : bool :=
  match v with
  | VList _ | VStr _ | VDict _ => true
  | _ => false
  end.

(** A payload whose feedback fields cannot be combined: an overall
    feedback that is set and is no string, or a list of strengths or of
    areas that is set and cannot be iterated. *)
Definition unusable_feedback (d : dict) : bool :=
  (truthy (dict_get d "overall_feedback" VNone)
   && negb (is_text (dict_get d "overall_feedback" VNone)))
  || (truthy (dict_get d "strengths" VNone)
      && negb (iterable (dict_get d "strengths" VNone)))
  || (truthy (dict_get d "areas_for_improvement" VNone)
      && negb (iterable (dict_get d "areas_for_improvement" VNone))).

(** A number in the wide sense: [bool], [int] or [float], the floats
    [inf], [-inf] and [nan] included. *)
Definition number_like (v : value) : bool :=
  match v with
  | VBool _ | VInt _ | VFloat _ | VInf _ | VNaN => true
  | _ => false
  end.

(** A payload the normaliser accepts: its score is a number and its
    feedback fields can be combined. *)
Definition well_typed_payload (d : dict) : bool :=
  number_like (dict_get d "total_score" (VInt 0)) && negb (unusable_feedback d).

(** A value that is not above [bound]: a number up to it, [-inf], or
    [nan]. *)
Definition not_above (v : value) (bound : Z) : Prop :=
  match v with
  | VNaN => True
  | VInf negative => negative = true
  | _ => exists c, as_number v = Some c /\ (c <= inject_Z bound)%Q
  end.

(** *** The dataset in terms of the records *)

(** An arithmetic without rounding, for the examples: quotients, products
    and differences are exact, the mean is the exact mean, and the standard
    deviation is the root of the exact variance cut after six decimals. *)
Definition root6 (q : Q) : Q :=
  (inject_Z (Z.sqrt (Qnum q * 1000000000000 / Zpos (Qden q))) / 1000000)%Q.

Definition exact_ops : AnalyticsService.Arithmetic :=
  {| AnalyticsService.float_div := fun a b => Qred (a / b);
     AnalyticsService.float_mul := fun a b => Qred (a * b);
     AnalyticsService.float_sub := fun a b => Qred (a - b);
     AnalyticsService.np_mean := fun xs => Qred (AnalyticsService.mean xs);
     AnalyticsService.np_std := fun xs => Qred (root6 (AnalyticsService.variance xs)) |}.

(** The arithmetic of IEEE 754 binary64, computed with the kernel's
    floats. A rational is read as the quotient of its numerator by its
    denominator, which is exact when it is a float (numerator and
    denominator below 2^53); a float is written back as the rational it
    stands for. The mean and the standard deviation follow [numpy]: the sum
    over [n], and the root of the mean of the squared distances from the
    mean. A sum is the first value plus the running sum of the others; for
    one or two values every order gives the same float. *)
Module Ieee.

Definition of_Z (z : Z) : PrimFloat.float :=
  match z with
  | Zneg p => PrimFloat.opp (PrimFloat.of_uint63 (Uint63.of_Z (Zpos p)))
  | _ => PrimFloat.of_uint63 (Uint63.of_Z z)
  end.

Definition of_Q (q : Q) : PrimFloat.float :=
  PrimFloat.div (of_Z (Qnum q)) (of_Z (Zpos (Qden q))).

Definition to_Q (f : PrimFloat.float) : Q :=
  match FloatOps.Prim2SF f with
  | SpecFloat.S754_finite negative m e =>
      let n := if negative then Zneg m else Zpos m in
      match e with
      | Zneg k => Qred (Qmake n (Pos.pow 2 k))
      | _ => inject_Z (n * 2 ^ e)
      end
  | _ => 0%Q
  end.

Definition sum (xs : list PrimFloat.float) : PrimFloat.float :=
  match xs with
  | [] => of_Z 0
  | x :: rest => PrimFloat.add x (fold_left PrimFloat.add rest (of_Z 0))
  end.

Definition mean (xs : list PrimFloat.float) : PrimFloat.float :=
  PrimFloat.div (sum xs) (of_Z (Z.of_nat (List.length xs))).

Definition std (xs : list PrimFloat.float) : PrimFloat.float :=
  let m := mean xs in
  PrimFloat.sqrt
    (mean (map (fun x => PrimFloat.mul (PrimFloat.sub x m) (PrimFloat.sub x m)) xs)).

End Ieee.

Definition ieee_ops : AnalyticsService.Arithmetic :=
  {| AnalyticsService.float_div :=
       fun a b => Ieee.to_Q (PrimFloat.div (Ieee.of_Q a) (Ieee.of_Q b));
     AnalyticsService.float_mul :=
       fun a b => Ieee.to_Q (PrimFloat.mul (Ieee.of_Q a) (Ieee.of_Q b));
     AnalyticsService.float_sub :=
       fun a b => Ieee.to_Q (PrimFloat.sub (Ieee.of_Q a) (Ieee.of_Q b));
     AnalyticsService.np_mean := fun xs => Ieee.to_Q (Ieee.mean (map Ieee.of_Q xs));
     AnalyticsService.np_std := fun xs => Ieee.to_Q (Ieee.std (map Ieee.of_Q xs)) |}.

Section DatasetVocabulary.
Import AnalyticsService.
Context {ops : Arithmetic}.

Definition row_has (c : column) (r : row) : bool :=
  match row_get c r with
  | Some _ => true
  | None => false
  end.

(** Question [n] (counted from 1) of a record, when the record has one. *)
Definition nth_question (n : nat) (result : GradingRecord) : option Question :=
  match n with
  | O => None
  | S i => nth_error (questions result) i
  end.

(** The record has a question [n] whose [attempted] key is present and
    true. *)
Definition explicitly_attempted (n : nat) (result : GradingRecord) : bool :=
  match nth_question n result with
  | Some q =>
      match attempted q with
      | Some true => true
      | _ => false
      end
  | None => false
  end.

(** The largest number of questions of a record. *)
Definition max_question_count (rs : list GradingRecord) : nat :=
  fold_right (fun r m => Nat.max (List.length (questions r)) m) 0 rs.

Definition record_percentages (result : GradingRecord) : list Q :=
  map question_percentage (questions result).

(** The entry [get_consistent_performers] writes for a record. *)
Definition consistent_entry (result : GradingRecord) : Consistent :=
  {| c_filename := filename result;
     average_score := np_mean (record_percentages result);
     c_std_deviation := np_std (record_percentages result);
     c_question_scores := record_percentages result |}.

(** Example records: a submission with the given percentage and no
    question, and one with the given question objects. *)
Definition graded (name : string) (awarded total : Z) : GradingRecord :=
  {| filename := name;
     total_marks := total;
     awarded_marks := inject_Z awarded;
     percentage := (inject_Z awarded / inject_Z total * 100)%Q;
     questions := [] |}.

Definition question (flag : option bool) (points out_of : Z) : Question :=
  {| attempted := flag;
     score := Some (inject_Z points);
     max_score := Some (inject_Z out_of) |}.

Definition answered (name : string) (qs : list Question) : GradingRecord :=
  {| filename := name;
     total_marks := 100;
     awarded_marks := 0;
     percentage := 0;
     questions := qs |}.

(** The number of percentages counted in some grade bucket. *)
Definition graded_total (dist : GradeDistribution) : nat :=
  fold_right (fun g acc => snd g + acc) 0 (grades dist).

(** [min(qs)] and [max(qs)] of a list that is not empty. *)
Definition list_min (qs : list Q) : Q :=
  match qs with
  | [] => 0%Q
  | q0 :: rest => Qmin_list q0 rest
  end.

Definition list_max (qs : list Q) : Q :=
  match qs with
  | [] => 0%Q
  | q0 :: rest => Qmax_list q0 rest
  end.

(** The test of [get_inconsistent_performers] on the question percentages
    of a record. *)
Definition is_inconsistent (qs : list Q) : bool :=
  (2 <=? List.length qs)
  && (Qlt_bool 25 (np_std qs)
      || Qlt_bool 40 (float_sub (list_max qs) (list_min qs))).

(** The entry [get_inconsistent_performers] writes for a record. *)
Definition inconsistent_entry (result : GradingRecord) : Inconsistent :=
  let qs := record_percentages result in
  {| i_filename := filename result;
     i_std_deviation := np_std qs;
     score_range := float_sub (list_max qs) (list_min qs);
     min_score := list_min qs;
     i_max_score := list_max qs;
     i_question_scores := qs |}.

(** The percentage falls in one of the grade buckets. *)
Definition in_some_bucket (p : Q) : bool :=
  existsb (fun gr => in_range (snd gr) p) grade_ranges.

(** The question object carries [attempted = True]; the number of such
    objects in a record. *)
Definition attempted_flag (q : Question) : bool :=
  match attempted q with
  | Some true => true
  | _ => false
  end.

Definition attempted_questions (result : GradingRecord) : nat :=
  List.length (filter attempted_flag (questions result)).

Definition sum_nat {A} (f : A -> nat) (l : list A) : nat :=
  fold_right (fun x acc => f x + acc) 0 l.

(** The marker the consistency chart draws for a record. *)
Definition consistency_point (result : GradingRecord) : ConsistencyPoint :=
  {| point_label := chart_label (filename result);
     point_std := np_std (record_percentages result);
     point_average := np_mean (record_percentages result) |}.

End DatasetVocabulary.

(* ===================================================================== *)
(** * Properties                                                           *)
(* ===================================================================== *)

(** ** Comparisons on rationals *)

Lemma Qlt_bool_iff (a b : Q) : Qlt_bool a b = true <-> (a < b)%Q.
Proof.
  unfold Qlt_bool. rewrite negb_true_iff. split.
  - intros Hf. apply Qnot_le_lt. intro Hle.
    apply Qle_bool_iff in Hle. congruence.
  - intros Hlt. destruct (Qle_bool b a) eqn:E; [|reflexivity].
    apply Qle_bool_iff in E. exfalso. exact (Qlt_not_le _ _ Hlt E).
Qed.

Lemma Qlt_bool_false_iff (a b : Q) : Qlt_bool a b = false <-> (b <= a)%Q.
Proof.
  unfold Qlt_bool. rewrite negb_false_iff. apply Qle_bool_iff.
Qed.

Lemma inject_Z_eq0 (z : Z) : Qeq_bool (inject_Z z) 0 = true <-> z = 0%Z.
Proof.
  rewrite Qeq_bool_iff. unfold Qeq, inject_Z. simpl.
  rewrite Z.mul_1_r. reflexivity.
Qed.

Lemma Qdiv_nonneg (a b : Q) : (0 <= a)%Q -> (0 < b)%Q -> (0 <= a / b)%Q.
Proof.
  intros Ha Hb. apply Qle_shift_div_l; [exact Hb|].
  rewrite Qmult_0_l. exact Ha.
Qed.

(** ** Digits *)

Lemma span_digits_all_digits (s : string) : all_digits (fst (span_digits s)).
Proof.
  induction s as [|c r IH]; simpl; [exact I|].
  destruct (isdigit c) eqn:Ec; simpl; [|exact I].
  destruct (span_digits r) as [ds rest]. simpl in *. auto.
Qed.

Lemma digit_val_nonneg (c : ascii) : isdigit c = true -> (0 <= digit_val c <= 9)%Z.
Proof.
  unfold isdigit, digit_val. intros Hd.
  apply andb_true_iff in Hd. destruct Hd as [H1 H2].
  apply Nat.leb_le in H1. apply Nat.leb_le in H2. lia.
Qed.

Lemma digits_value_nonneg (s : string) :
  forall acc : Z, (0 <= acc)%Z -> all_digits s -> (0 <= digits_value acc s)%Z.
Proof.
  induction s as [|c r IH]; intros acc Hacc Hd; cbn [digits_value]; [exact Hacc|].
  destruct Hd as [Hc Hr]. apply IH; [|exact Hr].
  pose proof (digit_val_nonneg c Hc). lia.
Qed.

Lemma int_of_digits_nonneg (s : string) : all_digits s -> (0 <= int_of_digits s)%Z.
Proof.
  intros Hd. unfold int_of_digits. apply digits_value_nonneg; [lia|exact Hd].
Qed.


Lemma inject_Z_nonneg (z : Z) : (0 <= z)%Z -> (0 <= inject_Z z)%Q.
Proof.
  intros Hz. change 0%Q with (inject_Z 0). rewrite <- Zle_Qle. exact Hz.
Qed.

Lemma inject_Z_pos (z : Z) : (0 < z)%Z -> (0 < inject_Z z)%Q.
Proof.
  intros Hz. change 0%Q with (inject_Z 0). rewrite <- Zlt_Qlt. exact Hz.
Qed.

(** ** The normaliser *)

Section Normaliser.
Import GradingService.
Context {I : Interpreter}.

Lemma py_min_number (a : value) (b : Z) (q : Q) :
  as_number a = Some q ->
  exists v, py_min a b = Return v /\
    ((inject_Z b < q)%Q /\ v = VInt b \/ (q <= inject_Z b)%Q /\ v = a).
Proof.
  intros Ha. unfold py_min. rewrite Ha.
  eexists. split; [reflexivity|].
  destruct (Qlt_bool (inject_Z b) q) eqn:E.
  - left. split; [apply Qlt_bool_iff; exact E | reflexivity].
  - right. split; [apply Qlt_bool_false_iff; exact E | reflexivity].
Qed.

Lemma number_of_as_number (v : value) (q : Q) :
  as_number v = Some q -> number_of v = q.
Proof. unfold number_of. intros ->. reflexivity. Qed.

(** On a finite number the comparison with 0 and the percentage are those
    of the rationals. *)
Lemma py_positive_number (v : value) (q : Q) :
  as_number v = Some q -> py_positive v = Qlt_bool 0 q.
Proof.
  destruct v; cbn [as_number]; try discriminate;
    intros H; inversion H; subst; reflexivity.
Qed.

Lemma py_percent_number (v : value) (q : Q) (tm : Z) :
  as_number v = Some q ->
  py_percent v tm
  = bind (py_div q (inject_Z tm)) (fun ratio => Return (VFloat (ratio * 100)%Q)).
Proof.
  destruct v; cbn [as_number]; try discriminate;
    intros H; inversion H; subst; reflexivity.
Qed.

Lemma py_div_nonzero (a : Q) (b : Z) :
  b <> 0%Z -> py_div a (inject_Z b) = Return (a / inject_Z b)%Q.
Proof.
  intros Hb. unfold py_div.
  destruct (Qeq_bool (inject_Z b) 0) eqn:E; [|reflexivity].
  apply inject_Z_eq0 in E. congruence.
Qed.

(** No division by zero in the recalculation: a positive clamped score
    means a positive [total_marks]. *)
Lemma normalize_returns (gd : dict) (tm : Z) (s : Q) (fb : string) :
  as_number (dict_get gd "total_score" (VInt 0)) = Some s ->
  _combine_feedback gd = Return fb ->
  exists r score c,
    normalize gd tm = Return r /\
    py_min (dict_get gd "total_score" (VInt 0)) tm = Return score /\
    as_number score = Some c /\
    total_score r = score /\
    feedback r = fb /\
    percentage r =
      (if Qlt_bool 0 c
       then VFloat (c / inject_Z tm * 100)%Q
       else dict_get gd "percentage" (VInt 0)).
Proof.
  intros Hs Hfb.
  destruct (py_min_number _ tm _ Hs) as [score [Hmin Hcases]].
  assert (Hc : exists c, as_number score = Some c /\ (c <= inject_Z tm)%Q).
  { destruct Hcases as [[_ ->]|[Hle ->]].
    - exists (inject_Z tm). split; [reflexivity | apply Qle_refl].
    - exists s. split; assumption. }
  destruct Hc as [c [Hc Hle]].
  unfold normalize. rewrite Hmin, Hfb. cbn [bind].
  rewrite (py_positive_number _ _ Hc), (py_percent_number _ _ tm Hc).
  destruct (Qlt_bool 0 c) eqn:Epos.
  - assert (Htm : tm <> 0%Z).
    { intros ->. apply Qlt_bool_iff in Epos.
      exact (Qlt_not_le _ _ Epos Hle). }
    rewrite (py_div_nonzero c tm Htm). cbn [bind].
    eexists. exists score, c. rewrite Epos.
    repeat split; try reflexivity; try assumption.
  - eexists. exists score, c. rewrite Epos.
    repeat split; try reflexivity; try assumption.
Qed.

(** A reported score of [nan] or [-inf] is kept; [inf] is replaced by
    [total_marks]. *)
Lemma normalize_nonfinite (gd : dict) (tm : Z) (fb : string) :
  as_number (dict_get gd "total_score" (VInt 0)) = None ->
  _combine_feedback gd = Return fb ->
  (dict_get gd "total_score" (VInt 0) = VNaN \/
   dict_get gd "total_score" (VInt 0) = VInf true ->
   exists r, normalize gd tm = Return r /\
             total_score r = dict_get gd "total_score" (VInt 0)) /\
  (dict_get gd "total_score" (VInt 0) = VInf false ->
   exists r, normalize gd tm = Return r /\ total_score r = VInt tm) /\
  ((forall neg, dict_get gd "total_score" (VInt 0) <> VInf neg) ->
   dict_get gd "total_score" (VInt 0) <> VNaN ->
   normalize gd tm = Raise TypeError).
Proof.
  intros Hnone Hfb. unfold normalize, py_min. rewrite Hnone.
  split; [|split].
  - intros [Hv|Hv]; rewrite Hv; cbn [bind]; rewrite Hfb; cbn [bind py_positive negb];
      eexists; split; reflexivity.
  - intros Hv. rewrite Hv. cbn [bind]. rewrite Hfb. cbn [bind].
    rewrite (py_positive_number (VInt tm) (inject_Z tm) eq_refl).
    rewrite (py_percent_number (VInt tm) (inject_Z tm) tm eq_refl).
    destruct (Qlt_bool 0 (inject_Z tm)) eqn:Epos.
    + assert (Htm : tm <> 0%Z).
      { intros ->. apply Qlt_bool_iff in Epos. exact (Qlt_irrefl _ Epos). }
      rewrite (py_div_nonzero _ tm Htm). cbn [bind].
      eexists. split; reflexivity.
    + eexists. split; reflexivity.
  - intros Hinf Hnan.
    destruct (dict_get gd "total_score" (VInt 0)) as [| | | |neg| | | |] eqn:E;
      cbn [as_number] in Hnone; try discriminate; try reflexivity.
    + exfalso. exact (Hinf neg eq_refl).
    + exfalso. exact (Hnan eq_refl).
Qed.

(** *** Outcomes of the parse path *)

Lemma loads_outcome (s : string) :
  (exists v, Json.loads s = Return v) \/ Json.loads s = Raise JSONDecodeError.
Proof.
  unfold Json.loads. destruct (Json.decode _ s); [left; eexists; reflexivity | right; reflexivity ..].
Qed.

Lemma parse_or_repair_outcome (json_content : string) :
  (exists v, parse_or_repair json_content = Return v)
  \/ parse_or_repair json_content = Raise JSONDecodeError.
Proof.
  unfold parse_or_repair.
  destruct (loads_outcome json_content) as [[v Hv]|Hr]; rewrite ?Hv, ?Hr.
  - left. exists v. reflexivity.
  - destruct (loads_outcome (_repair_json json_content)) as [[v Hv]|Hr2];
      rewrite ?Hv, ?Hr2; [left; exists v; reflexivity | right; reflexivity].
Qed.

Lemma labelled_list_outcome (label : string) (v : value) (parts : list value) :
  (exists ps, labelled_list label v parts = Return ps)
  \/ labelled_list label v parts = Raise TypeError.
Proof.
  unfold labelled_list. destruct (truthy v); [|left; eexists; reflexivity].
  destruct v; cbn [iterate bind];
    first [left; eexists; reflexivity | right; reflexivity].
Qed.

Lemma strings_of_outcome (parts : list value) :
  (exists ss, strings_of parts = Return ss) \/ strings_of parts = Raise TypeError.
Proof.
  induction parts as [|v parts IH]; [left; eexists; reflexivity|].
  destruct v; cbn [strings_of]; try (right; reflexivity).
  destruct IH as [[ss Hss]|Hr]; rewrite ?Hss, ?Hr; cbn [bind];
    [left; eexists; reflexivity | right; reflexivity].
Qed.

(** Combining the feedback either gives a text or raises a [TypeError]. *)
Lemma combine_feedback_outcome (gd : dict) :
  (exists fb, _combine_feedback gd = Return fb)
  \/ _combine_feedback gd = Raise TypeError.
Proof.
  unfold _combine_feedback.
  match goal with
  | |- context [labelled_list "**Strengths:**" ?v ?ps] =>
      destruct (labelled_list_outcome "**Strengths:**" v ps) as [[ps1 H1]|H1];
      rewrite H1; cbn [bind]; [|right; reflexivity]
  end.
  match goal with
  | |- context [labelled_list "**Areas for Improvement:**" ?v ?ps] =>
      destruct (labelled_list_outcome "**Areas for Improvement:**" v ps)
        as [[ps2 H2]|H2];
      rewrite H2; cbn [bind]; [|right; reflexivity]
  end.
  match goal with
  | |- context [strings_of ?ps] =>
      destruct (strings_of_outcome ps) as [[ss H3]|H3];
      rewrite H3; cbn [bind]; [left; eexists; reflexivity | right; reflexivity]
  end.
Qed.

(** Normalising a parsed structure either gives a record or raises a
    [TypeError]. *)
Lemma normalize_outcome (gd : dict) (tm : Z) :
  (exists r, normalize gd tm = Return r) \/ normalize gd tm = Raise TypeError.
Proof.
  destruct (combine_feedback_outcome gd) as [[fb Hfb]|Hfb].
  - destruct (as_number (dict_get gd "total_score" (VInt 0))) as [s|] eqn:Hs.
    + destruct (normalize_returns gd tm s fb Hs Hfb) as [r [_ [_ [Hr _]]]].
      left. exists r. exact Hr.
    + destruct (normalize_nonfinite gd tm fb Hs Hfb) as [Hkeep [Hinf Herr]].
      destruct (dict_get gd "total_score" (VInt 0)) as [| | | |[|]| | | |] eqn:E;
        try (right; apply Herr; [intros neg; discriminate | discriminate]).
      * destruct (Hkeep (or_intror eq_refl)) as [r [Hr _]]. left. exists r. exact Hr.
      * destruct (Hinf eq_refl) as [r [Hr _]]. left. exists r. exact Hr.
      * destruct (Hkeep (or_introl eq_refl)) as [r [Hr _]]. left. exists r. exact Hr.
  - unfold normalize.
    destruct (py_min (dict_get gd "total_score" (VInt 0)) tm) as [v|e] eqn:Emin;
      cbn [bind]; [rewrite Hfb; right; reflexivity|].
    right. unfold py_min in Emin.
    destruct (as_number (dict_get gd "total_score" (VInt 0))); [discriminate|].
    destruct (dict_get gd "total_score" (VInt 0)) as [| | | |[|]| | | |];
      inversion Emin; reflexivity.
Qed.

(** The response is a parsed structure [gd]: the normaliser returns what
    normalising [gd] gives, or the error record when that raises. *)
Lemma parse_response_of_structure (response : string) (tm : Z) (start : nat)
      (gd : dict) :
  find "{" (strip response) = Some start ->
  parse_or_repair (json_region (strip response) start) = Return (VDict gd) ->
  _parse_grading_response response tm =
  match normalize gd tm with
  | Return r => Return r
  | Raise e => Return (_create_error_result (str_exn e))
  end.
Proof.
  intros Hfind Hparse.
  unfold _parse_grading_response, parse_body. rewrite Hfind, Hparse. cbn [bind].
  destruct (normalize_outcome gd tm) as [[r Hr]|Hr]; rewrite Hr; reflexivity.
Qed.

(** *** The fallback scan *)

Lemma span_digits_digits (s ds rest : string) :
  span_digits s = (ds, rest) -> all_digits ds.
Proof.
  intros Hs. pose proof (span_digits_all_digits s) as Hd.
  rewrite Hs in Hd. exact Hd.
Qed.

Lemma match_number_digits (s g1 : string) (g2 : option string) :
  match_number s = Some (g1, g2) ->
  all_digits g1 /\ (forall d, g2 = Some d -> all_digits d).
Proof.
  unfold match_number.
  destruct (span_digits (skip_seps s)) as [ds rest] eqn:E1.
  pose proof (span_digits_digits _ _ _ E1) as Hds.
  destruct ds as [|c ds']; [discriminate|].
  destruct rest as [|c1 r].
  - intros Hm. inversion Hm; subst. split; [exact Hds | discriminate].
  - destruct (Ascii.eqb c1 "/").
    + destruct (span_digits r) as [ds2 rest2] eqn:E2.
      pose proof (span_digits_digits _ _ _ E2) as Hds2.
      destruct ds2 as [|c2 ds2'].
      * intros Hm. inversion Hm; subst. split; [exact Hds | discriminate].
      * intros Hm. inversion Hm; subst. split; [exact Hds|].
        intros d Hd. inversion Hd; subst. exact Hds2.
    + intros Hm. inversion Hm; subst. split; [exact Hds | discriminate].
Qed.

Lemma match_here_digits (s g1 : string) (g2 : option string) :
  match_here s = Some (g1, g2) ->
  all_digits g1 /\ (forall d, g2 = Some d -> all_digits d).
Proof.
  unfold match_here, or_else.
  destruct (skip_prefix_nocase "score" s) as [r|].
  - destruct (match_number r) as [[a b]|] eqn:E.
    + intros Hm. inversion Hm; subst. exact (match_number_digits _ _ _ E).
    + destruct (skip_prefix_nocase "mark" s) as [r1|]; [|discriminate].
      destruct (skip_prefix_nocase "s" r1) as [r2|].
      * destruct (match_number r2) as [[a b]|] eqn:E2.
        -- intros Hm. inversion Hm; subst. exact (match_number_digits _ _ _ E2).
        -- intros Hm. exact (match_number_digits _ _ _ Hm).
      * intros Hm. exact (match_number_digits _ _ _ Hm).
  - destruct (skip_prefix_nocase "mark" s) as [r1|]; [|discriminate].
    destruct (skip_prefix_nocase "s" r1) as [r2|].
    + destruct (match_number r2) as [[a b]|] eqn:E2.
      * intros Hm. inversion Hm; subst. exact (match_number_digits _ _ _ E2).
      * intros Hm. exact (match_number_digits _ _ _ Hm).
    + intros Hm. exact (match_number_digits _ _ _ Hm).
Qed.

Lemma score_search_digits (s g1 : string) (g2 : option string) :
  score_search s = Some (g1, g2) ->
  all_digits g1 /\ (forall d, g2 = Some d -> all_digits d).
Proof.
  induction s as [|c r IH]; cbn [score_search].
  - destruct (match_here EmptyString) as [m|] eqn:E; [|discriminate].
    intros Hm. inversion Hm; subst. exact (match_here_digits _ _ _ E).
  - destruct (match_here (String c r)) as [m|] eqn:E.
    + intros Hm. inversion Hm; subst. exact (match_here_digits _ _ _ E).
    + exact IH.
Qed.

Lemma fallback_percent_step (score : value) (tm : Z) (k : value -> Exc GradingResult) :
  bind (if (0 <? tm)%Z
        then bind (py_div (number_of score) (inject_Z tm))
                  (fun ratio => Return (VFloat (ratio * 100)%Q))
        else Return (VInt 0)) k
  = k (fallback_percentage score tm).
Proof.
  unfold fallback_percentage.
  destruct (0 <? tm)%Z eqn:E; [|reflexivity].
  unfold py_div.
  assert (Hz : Qeq_bool (inject_Z tm) 0 = false).
  { destruct (Qeq_bool (inject_Z tm) 0) eqn:E0; [|reflexivity].
    apply inject_Z_eq0 in E0. apply Z.ltb_lt in E. lia. }
  rewrite Hz. reflexivity.
Qed.

Lemma fallback_body_no_match (response : string) (tm : Z) :
  score_search response = None ->
  fallback_body response tm
  = Return (fallback_record response (VInt 0) (fallback_percentage (VInt 0) tm)).
Proof.
  intros Hn. unfold fallback_body. rewrite Hn. cbn [bind].
  apply (fallback_percent_step (VInt 0) tm
           (fun percent => Return (fallback_record response (VInt 0) percent))).
Qed.

Lemma fallback_body_zero_denominator (response : string) (tm : Z) (g1 : string)
      (g2 : option string) :
  score_search response = Some (g1, g2) ->
  denominator g2 tm = 0%Z -> tm <> 0%Z ->
  fallback_body response tm = Raise ZeroDivisionError.
Proof.
  intros Hm Hd Htm. unfold fallback_body. rewrite Hm.
  fold (denominator g2 tm). rewrite Hd.
  assert (Hne : (0 =? tm)%Z = false) by (apply Z.eqb_neq; lia).
  rewrite Hne. cbn [negb]. unfold py_div.
  replace (Qeq_bool (inject_Z 0) 0) with true by reflexivity.
  reflexivity.
Qed.

Lemma fallback_body_match (response : string) (tm : Z) (g1 : string)
      (g2 : option string) :
  score_search response = Some (g1, g2) ->
  (denominator g2 tm = tm \/ denominator g2 tm <> 0%Z) ->
  fallback_body response tm
  = bind (py_min (rescaled g1 g2 tm) tm)
         (fun score =>
            Return (fallback_record response score (fallback_percentage score tm))).
Proof.
  intros Hm Hd. unfold fallback_body. rewrite Hm.
  fold (denominator g2 tm). unfold rescaled.
  destruct (denominator g2 tm =? tm)%Z eqn:E; cbn [negb bind].
  - destruct (py_min (VInt (int_of_digits g1)) tm) as [v|e]; cbn [bind]; [|reflexivity].
    apply (fallback_percent_step v tm
             (fun percent => Return (fallback_record response v percent))).
  - assert (Hz : Qeq_bool (inject_Z (denominator g2 tm)) 0 = false).
    { destruct (Qeq_bool (inject_Z (denominator g2 tm)) 0) eqn:E0; [|reflexivity].
      apply inject_Z_eq0 in E0. apply Z.eqb_neq in E.
      destruct Hd as [Hd|Hd]; congruence. }
    unfold py_div at 1. rewrite Hz. cbn [bind].
    match goal with
    | |- bind (py_min ?a tm) _ = _ =>
        destruct (py_min a tm) as [v|e]; cbn [bind]; [|reflexivity]
    end.
    apply (fallback_percent_step v tm
             (fun percent => Return (fallback_record response v percent))).
Qed.

Lemma py_min_value (a : value) (b : Z) (q : Q) :
  as_number a = Some q ->
  exists v c,
    py_min a b = Return v /\ as_number v = Some c /\
    (c == Qmin q (inject_Z b))%Q /\ (c <= inject_Z b)%Q /\
    ((0 <= q)%Q -> (0 <= b)%Z -> (0 <= c)%Q).
Proof.
  intros Ha. destruct (py_min_number _ b _ Ha) as [v [Hv [[Hlt ->]|[Hle ->]]]].
  - exists (VInt b), (inject_Z b). repeat split; try assumption.
    + symmetry. apply Q.min_r. apply Qlt_le_weak. exact Hlt.
    + apply Qle_refl.
    + intros _ Hb. apply inject_Z_nonneg. exact Hb.
  - exists a, q. repeat split; try assumption.
    + symmetry. apply Q.min_l. exact Hle.
    + intros Hq _. exact Hq.
Qed.

Lemma rescaled_number (g1 : string) (g2 : option string) (tm : Z) :
  all_digits g1 -> (forall d, g2 = Some d -> all_digits d) ->
  (0 <= tm)%Z ->
  (denominator g2 tm = tm \/ denominator g2 tm <> 0%Z) ->
  exists q, as_number (rescaled g1 g2 tm) = Some q /\ (0 <= q)%Q.
Proof.
  intros H1 H2 Htm Hd. unfold rescaled.
  pose proof (int_of_digits_nonneg g1 H1) as Hs.
  destruct (denominator g2 tm =? tm)%Z eqn:E.
  - eexists. split; [reflexivity|].
    apply inject_Z_nonneg. exact Hs.
  - eexists. split; [reflexivity|].
    apply Z.eqb_neq in E.
    assert (Hpos : (0 < denominator g2 tm)%Z).
    { destruct Hd as [Hd|Hd]; [congruence|].
      destruct g2 as [d|]; cbn [denominator] in *.
      - pose proof (int_of_digits_nonneg d (H2 d eq_refl)). lia.
      - lia. }
    apply Qmult_le_0_compat.
    + apply Qdiv_nonneg.
      * apply inject_Z_nonneg. exact Hs.
      * apply inject_Z_pos. exact Hpos.
    + apply inject_Z_nonneg. exact Htm.
Qed.

(** Every outcome of the fallback is a record, and for a non-negative
    [total_marks] its score lies between 0 and [total_marks]. *)
Lemma fallback_returns (response : string) (tm : Z) :
  exists r, _fallback_text_parsing response tm = Return r.
Proof.
  unfold _fallback_text_parsing.
  destruct (fallback_body response tm) as [r|e]; eexists; reflexivity.
Qed.

Lemma fallback_score_range (response : string) (tm : Z) :
  (0 <= tm)%Z ->
  exists r c,
    _fallback_text_parsing response tm = Return r /\
    as_number (total_score r) = Some c /\ (0 <= c)%Q /\ (c <= inject_Z tm)%Q.
Proof.
  intros Htm.
  assert (Hzero : (0 <= 0)%Q /\ (0 <= inject_Z tm)%Q).
  { split; [apply Qle_refl | apply inject_Z_nonneg; exact Htm]. }
  unfold _fallback_text_parsing.
  destruct (score_search response) as [[g1 g2]|] eqn:Hm.
  - destruct (score_search_digits _ _ _ Hm) as [H1 H2].
    destruct (Z.eq_dec (denominator g2 tm) tm) as [Heq|Hne];
      [|destruct (Z.eq_dec (denominator g2 tm) 0) as [Hz|Hnz]].
    + destruct (rescaled_number g1 g2 tm H1 H2 Htm (or_introl Heq)) as [q [Hq Hq0]].
      destruct (py_min_value _ tm _ Hq) as [v [c [Hv [Hc [_ [Hle Hge]]]]]].
      rewrite (fallback_body_match _ _ _ _ Hm (or_introl Heq)), Hv. cbn [bind].
      eexists. exists c. split; [reflexivity|]. cbn [total_score fallback_record].
      repeat split; auto.
    + assert (Htm0 : tm <> 0%Z) by congruence.
      rewrite (fallback_body_zero_denominator _ _ _ _ Hm Hz Htm0).
      eexists. exists 0%Q. split; [reflexivity|].
      cbn [total_score _create_error_result as_number].
      destruct Hzero. repeat split; auto.
    + destruct (rescaled_number g1 g2 tm H1 H2 Htm (or_intror Hnz)) as [q [Hq Hq0]].
      destruct (py_min_value _ tm _ Hq) as [v [c [Hv [Hc [_ [Hle Hge]]]]]].
      rewrite (fallback_body_match _ _ _ _ Hm (or_intror Hnz)), Hv. cbn [bind].
      eexists. exists c. split; [reflexivity|]. cbn [total_score fallback_record].
      repeat split; auto.
  - rewrite (fallback_body_no_match _ tm Hm).
    eexists. exists 0%Q. split; [reflexivity|].
    cbn [total_score fallback_record as_number].
    destruct Hzero. repeat split; auto.
Qed.

End Normaliser.

(** ** The decoder consumes its input *)

Section Decoder.
Import Json.

Lemma suffix_trans (a b c : string) : suffix_of a b -> suffix_of b c -> suffix_of a c.
Proof.
  intros Hab Hbc. induction Hbc as [|x s Hbc IH]; [exact Hab|].
  apply suffix_skip. exact IH.
Qed.

Lemma proper_suffix_weaken (a b : string) : proper_suffix a b -> suffix_of a b.
Proof.
  destruct b as [|c b]; cbn [proper_suffix]; [tauto|].
  intros H. apply suffix_skip. exact H.
Qed.

Lemma proper_suffix_trans_l (a b c : string) :
  suffix_of a b -> proper_suffix b c -> proper_suffix a c.
Proof.
  destruct c as [|x c]; cbn [proper_suffix]; [tauto|].
  intros Hab Hbc. exact (suffix_trans _ _ _ Hab Hbc).
Qed.

Lemma proper_suffix_trans_r (a b c : string) :
  proper_suffix a b -> suffix_of b c -> proper_suffix a c.
Proof.
  intros Hab Hbc. induction Hbc as [|x s Hbc IH]; [exact Hab|].
  cbn [proper_suffix]. apply proper_suffix_weaken. exact IH.
Qed.

Lemma suffix_length (a b : string) :
  suffix_of a b -> String.length a <= String.length b.
Proof.
  intros H. induction H as [|x s H IH]; cbn [String.length]; lia.
Qed.

Lemma proper_suffix_length (a b : string) :
  proper_suffix a b -> String.length a < String.length b.
Proof.
  destruct b as [|c b]; cbn [proper_suffix String.length]; [tauto|].
  intros H. apply suffix_length in H. lia.
Qed.


Lemma skip_ws_suffix (s : string) : suffix_of (skip_ws s) s.
Proof.
  induction s as [|c r IH]; cbn [skip_ws]; [apply suffix_here|].
  destruct (is_ws c); [apply suffix_skip; exact IH | apply suffix_here].
Qed.

Lemma span_digits_suffix (s ds rest : string) :
  span_digits s = (ds, rest) -> suffix_of rest s.
Proof.
  revert ds rest. induction s as [|c r IH]; intros ds rest; cbn [span_digits].
  - intros H. inversion H; subst. apply suffix_here.
  - destruct (isdigit c).
    + destruct (span_digits r) as [ds' rest'] eqn:E.
      intros H. inversion H; subst. apply suffix_skip. exact (IH _ _ eq_refl).
    + intros H. inversion H; subst. apply suffix_here.
Qed.

Lemma skip_prefix_suffix (p s rest : string) :
  skip_prefix p s = Some rest -> suffix_of rest s.
Proof.
  revert s. induction p as [|a p IH]; intros s; cbn [skip_prefix].
  - intros H. inversion H; subst. apply suffix_here.
  - destruct s as [|b s']; [discriminate|].
    destruct (Ascii.eqb a b); [|discriminate].
    intros H. apply suffix_skip. exact (IH _ H).
Qed.

Lemma skip_prefix_proper (a : ascii) (p s rest : string) :
  skip_prefix (String a p) s = Some rest -> proper_suffix rest s.
Proof.
  cbn [skip_prefix]. destruct s as [|b s']; [discriminate|].
  destruct (Ascii.eqb a b); [|discriminate].
  intros H. cbn [proper_suffix]. exact (skip_prefix_suffix _ _ _ H).
Qed.

Lemma scan_units_proper_bounded (n : nat) :
  forall s us rest,
    String.length s <= n -> scan_units s = Some (us, rest) -> proper_suffix rest s.
Proof.
  induction n as [|n IH]; intros s us rest Hlen.
  - destruct s; [discriminate | cbn [String.length] in Hlen; lia].
  - destruct s as [|c r]; [discriminate|].
    cbn [String.length] in Hlen. cbn [scan_units proper_suffix].
    destruct (Ascii.eqb c dquote).
    { intros H. inversion H; subst. apply suffix_here. }
    destruct (Ascii.eqb c "\").
    + destruct r as [|e r1]; [discriminate|].
      cbn [String.length] in Hlen.
      destruct (Ascii.eqb e "u").
      * destruct r1 as [|h1 [|h2 [|h3 [|h4 r2]]]]; try discriminate.
        cbn [String.length] in Hlen.
        destruct (hex4 h1 h2 h3 h4); [|discriminate].
        destruct (scan_units r2) as [[us' rest']|] eqn:E; [|discriminate].
        intros H. inversion H; subst.
        assert (Hr : proper_suffix rest r2) by (apply (IH r2 us' rest); [lia | exact E]).
        apply proper_suffix_weaken in Hr.
        repeat apply suffix_skip. exact Hr.
      * destruct (simple_escape e); [|discriminate].
        destruct (scan_units r1) as [[us' rest']|] eqn:E; [|discriminate].
        intros H. inversion H; subst.
        assert (Hr : proper_suffix rest r1) by (apply (IH r1 us' rest); [lia | exact E]).
        apply proper_suffix_weaken in Hr. apply suffix_skip. exact Hr.
    + destruct (nat_of_ascii c <? 32); [discriminate|].
      destruct (scan_units r) as [[us' rest']|] eqn:E; [|discriminate].
      intros H. inversion H; subst.
      apply proper_suffix_weaken. apply (IH r us' rest); [lia | exact E].
Qed.

Lemma scanstring_proper (s str rest : string) :
  scanstring s = Some (str, rest) -> proper_suffix rest s.
Proof.
  unfold scanstring. destruct (scan_units s) as [[us r]|] eqn:E; [|discriminate].
  intros H. inversion H; subst.
  exact (scan_units_proper_bounded (String.length s) s us rest (le_n _) E).
Qed.

Lemma scan_int_proper (s ids rest : string) :
  scan_int s = Some (ids, rest) -> proper_suffix rest s.
Proof.
  unfold scan_int. destruct s as [|c r]; [discriminate|].
  cbn [proper_suffix]. destruct (Ascii.eqb c "0").
  - intros H. inversion H; subst. apply suffix_here.
  - destruct (isdigit c); [|discriminate].
    destruct (span_digits r) as [ds rest'] eqn:E.
    intros H. inversion H; subst. exact (span_digits_suffix _ _ _ E).
Qed.

Lemma scan_frac_suffix (s fds rest : string) :
  scan_frac s = Some (fds, rest) -> suffix_of rest s.
Proof.
  unfold scan_frac. destruct s as [|c r]; [discriminate|].
  destruct (Ascii.eqb c "."); [|discriminate].
  destruct (span_digits r) as [ds rest'] eqn:E.
  destruct ds; [discriminate|].
  intros H. inversion H; subst. apply suffix_skip. exact (span_digits_suffix _ _ _ E).
Qed.

Lemma scan_exp_suffix (s : string) (e : Z) (rest : string) :
  scan_exp s = Some (e, rest) -> suffix_of rest s.
Proof.
  unfold scan_exp. destruct s as [|c r]; [discriminate|].
  destruct (Ascii.eqb c "e" || Ascii.eqb c "E"); [|discriminate].
  assert (Hsign : forall neg r1,
             match r with
             | String sg r' =>
                 if Ascii.eqb sg "-" then (true, r')
                 else if Ascii.eqb sg "+" then (false, r') else (false, r)
             | EmptyString => (false, r)
             end = (neg, r1) -> suffix_of r1 r).
  { intros neg r1. destruct r as [|sg r'].
    - intros H. inversion H; subst. apply suffix_here.
    - destruct (Ascii.eqb sg "-"); [intros H; inversion H; subst; apply suffix_skip, suffix_here|].
      destruct (Ascii.eqb sg "+"); intros H; inversion H; subst;
        [apply suffix_skip, suffix_here | apply suffix_here]. }
  destruct (match r with
            | String sg r' =>
                if Ascii.eqb sg "-" then (true, r')
                else if Ascii.eqb sg "+" then (false, r') else (false, r)
            | EmptyString => (false, r)
            end) as [neg r1] eqn:Er.
  specialize (Hsign neg r1 eq_refl).
  destruct (span_digits r1) as [ds rest'] eqn:E.
  destruct ds; [discriminate|].
  intros H. inversion H; subst. apply suffix_skip.
  exact (suffix_trans _ _ _ (span_digits_suffix _ _ _ E) Hsign).
Qed.

Lemma scan_number_proper (s : string) (v : value) (rest : string) :
  scan_number s = Some (v, rest) -> proper_suffix rest s.
Proof.
  unfold scan_number.
  destruct (match s with
            | String c r => if Ascii.eqb c "-" then (true, r) else (false, s)
            | EmptyString => (false, s)
            end) as [neg s1] eqn:Es.
  assert (Hs1 : suffix_of s1 s).
  { destruct s as [|c r].
    - inversion Es; subst. apply suffix_here.
    - destruct (Ascii.eqb c "-"); inversion Es; subst;
        [apply suffix_skip, suffix_here | apply suffix_here]. }
  destruct (scan_int s1) as [[ids r1]|] eqn:Ei; [|discriminate].
  pose proof (scan_int_proper _ _ _ Ei) as H1.
  destruct (match scan_frac r1 with
            | Some (fds, r) => (Some fds, r)
            | None => (None, r1)
            end) as [frac r2] eqn:Ef.
  assert (H2 : suffix_of r2 r1).
  { destruct (scan_frac r1) as [[fds r]|] eqn:E; inversion Ef; subst;
      [exact (scan_frac_suffix _ _ _ E) | apply suffix_here]. }
  destruct (match scan_exp r2 with
            | Some (e, r) => (Some e, r)
            | None => (None, r2)
            end) as [ex r3] eqn:Ee.
  assert (H3 : suffix_of r3 r2).
  { destruct (scan_exp r2) as [[e r]|] eqn:E; inversion Ee; subst;
      [exact (scan_exp_suffix _ _ _ E) | apply suffix_here]. }
  assert (Hall : proper_suffix r3 s).
  { apply (proper_suffix_trans_r _ s1); [|exact Hs1].
    apply (proper_suffix_trans_l _ r1); [|exact H1].
    exact (suffix_trans _ _ _ H3 H2). }
  destruct frac, ex; intros H; inversion H; subst; exact Hall.
Qed.

(** Whatever the scanner reads, it leaves a proper suffix of its input. *)
Lemma scanner_consumes (fuel : nat) :
  (forall s v rest, scan_once fuel s = Scanned v rest -> proper_suffix rest s) /\
  (forall pairs s v rest,
      object_pairs fuel pairs s = Scanned v rest -> proper_suffix rest s) /\
  (forall items s v rest,
      array_items fuel items s = Scanned v rest -> proper_suffix rest s).
Proof.
  induction fuel as [|fuel [IHv [IHo IHa]]].
  - repeat split; intros; discriminate.
  - split; [|split].
    + intros s v rest. cbn [scan_once].
      destruct s as [|c r]; [discriminate|].
      destruct (Ascii.eqb c dquote).
      { destruct (scanstring r) as [[str rest']|] eqn:E; [|discriminate].
        intros H. inversion H; subst. cbn [proper_suffix].
        apply proper_suffix_weaken. exact (scanstring_proper _ _ _ E). }
      destruct (Ascii.eqb c "{").
      { pose proof (skip_ws_suffix r) as Hws.
        destruct (skip_ws r) as [|c1 r1]; [discriminate|].
        destruct (Ascii.eqb c1 "}").
        - intros H. inversion H; subst. cbn [proper_suffix].
          apply (suffix_trans _ (String c1 rest)); [apply suffix_skip, suffix_here | exact Hws].
        - destruct (Ascii.eqb c1 dquote); [|discriminate].
          intros H. apply IHo in H. cbn [proper_suffix].
          apply (suffix_trans _ (String c1 r1)); [|exact Hws].
          apply suffix_skip. apply proper_suffix_weaken. exact H. }
      destruct (Ascii.eqb c "[").
      { pose proof (skip_ws_suffix r) as Hws.
        destruct (skip_ws r) as [|c1 r1]; [discriminate|].
        destruct (Ascii.eqb c1 "]").
        - intros H. inversion H; subst. cbn [proper_suffix].
          apply (suffix_trans _ (String c1 rest)); [apply suffix_skip, suffix_here | exact Hws].
        - intros H. apply IHa in H. cbn [proper_suffix].
          apply (suffix_trans _ (String c1 r1)); [|exact Hws].
          apply proper_suffix_weaken. exact H. }
      destruct (skip_prefix "null" (String c r)) as [rest'|] eqn:En.
      { intros H. inversion H; subst. exact (skip_prefix_proper _ _ _ _ En). }
      destruct (skip_prefix "true" (String c r)) as [rest'|] eqn:Et.
      { intros H. inversion H; subst. exact (skip_prefix_proper _ _ _ _ Et). }
      destruct (skip_prefix "false" (String c r)) as [rest'|] eqn:Ef.
      { intros H. inversion H; subst. exact (skip_prefix_proper _ _ _ _ Ef). }
      destruct (scan_number (String c r)) as [[v' rest']|] eqn:Enum.
      { intros H. inversion H; subst. exact (scan_number_proper _ _ _ Enum). }
      destruct (skip_prefix "NaN" (String c r)) as [rest'|] eqn:Enan.
      { intros H. inversion H; subst. exact (skip_prefix_proper _ _ _ _ Enan). }
      destruct (skip_prefix "Infinity" (String c r)) as [rest'|] eqn:Einf.
      { intros H. inversion H; subst. exact (skip_prefix_proper _ _ _ _ Einf). }
      destruct (skip_prefix "-Infinity" (String c r)) as [rest'|] eqn:Eneg;
        [|discriminate].
      intros H. inversion H; subst. exact (skip_prefix_proper _ _ _ _ Eneg).
    + intros pairs s v rest. cbn [object_pairs].
      destruct (scanstring s) as [[key r]|] eqn:Ek; [|discriminate].
      pose proof (scanstring_proper _ _ _ Ek) as Hk.
      pose proof (skip_ws_suffix r) as Hws.
      destruct (skip_ws r) as [|c r1]; [discriminate|].
      destruct (Ascii.eqb c ":"); [|discriminate].
      destruct (scan_once fuel (skip_ws r1)) as [v' r2| |] eqn:Ev; try discriminate.
      apply IHv in Ev.
      assert (Hr2 : proper_suffix r2 s).
      { apply (proper_suffix_trans_l _ r); [|exact Hk].
        apply (suffix_trans _ (String c r1)); [|exact Hws].
        apply suffix_skip.
        apply (suffix_trans _ (skip_ws r1)); [|apply skip_ws_suffix].
        apply proper_suffix_weaken. exact Ev. }
      pose proof (skip_ws_suffix r2) as Hws2.
      destruct (skip_ws r2) as [|c2 r3]; [discriminate|].
      assert (Hr3 : proper_suffix r3 s).
      { apply (proper_suffix_trans_l _ r2); [|exact Hr2].
        apply (suffix_trans _ (String c2 r3)); [apply suffix_skip, suffix_here | exact Hws2]. }
      destruct (Ascii.eqb c2 "}").
      { intros H. inversion H; subst. exact Hr3. }
      destruct (Ascii.eqb c2 ","); [|discriminate].
      pose proof (skip_ws_suffix r3) as Hws3.
      destruct (skip_ws r3) as [|c3 r4]; [discriminate|].
      destruct (Ascii.eqb c3 dquote); [|discriminate].
      intros H. apply IHo in H.
      apply (proper_suffix_trans_l _ r3); [|exact Hr3].
      apply (suffix_trans _ (String c3 r4)); [|exact Hws3].
      apply suffix_skip. apply proper_suffix_weaken. exact H.
    + intros items s v rest. cbn [array_items].
      destruct (scan_once fuel s) as [v' r| |] eqn:Ev; try discriminate.
      apply IHv in Ev.
      pose proof (skip_ws_suffix r) as Hws.
      destruct (skip_ws r) as [|c r1]; [discriminate|].
      assert (Hr1 : proper_suffix r1 s).
      { apply (proper_suffix_trans_l _ r); [|exact Ev].
        apply (suffix_trans _ (String c r1)); [apply suffix_skip, suffix_here | exact Hws]. }
      destruct (Ascii.eqb c "]").
      { intros H. inversion H; subst. exact Hr1. }
      destruct (Ascii.eqb c ","); [|discriminate].
      intros H. apply IHa in H.
      apply (proper_suffix_trans_l _ r1); [|exact Hr1].
      apply (suffix_trans _ (skip_ws r1)); [|apply skip_ws_suffix].
      apply proper_suffix_weaken. exact H.
Qed.

Lemma scan_once_consumes (fuel : nat) (s : string) (v : value) (rest : string) :
  scan_once fuel s = Scanned v rest -> proper_suffix rest s.
Proof. exact (proj1 (scanner_consumes fuel) s v rest). Qed.

(** The recursion budget is never what stops the scanner. *)
Lemma scanner_never_exhausted (fuel : nat) :
  (forall s, 2 * String.length s < fuel -> scan_once fuel s <> Exhausted) /\
  (forall pairs s,
      2 * String.length s < fuel -> object_pairs fuel pairs s <> Exhausted) /\
  (forall items s,
      2 * String.length s + 1 < fuel -> array_items fuel items s <> Exhausted).
Proof.
  induction fuel as [|fuel [IHv [IHo IHa]]].
  - repeat split; intros; lia.
  - split; [|split].
    + intros s Hlen. cbn [scan_once].
      destruct s as [|c r]; [discriminate|].
      cbn [String.length] in Hlen.
      destruct (Ascii.eqb c dquote).
      { destruct (scanstring r) as [[str rest']|]; discriminate. }
      destruct (Ascii.eqb c "{").
      { pose proof (suffix_length _ _ (skip_ws_suffix r)) as Hws.
        destruct (skip_ws r) as [|c1 r1]; [discriminate|].
        cbn [String.length] in Hws.
        destruct (Ascii.eqb c1 "}"); [discriminate|].
        destruct (Ascii.eqb c1 dquote); [|discriminate].
        apply IHo. lia. }
      destruct (Ascii.eqb c "[").
      { pose proof (suffix_length _ _ (skip_ws_suffix r)) as Hws.
        destruct (skip_ws r) as [|c1 r1]; [discriminate|].
        destruct (Ascii.eqb c1 "]"); [discriminate|].
        apply IHa. lia. }
      destruct (skip_prefix "null" (String c r)); [discriminate|].
      destruct (skip_prefix "true" (String c r)); [discriminate|].
      destruct (skip_prefix "false" (String c r)); [discriminate|].
      destruct (scan_number (String c r)) as [[v' rest']|]; [discriminate|].
      destruct (skip_prefix "NaN" (String c r)); [discriminate|].
      destruct (skip_prefix "Infinity" (String c r)); [discriminate|].
      destruct (skip_prefix "-Infinity" (String c r)); discriminate.
    + intros pairs s Hlen. cbn [object_pairs].
      destruct (scanstring s) as [[key r]|] eqn:Ek; [|discriminate].
      pose proof (proper_suffix_length _ _ (scanstring_proper _ _ _ Ek)) as Hk.
      pose proof (suffix_length _ _ (skip_ws_suffix r)) as Hws.
      destruct (skip_ws r) as [|c r1]; [discriminate|].
      cbn [String.length] in Hws.
      destruct (Ascii.eqb c ":"); [|discriminate].
      pose proof (suffix_length _ _ (skip_ws_suffix r1)) as Hws1.
      destruct (scan_once fuel (skip_ws r1)) as [v' r2| |] eqn:Ev.
      * pose proof (proper_suffix_length _ _ (scan_once_consumes _ _ _ _ Ev)) as Hv.
        pose proof (suffix_length _ _ (skip_ws_suffix r2)) as Hws2.
        destruct (skip_ws r2) as [|c2 r3]; [discriminate|].
        cbn [String.length] in Hws2.
        destruct (Ascii.eqb c2 "}"); [discriminate|].
        destruct (Ascii.eqb c2 ","); [|discriminate].
        pose proof (suffix_length _ _ (skip_ws_suffix r3)) as Hws3.
        destruct (skip_ws r3) as [|c3 r4]; [discriminate|].
        cbn [String.length] in Hws3.
        destruct (Ascii.eqb c3 dquote); [|discriminate].
        apply IHo. lia.
      * discriminate.
      * exfalso. apply (IHv (skip_ws r1)); [lia | exact Ev].
    + intros items s Hlen. cbn [array_items].
      destruct (scan_once fuel s) as [v' r| |] eqn:Ev.
      * pose proof (proper_suffix_length _ _ (scan_once_consumes _ _ _ _ Ev)) as Hv.
        pose proof (suffix_length _ _ (skip_ws_suffix r)) as Hws.
        destruct (skip_ws r) as [|c r1]; [discriminate|].
        cbn [String.length] in Hws.
        destruct (Ascii.eqb c "]"); [discriminate|].
        destruct (Ascii.eqb c ","); [|discriminate].
        pose proof (suffix_length _ _ (skip_ws_suffix r1)) as Hws1.
        apply IHa. lia.
      * discriminate.
      * exfalso. apply (IHv s); [lia | exact Ev].
Qed.

(** With the budget [loads] gives it, the decoder either reads the text
    or finds it malformed. *)
Lemma decode_never_exhausted (s : string) :
  decode (2 * String.length s + 1) s <> Exhausted.
Proof.
  unfold decode.
  pose proof (suffix_length _ _ (skip_ws_suffix s)) as Hws.
  destruct (scan_once (2 * String.length s + 1) (skip_ws s)) as [v rest| |] eqn:E.
  - destruct (skip_ws rest); discriminate.
  - discriminate.
  - exfalso.
    apply (proj1 (scanner_never_exhausted (2 * String.length s + 1)) (skip_ws s));
      [lia | exact E].
Qed.

(** [loads] raises exactly when the text is malformed. *)
Lemma loads_raises_iff_malformed (s : string) :
  loads s = Raise JSONDecodeError <-> decode (2 * String.length s + 1) s = Malformed.
Proof.
  unfold loads. pose proof (decode_never_exhausted s) as Hne.
  destruct (decode (2 * String.length s + 1) s); split; intros H;
    try discriminate; try reflexivity; try congruence.
Qed.



End Decoder.

(** ** Claims about the normaliser *)

Section NormaliserClaims.
Import GradingService.
Context {I : Interpreter}.

(** The score of the error record. *)
Lemma error_record_score (msg : string) (tm : Z) :
  (0 <= tm)%Z ->
  as_number (total_score (_create_error_result msg)) = Some 0%Q /\
  (0 <= 0)%Q /\ (0 <= inject_Z tm)%Q.
Proof.
  intros Htm. split; [reflexivity|].
  split; [apply Qle_refl | apply inject_Z_nonneg; exact Htm].
Qed.

(** The clamp read exactly, for a parsed structure whose feedback can be
    combined. *)
Lemma clamp_from_above_exact (response : string) (tm : Z) :
  forall (start : nat) (gd : dict) (fb : string),
    find "{" (strip response) = Some start ->
    parse_or_repair (json_region (strip response) start) = Return (VDict gd) ->
    _combine_feedback gd = Return fb ->
    exists r,
      _parse_grading_response response tm = Return r /\
      (forall s,
          as_number (dict_get gd "total_score" (VInt 0)) = Some s ->
          ((inject_Z tm < s)%Q -> total_score r = VInt tm) /\
          ((s <= inject_Z tm)%Q ->
           total_score r = dict_get gd "total_score" (VInt 0))) /\
      (dict_get gd "total_score" (VInt 0) = VInf false ->
       total_score r = VInt tm) /\
      (dict_get gd "total_score" (VInt 0) = VNaN \/
       dict_get gd "total_score" (VInt 0) = VInf true ->
       total_score r = dict_get gd "total_score" (VInt 0)).
Proof.
  intros start gd fb Hfind Hparse Hcomb.
  rewrite (parse_response_of_structure response tm start gd Hfind Hparse).
  destruct (as_number (dict_get gd "total_score" (VInt 0))) as [s|] eqn:Hs.
  - destruct (normalize_returns gd tm s fb Hs Hcomb)
      as [r [score [c [Hr [Hmin [_ [Hscore _]]]]]]].
    rewrite Hr. exists r. split; [reflexivity|].
    destruct (py_min_number _ tm _ Hs) as [v [Hv Hcases]].
    rewrite Hmin in Hv. injection Hv as <-.
    split; [|split].
    + intros s' Hs'. injection Hs' as <-.
      destruct Hcases as [[Hlt Hval]|[Hle Hval]]; rewrite Hscore, Hval; split;
        intros H; try reflexivity.
      * exfalso. exact (Qlt_not_le _ _ Hlt H).
      * exfalso. exact (Qlt_not_le _ _ H Hle).
    + intros E. rewrite E in Hs. discriminate Hs.
    + intros [E|E]; rewrite E in Hs; discriminate Hs.
  - destruct (normalize_nonfinite gd tm fb Hs Hcomb) as [Hkeep [Hinf Hraise]].
    destruct (dict_get gd "total_score" (VInt 0)) as [| | | |[|]| | | |] eqn:E;
      try discriminate Hs;
      try (rewrite Hraise by (try (intros neg); discriminate);
           eexists; split; [reflexivity|];
           split; [intros s' Hs'; discriminate Hs'|];
           split; [intros H; discriminate H | intros [H|H]; discriminate H]).
    + destruct (Hkeep (or_intror eq_refl)) as [r [Hr Hsc]].
      rewrite Hr. exists r. split; [reflexivity|].
      split; [intros s' Hs'; discriminate Hs'|].
      split; [intros H; discriminate H | intros _; exact Hsc].
    + destruct (Hinf eq_refl) as [r [Hr Hsc]].
      rewrite Hr. exists r. split; [reflexivity|].
      split; [intros s' Hs'; discriminate Hs'|].
      split; [intros _; exact Hsc | intros [H|H]; discriminate H].
    + destruct (Hkeep (or_introl eq_refl)) as [r [Hr Hsc]].
      rewrite Hr. exists r. split; [reflexivity|].
      split; [intros s' Hs'; discriminate Hs'|].
      split; [intros H; discriminate H | intros _; exact Hsc].
Qed.

(** C1 (as amended). The normaliser clamps the awarded score from above
    only. For every response (and [total_marks >= 0]) it returns a record.
    Either the record's score is a number in [0, total_marks]; or the
    response parsed to a structure and the record keeps the score that
    structure reports, which is then a negative number, [-inf] or [nan].
    For a parsed structure whose feedback can be combined the score of the
    record is [min(reported, total_marks)] read exactly: a reported number
    above [total_marks] (and [inf]) is replaced by [total_marks], and every
    other reported number (and [-inf] and [nan]) is kept as reported. The
    score of the fallback text-parsing path lies in [0, total_marks]. *)
Theorem awarded_score_clamped_from_above :
  forall (response : string) (tm : Z),
    (0 <= tm)%Z ->
    (exists r,
        _parse_grading_response response tm = Return r /\
        ((exists c, as_number (total_score r) = Some c /\
                    (0 <= c)%Q /\ (c <= inject_Z tm)%Q) \/
         (exists start gd,
             find "{" (strip response) = Some start /\
             parse_or_repair (json_region (strip response) start)
               = Return (VDict gd) /\
             total_score r = dict_get gd "total_score" (VInt 0) /\
             (total_score r = VNaN \/ total_score r = VInf true \/
              exists c, as_number (total_score r) = Some c /\ (c < 0)%Q)))) /\
    (forall (start : nat) (gd : dict) (fb : string),
        find "{" (strip response) = Some start ->
        parse_or_repair (json_region (strip response) start) = Return (VDict gd) ->
        _combine_feedback gd = Return fb ->
        exists r,
          _parse_grading_response response tm = Return r /\
          (forall s,
              as_number (dict_get gd "total_score" (VInt 0)) = Some s ->
              ((inject_Z tm < s)%Q -> total_score r = VInt tm) /\
              ((s <= inject_Z tm)%Q ->
               total_score r = dict_get gd "total_score" (VInt 0))) /\
          (dict_get gd "total_score" (VInt 0) = VInf false ->
           total_score r = VInt tm) /\
          (dict_get gd "total_score" (VInt 0) = VNaN \/
           dict_get gd "total_score" (VInt 0) = VInf true ->
           total_score r = dict_get gd "total_score" (VInt 0))) /\
    (exists r c,
        _fallback_text_parsing response tm = Return r /\
        as_number (total_score r) = Some c /\
        (0 <= c)%Q /\ (c <= inject_Z tm)%Q).
Proof.
  intros response tm Htm.
  pose proof (fallback_score_range response tm Htm) as Hfb.
  split; [|split; [|exact Hfb]]; [|exact (clamp_from_above_exact response tm)].
  set (bounded := fun r : GradingResult =>
         exists c, as_number (total_score r) = Some c /\
                   (0 <= c)%Q /\ (c <= inject_Z tm)%Q).
  assert (Herr : forall msg, bounded (_create_error_result msg)).
  { intros msg. destruct (error_record_score msg tm Htm) as [Hc [H0 Hle]].
    exists 0%Q. repeat split; assumption. }
  assert (Hclamped : bounded
            {| total_score := VInt tm; percentage := VNone; feedback := EmptyString;
               criteria_scores := VNone; criteria_explanations := None;
               questions := VNone; strengths := VNone;
               areas_for_improvement := VNone; grade_justification := VNone |}).
  { exists (inject_Z tm). split; [reflexivity|].
    split; [apply inject_Z_nonneg; exact Htm | apply Qle_refl]. }
  destruct (find "{" (strip response)) as [start|] eqn:Hfind.
  - destruct (parse_or_repair_outcome (json_region (strip response) start))
      as [[v Hv]|Hraise].
    + assert (Hnodict :
                (forall gd, v <> VDict gd) ->
                exists r, _parse_grading_response response tm = Return r /\
                          bounded r).
      { intros Hno. unfold _parse_grading_response, parse_body.
        rewrite Hfind, Hv. cbn [bind].
        destruct v; try (eexists; split; [reflexivity | apply Herr]).
        exfalso. exact (Hno d eq_refl). }
      destruct v as [| | | | | | | |gd];
        try (destruct Hnodict as [r [Hr Hb]];
             [intros gd; discriminate | exists r; split; [exact Hr | left; exact Hb]]).
      rewrite (parse_response_of_structure response tm start gd Hfind Hv).
      destruct (combine_feedback_outcome gd) as [[fb Hcomb]|Hcomb].
      * destruct (as_number (dict_get gd "total_score" (VInt 0))) as [s|] eqn:Hs.
        -- destruct (normalize_returns gd tm s fb Hs Hcomb)
             as [r [score [c [Hr [Hmin [Hc [Hscore _]]]]]]].
           rewrite Hr. exists r. split; [reflexivity|].
           destruct (py_min_number _ tm _ Hs) as [v [Hv' Hcases]].
           rewrite Hmin in Hv'. inversion Hv'; subst v. clear Hv'.
           destruct Hcases as [[Hlt Hval]|[Hle Hval]].
           ++ left. exists (inject_Z tm). rewrite Hscore, Hval.
              split; [reflexivity|].
              split; [apply inject_Z_nonneg; exact Htm | apply Qle_refl].
           ++ destruct (Qlt_le_dec s 0) as [Hneg|Hpos].
              ** right. exists start, gd. rewrite Hscore, Hval.
                 split; [reflexivity|]. split; [exact Hv|]. split; [reflexivity|].
                 right. right. exists s. split; assumption.
              ** left. exists s. rewrite Hscore, Hval.
                 split; [exact Hs|]. split; assumption.
        -- destruct (normalize_nonfinite gd tm fb Hs Hcomb) as [Hkeep [Hinf Hraise]].
           destruct (dict_get gd "total_score" (VInt 0)) as [| | | |[|]| | | |] eqn:E;
             try (rewrite Hraise by (try (intros neg); discriminate);
                  eexists; split; [reflexivity | left; apply Herr]).
           ++ destruct (Hkeep (or_intror eq_refl)) as [r [Hr Hsc]].
              rewrite Hr. exists r. split; [reflexivity|].
              right. exists start, gd. rewrite E, Hsc.
              split; [reflexivity|]. split; [exact Hv|]. split; [reflexivity|].
              right. left. reflexivity.
           ++ destruct (Hinf eq_refl) as [r [Hr Hsc]].
              rewrite Hr. exists r. split; [reflexivity|].
              left. destruct Hclamped as [c Hc]. exists c. rewrite Hsc. exact Hc.
           ++ destruct (Hkeep (or_introl eq_refl)) as [r [Hr Hsc]].
              rewrite Hr. exists r. split; [reflexivity|].
              right. exists start, gd. rewrite E, Hsc.
              split; [reflexivity|]. split; [exact Hv|]. split; [reflexivity|].
              left. reflexivity.
      * assert (Hr : normalize gd tm = Raise TypeError).
        { destruct (normalize_outcome gd tm) as [[r Hr]|Hr]; [|exact Hr].
          exfalso. unfold normalize in Hr.
          destruct (py_min (dict_get gd "total_score" (VInt 0)) tm);
            cbn [bind] in Hr; [rewrite Hcomb in Hr|]; discriminate. }
        rewrite Hr. eexists. split; [reflexivity | left; apply Herr].
    + destruct Hfb as [r [c [Hr [Hc [H0 Hle]]]]].
      exists r. split.
      * unfold _parse_grading_response, parse_body.
        rewrite Hfind, Hraise. cbn [bind]. exact Hr.
      * left. exists c. repeat split; assumption.
  - unfold _parse_grading_response, parse_body. rewrite Hfind.
    eexists. split; [reflexivity | left; apply Herr].
Qed.

(** C9. In a record normalised from a parsed structure [gd] the awarded
    score [c] is the reported score clamped at [total_marks]; when [c] is
    positive the percentage is [c / total_marks * 100], and when [c] is
    zero or less it is the percentage of the payload (0 when absent). *)
Theorem percentage_recomputed_when_positive :
  forall (response : string) (tm : Z) (start : nat) (gd : dict) (s : Q)
         (fb : string),
    find "{" (strip response) = Some start ->
    parse_or_repair (json_region (strip response) start) = Return (VDict gd) ->
    as_number (dict_get gd "total_score" (VInt 0)) = Some s ->
    _combine_feedback gd = Return fb ->
    exists r c,
      _parse_grading_response response tm = Return r /\
      normalize gd tm = Return r /\
      as_number (total_score r) = Some c /\
      (c == Qmin s (inject_Z tm))%Q /\
      ((0 < c)%Q -> percentage r = VFloat (c / inject_Z tm * 100)%Q) /\
      ((c <= 0)%Q -> percentage r = dict_get gd "percentage" (VInt 0)).
Proof.
  intros response tm start gd s fb Hfind Hparse Hs Hfb.
  destruct (normalize_returns gd tm s fb Hs Hfb)
    as [r [score [c [Hr [Hmin [Hc [Hscore [_ Hpct]]]]]]]].
  destruct (py_min_value _ tm _ Hs) as [v [c' [Hv [Hc' [Hmin' _]]]]].
  rewrite Hmin in Hv. inversion Hv; subst v. clear Hv.
  rewrite Hc in Hc'. inversion Hc'; subst c'. clear Hc'.
  exists r, c. rewrite Hscore.
  split; [rewrite (parse_response_of_structure response tm start gd Hfind Hparse), Hr;
          reflexivity|].
  split; [exact Hr|]. split; [exact Hc|]. split; [exact Hmin'|].
  rewrite Hpct. split.
  - intros Hpos. apply Qlt_bool_iff in Hpos. rewrite Hpos. reflexivity.
  - intros Hle. apply Qlt_bool_false_iff in Hle. rewrite Hle. reflexivity.
Qed.

End NormaliserClaims.

(** The counterexample to C1 as stated: a payload reporting a score of -5
    out of 100 is parsed, and the record keeps the score -5. *)
Lemma negative_score_is_not_clamped :
  exists r,
    GradingService._parse_grading_response (interp := quiet)
      ("{" ++ quoted "total_score" ++ ": -5}") 100 = Return r /\
    GradingService.total_score r = VInt (-5) /\
    (GradingService.number_of (GradingService.total_score r) < 0)%Q.
Proof.
  eexists. split; [vm_compute; reflexivity|]. split; reflexivity.
Qed.

(** C1 at concrete inputs: a payload reporting 150 out of 100 is clamped to
    100, one reporting 70 keeps its 70, and the fallback scan of
    "marks: 150" stays within [0, 100]. *)
Lemma awarded_score_clamped_from_above_witness :
  let over := ("{" ++ quoted "total_score" ++ ": 150}")%string in
  let under := ("{" ++ quoted "total_score" ++ ": 70}")%string in
  (0 <= 100)%Z /\
  (exists r,
      GradingService._parse_grading_response (interp := quiet) over 100 = Return r /\
      GradingService.total_score r = VInt 100) /\
  (exists r,
      GradingService._parse_grading_response (interp := quiet) under 100 = Return r /\
      GradingService.total_score r = VInt 70) /\
  exists rf c,
    GradingService._fallback_text_parsing "marks: 150" 100 = Return rf /\
    as_number (GradingService.total_score rf) = Some c /\
    (0 <= c)%Q /\ (c <= inject_Z 100)%Q.
Proof.
  intros over under.
  assert (Htm : (0 <= 100)%Z) by lia.
  split; [exact Htm|].
  destruct (awarded_score_clamped_from_above (I := quiet) over 100 Htm)
    as [_ [Hover _]].
  destruct (awarded_score_clamped_from_above (I := quiet) under 100 Htm)
    as [_ [Hunder _]].
  destruct (awarded_score_clamped_from_above (I := quiet) "marks: 150" 100 Htm)
    as [_ [_ Hfb]].
  assert (Hp1 : GradingService.parse_or_repair
                  (GradingService.json_region (strip over) 0)
                = Return (VDict [("total_score", VInt 150)]))
    by (vm_compute; reflexivity).
  assert (Hp2 : GradingService.parse_or_repair
                  (GradingService.json_region (strip under) 0)
                = Return (VDict [("total_score", VInt 70)]))
    by (vm_compute; reflexivity).
  destruct (Hover 0 [("total_score", VInt 150)] EmptyString eq_refl Hp1 eq_refl)
    as [r1 [Hr1 [Hnum1 _]]].
  destruct (Hunder 0 [("total_score", VInt 70)] EmptyString eq_refl Hp2 eq_refl)
    as [r2 [Hr2 [Hnum2 _]]].
  split; [|split; [|exact Hfb]].
  - exists r1. split; [exact Hr1|].
    apply (proj1 (Hnum1 (inject_Z 150) eq_refl)). reflexivity.
  - exists r2. split; [exact Hr2|].
    apply (proj2 (Hnum2 (inject_Z 70) eq_refl)). intros H. discriminate H.
Defined.

(** C9 at a concrete input: 5 out of 10 with a reported percentage of 80
    gives the recomputed percentage 5 / 10 * 100. *)
Lemma percentage_recomputed_when_positive_witness :
  let response := ("{" ++ quoted "total_score" ++ ": 5, "
                       ++ quoted "percentage" ++ ": 80}")%string in
  let gd := [("total_score", VInt 5); ("percentage", VInt 80)] in
  find "{" (strip response) = Some 0 /\
  GradingService.parse_or_repair
    (GradingService.json_region (strip response) 0) = Return (VDict gd) /\
  as_number (dict_get gd "total_score" (VInt 0)) = Some (inject_Z 5) /\
  GradingService._combine_feedback (interp := quiet) gd = Return EmptyString /\
  exists r c,
    GradingService._parse_grading_response (interp := quiet) response 10 = Return r /\
    as_number (GradingService.total_score r) = Some c /\
    (c == 5)%Q /\
    GradingService.percentage r = VFloat (c / inject_Z 10 * 100)%Q.
Proof.
  intros response gd.
  assert (Hfind : find "{" (strip response) = Some 0) by reflexivity.
  assert (Hparse : GradingService.parse_or_repair
                     (GradingService.json_region (strip response) 0)
                   = Return (VDict gd)) by (vm_compute; reflexivity).
  assert (Hs : as_number (dict_get gd "total_score" (VInt 0)) = Some (inject_Z 5))
    by reflexivity.
  assert (Hfb : GradingService._combine_feedback (interp := quiet) gd
                = Return EmptyString) by reflexivity.
  split; [exact Hfind|]. split; [exact Hparse|]. split; [exact Hs|].
  split; [exact Hfb|].
  destruct (percentage_recomputed_when_positive (I := quiet)
              response 10 0 gd (inject_Z 5) EmptyString Hfind Hparse Hs Hfb)
    as [r [c [Hr [_ [Hc [Hmin [Hpos _]]]]]]].
  exists r, c. split; [exact Hr|]. split; [exact Hc|].
  assert (H5 : (c == 5)%Q) by (rewrite Hmin; reflexivity).
  split; [exact H5|].
  apply Hpos. rewrite H5. reflexivity.
Defined.

(** ** Repair of a truncated object *)

Lemma count_zero_cons (c a : ascii) (r : string) :
  count c (String a r) = 0 -> Ascii.eqb a c = false /\ count c r = 0.
Proof.
  cbn [count]. destruct (Ascii.eqb a c); [intros H; discriminate H|].
  intros H. split; [reflexivity | exact H].
Qed.

Lemma rfind_absent (c : ascii) (s : string) : count c s = 0 -> rfind c s = None.
Proof.
  induction s as [|a r IH]; [reflexivity|].
  intros H. apply count_zero_cons in H. destruct H as [Ha Hr].
  cbn [rfind]. rewrite (IH Hr), Ha. reflexivity.
Qed.

Lemma append_empty_r (s : string) : (s ++ EmptyString)%string = s.
Proof.
  induction s as [|a r IH]; [reflexivity|]. cbn [append]. rewrite IH. reflexivity.
Qed.

(** A text without braces or brackets leaves the stack as it is. *)
Lemma balance_without_brackets (body : string) (stack : list ascii) :
  count "{" body = 0 -> count "}" body = 0 ->
  count "[" body = 0 -> count "]" body = 0 ->
  GradingService.balance body stack = stack.
Proof.
  induction body as [|a r IH]; [reflexivity|].
  intros H1 H2 H3 H4.
  apply count_zero_cons in H1, H2, H3, H4.
  destruct H1 as [A1 R1], H2 as [A2 R2], H3 as [A3 R3], H4 as [A4 R4].
  cbn [GradingService.balance].
  unfold GradingService.is_opener, GradingService.is_closer.
  rewrite A1, A2, A3, A4. cbn [orb].
  exact (IH R1 R2 R3 R4).
Qed.


(** ** The scan finds the pattern *)

Section Pattern.
Import GradingService.

Lemma append_assoc_s (a b c : string) :
  ((a ++ b) ++ c)%string = (a ++ b ++ c)%string.
Proof.
  induction a as [|x a IH]; [reflexivity|]. cbn [append]. rewrite IH. reflexivity.
Qed.

Lemma span_digits_split (s ds rest : string) :
  span_digits s = (ds, rest) ->
  s = (ds ++ rest)%string /\ all_digits ds /\ starts_with_digit rest = false.
Proof.
  revert ds rest. induction s as [|c r IH]; intros ds rest; cbn [span_digits].
  - intros H. inversion H; subst. repeat split.
  - destruct (isdigit c) eqn:Ec.
    + destruct (span_digits r) as [ds' rest'] eqn:E.
      intros H. inversion H; subst.
      destruct (IH _ _ eq_refl) as [Hs [Hd Hn]].
      cbn [append all_digits]. rewrite <- Hs. repeat split; assumption.
    + intros H. inversion H; subst. cbn [append all_digits starts_with_digit].
      repeat split. exact Ec.
Qed.

Lemma span_digits_join (ds rest : string) :
  all_digits ds -> starts_with_digit rest = false ->
  span_digits (ds ++ rest) = (ds, rest).
Proof.
  intros Hd Hn. induction ds as [|c ds IH]; cbn [append].
  - destruct rest as [|x rest]; [reflexivity|].
    cbn [span_digits]. cbn [starts_with_digit] in Hn. rewrite Hn. reflexivity.
  - destruct Hd as [Hc Hds]. cbn [span_digits]. rewrite Hc, (IH Hds). reflexivity.
Qed.

Lemma skip_seps_split (s : string) :
  exists seps, s = (seps ++ skip_seps s)%string /\ all_seps seps.
Proof.
  induction s as [|c r [seps [Hs Ha]]]; cbn [skip_seps].
  - exists EmptyString. split; [reflexivity | exact I].
  - destruct (is_sep c) eqn:Ec.
    + exists (String c seps). cbn [append all_seps]. rewrite <- Hs. repeat split; assumption.
    + exists EmptyString. split; [reflexivity | exact I].
Qed.

Lemma digit_not_sep (c : ascii) : isdigit c = true -> is_sep c = false.
Proof.
  destruct c as [[|] [|] [|] [|] [|] [|] [|] [|]]; vm_compute; congruence.
Qed.

Lemma skip_seps_join (seps rest : string) :
  all_seps seps -> starts_with_digit rest = true ->
  skip_seps (seps ++ rest) = rest.
Proof.
  intros Ha Hd. induction seps as [|c seps IH]; cbn [append].
  - destruct rest as [|x rest]; [discriminate|].
    cbn [skip_seps]. cbn [starts_with_digit] in Hd.
    rewrite (digit_not_sep x Hd). reflexivity.
  - destruct Ha as [Hc Hs]. cbn [skip_seps]. rewrite Hc. exact (IH Hs).
Qed.

Lemma skip_prefix_nocase_split (p s r : string) :
  skip_prefix_nocase p s = Some r ->
  exists kw, s = (kw ++ r)%string /\ lower_string kw = p.
Proof.
  revert s. induction p as [|a p IH]; intros s; cbn [skip_prefix_nocase].
  - intros H. inversion H; subst. exists EmptyString. split; reflexivity.
  - destruct s as [|b s']; [discriminate|].
    destruct (Ascii.eqb a (lower b)) eqn:E; [|discriminate].
    intros H. destruct (IH _ H) as [kw [Hs Hl]].
    apply Ascii.eqb_eq in E.
    exists (String b kw). cbn [append lower_string]. rewrite <- Hs, Hl, E.
    split; reflexivity.
Qed.

Lemma skip_prefix_nocase_join (kw r : string) :
  skip_prefix_nocase (lower_string kw) (kw ++ r) = Some r.
Proof.
  induction kw as [|c kw IH]; [reflexivity|].
  cbn [lower_string append skip_prefix_nocase].
  rewrite Ascii.eqb_refl. exact IH.
Qed.

Lemma all_digits_nonempty_starts (g tail : string) :
  g <> EmptyString -> all_digits g -> starts_with_digit (g ++ tail) = true.
Proof.
  destruct g as [|c g]; [congruence|].
  intros _ [Hc _]. exact Hc.
Qed.

(** The number part of the pattern, in both directions. *)
Lemma match_number_sound (s g1 : string) (g2 : option string) :
  match_number s = Some (g1, g2) ->
  exists seps tail,
    s = (seps ++ g1 ++ tail)%string /\ all_seps seps /\
    g1 <> EmptyString /\ all_digits g1 /\ starts_with_digit tail = false /\
    denominator_at tail g2.
Proof.
  unfold match_number. destruct (skip_seps_split s) as [seps [Hs Ha]].
  destruct (span_digits (skip_seps s)) as [ds rest] eqn:E1.
  destruct (span_digits_split _ _ _ E1) as [Hsplit [Hd Hn]].
  destruct ds as [|c ds']; [discriminate|].
  assert (Hne : String c ds' <> EmptyString) by discriminate.
  intros Hm. exists seps, rest.
  assert (Hg1 : g1 = String c ds').
  { destruct rest as [|c1 r]; [inversion Hm; reflexivity|].
    destruct (Ascii.eqb c1 "/"); [|inversion Hm; reflexivity].
    destruct (span_digits r) as [[|c2 ds2] rest2]; inversion Hm; reflexivity. }
  subst g1. rewrite <- Hsplit.
  split; [exact Hs|]. split; [exact Ha|]. split; [exact Hne|].
  split; [exact Hd|]. split; [exact Hn|].
  destruct rest as [|c1 r].
  - inversion Hm; subst. exact I.
  - destruct (Ascii.eqb c1 "/") eqn:Ec1.
    + destruct (span_digits r) as [ds2 rest2] eqn:E2.
      destruct (span_digits_split _ _ _ E2) as [Hsplit2 [Hd2 Hn2]].
      destruct ds2 as [|c2 ds2'].
      * inversion Hm; subst. cbn [denominator_at]. intros _.
        cbn [append] in Hn2. exact Hn2.
      * inversion Hm; subst. cbn [denominator_at].
        exists rest2. apply Ascii.eqb_eq in Ec1. subst c1.
        split; [reflexivity|]. split; [discriminate|]. split; assumption.
    + inversion Hm; subst. cbn [denominator_at]. rewrite Ec1. discriminate.
Qed.

Lemma match_number_complete (seps g1 tail : string) (g2 : option string) :
  all_seps seps -> g1 <> EmptyString -> all_digits g1 ->
  starts_with_digit tail = false -> denominator_at tail g2 ->
  match_number (seps ++ g1 ++ tail) = Some (g1, g2).
Proof.
  intros Ha Hne Hd Hn Hden. unfold match_number.
  rewrite (skip_seps_join seps (g1 ++ tail) Ha (all_digits_nonempty_starts g1 tail Hne Hd)).
  rewrite (span_digits_join g1 tail Hd Hn).
  destruct g1 as [|c g1']; [congruence|].
  destruct g2 as [d|]; cbn [denominator_at] in Hden.
  - destruct Hden as [tail' [-> [Hdne [Hdd Hdn]]]].
    change (Ascii.eqb "/" "/") with true. cbv iota.
    rewrite (span_digits_join d tail' Hdd Hdn).
    destruct d as [|c2 d']; [congruence | reflexivity].
  - destruct tail as [|c1 r]; [reflexivity|].
    destruct (Ascii.eqb c1 "/") eqn:Ec1; [|reflexivity].
    specialize (Hden eq_refl).
    destruct r as [|c2 r']; [reflexivity|].
    cbn [span_digits]. cbn [starts_with_digit] in Hden. rewrite Hden. reflexivity.
Qed.

Lemma lower_string_cons (kw : string) (p0 : ascii) (p : string) :
  lower_string kw = String p0 p ->
  exists c kw', kw = String c kw' /\ lower c = p0 /\ lower_string kw' = p.
Proof.
  destruct kw as [|c kw']; cbn [lower_string]; [discriminate|].
  intros H. inversion H; subst. exists c, kw'. repeat split.
Qed.

Lemma lower_string_nil (kw : string) : lower_string kw = EmptyString -> kw = EmptyString.
Proof. destruct kw; [reflexivity | discriminate]. Qed.

Lemma sep_or_digit_not_s (c : ascii) :
  is_sep c = true \/ isdigit c = true -> Ascii.eqb "s" (lower c) = false.
Proof.
  destruct c as [[|] [|] [|] [|] [|] [|] [|] [|]]; vm_compute;
    intros [H|H]; congruence.
Qed.

(** After the keyword comes a separator or a digit, never an [s]. *)
Lemma number_does_not_start_with_s (seps g1 tail : string) :
  all_seps seps -> g1 <> EmptyString -> all_digits g1 ->
  skip_prefix_nocase "s" (seps ++ g1 ++ tail) = None.
Proof.
  intros Ha Hne Hd. cbn [skip_prefix_nocase].
  destruct seps as [|c seps]; cbn [append].
  - destruct g1 as [|c g1]; [congruence|]. cbn [append].
    destruct Hd as [Hc _]. rewrite (sep_or_digit_not_s c (or_intror Hc)). reflexivity.
  - destruct Ha as [Hc _]. rewrite (sep_or_digit_not_s c (or_introl Hc)). reflexivity.
Qed.

Lemma match_here_sound (s g1 : string) (g2 : option string) :
  match_here s = Some (g1, g2) -> pattern_at s g1 g2.
Proof.
  assert (Hkw : forall p r,
             skip_prefix_nocase p s = Some r ->
             (p = "score" \/ p = "mark" \/ p = "marks") ->
             match_number r = Some (g1, g2) -> pattern_at s g1 g2).
  { intros p r Hs Hp Hm.
    destruct (skip_prefix_nocase_split _ _ _ Hs) as [kw [Hsplit Hl]].
    destruct (match_number_sound _ _ _ Hm)
      as [seps [tail [Hr [Ha [Hne [Hd [Hn Hden]]]]]]].
    exists kw, seps, tail. rewrite Hsplit, Hr.
    split; [reflexivity|]. split; [unfold is_keyword; rewrite Hl; exact Hp|].
    repeat split; assumption. }
  unfold match_here, or_else.
  destruct (skip_prefix_nocase "score" s) as [r|] eqn:Es.
  - destruct (match_number r) as [[a b]|] eqn:E.
    + intros Hm. inversion Hm; subst. apply (Hkw "score" r Es); [tauto | exact E].
    + destruct (skip_prefix_nocase "mark" s) as [r1|] eqn:Em; [|discriminate].
      exfalso.
      destruct s as [|c s']; [discriminate|].
      cbn [skip_prefix_nocase] in Es, Em.
      destruct (Ascii.eqb "s" (lower c)) eqn:E1; [|discriminate].
      destruct (Ascii.eqb "m" (lower c)) eqn:E2; [|discriminate].
      apply Ascii.eqb_eq in E1, E2. congruence.
  - destruct (skip_prefix_nocase "mark" s) as [r1|] eqn:Em; [|discriminate].
    destruct (skip_prefix_nocase "s" r1) as [r2|] eqn:E2.
    + destruct (match_number r2) as [[a b]|] eqn:E3.
      * intros Hm. inversion Hm; subst.
        apply (Hkw "marks" r2); [|tauto | exact E3].
        destruct (skip_prefix_nocase_split _ _ _ Em) as [kw1 [Hs1 Hl1]].
        destruct (skip_prefix_nocase_split _ _ _ E2) as [kw2 [Hs2 Hl2]].
        rewrite Hs1, Hs2, <- append_assoc_s.
        replace "marks" with (lower_string (kw1 ++ kw2)).
        -- apply skip_prefix_nocase_join.
        -- clear - Hl1 Hl2. revert Hl1.
           change "marks" with ("mark" ++ "s")%string. rewrite <- Hl2.
           generalize "mark". induction kw1 as [|c kw1 IH]; intros p Hp.
           ++ cbn [lower_string] in Hp. subst p. reflexivity.
           ++ cbn [lower_string append] in *. destruct p as [|p0 p]; [discriminate|].
              inversion Hp; subst. cbn [append]. f_equal. apply IH. reflexivity.
      * intros Hm. apply (Hkw "mark" r1 Em); [tauto | exact Hm].
    + intros Hm. apply (Hkw "mark" r1 Em); [tauto | exact Hm].
Qed.

Lemma match_here_complete (s g1 : string) (g2 : option string) :
  pattern_at s g1 g2 -> match_here s = Some (g1, g2).
Proof.
  intros [kw [seps [tail [Hs [Hkw [Ha [Hne [Hd [Hn Hden]]]]]]]]].
  pose proof (match_number_complete seps g1 tail g2 Ha Hne Hd Hn Hden) as Hnum.
  pose proof (number_does_not_start_with_s seps g1 tail Ha Hne Hd) as Hnos.
  unfold match_here, or_else. subst s.
  destruct Hkw as [Hl|[Hl|Hl]].
  - pose proof (skip_prefix_nocase_join kw (seps ++ g1 ++ tail)) as Hj.
    rewrite Hl in Hj. rewrite Hj. cbv beta iota. rewrite Hnum. reflexivity.
  - pose proof (skip_prefix_nocase_join kw (seps ++ g1 ++ tail)) as Hj.
    rewrite Hl in Hj. rewrite Hj. cbv beta iota. rewrite Hnos. cbv beta iota.
    rewrite Hnum.
    destruct (lower_string_cons _ _ _ Hl) as [c [kw' [-> [Hc _]]]].
    cbn [append skip_prefix_nocase]. rewrite Hc.
    change (Ascii.eqb "s" "m") with false. reflexivity.
  - destruct (lower_string_cons _ _ _ Hl) as [c1 [k1 [-> [H1 Hl1]]]].
    destruct (lower_string_cons _ _ _ Hl1) as [c2 [k2 [-> [H2 Hl2]]]].
    destruct (lower_string_cons _ _ _ Hl2) as [c3 [k3 [-> [H3 Hl3]]]].
    destruct (lower_string_cons _ _ _ Hl3) as [c4 [k4 [-> [H4 Hl4]]]].
    destruct (lower_string_cons _ _ _ Hl4) as [c5 [k5 [-> [H5 Hl5]]]].
    apply lower_string_nil in Hl5. subst k5.
    cbn [append skip_prefix_nocase].
    rewrite H1, H2, H3, H4.
    change (Ascii.eqb "s" "m") with false.
    change (Ascii.eqb "m" "m") with true. change (Ascii.eqb "a" "a") with true.
    change (Ascii.eqb "r" "r") with true. change (Ascii.eqb "k" "k") with true.
    cbv iota. rewrite H5. change (Ascii.eqb "s" "s") with true. cbv iota.
    rewrite Hnum. reflexivity.
Qed.

(** The scan returns the groups of the first position of the text at which
    the pattern matches, and nothing when it matches nowhere. *)
Lemma score_search_first_match (s g1 : string) (g2 : option string) :
  score_search s = Some (g1, g2) <->
  exists pre rest,
    s = (pre ++ rest)%string /\ pattern_at rest g1 g2 /\
    (forall pre' rest' a b,
        s = (pre' ++ rest')%string -> String.length pre' < String.length pre ->
        ~ pattern_at rest' a b).
Proof.
  split.
  - revert g1 g2. induction s as [|c r IH]; intros g1 g2; cbn [score_search].
    + destruct (match_here EmptyString) as [m|] eqn:E; [|discriminate].
      intros Hm. inversion Hm; subst.
      exists EmptyString, EmptyString. split; [reflexivity|].
      split; [apply match_here_sound; exact E|].
      intros pre' rest' a b _ Hlen. cbn [String.length] in Hlen. lia.
    + destruct (match_here (String c r)) as [m|] eqn:E.
      * intros Hm. inversion Hm; subst.
        exists EmptyString, (String c r). split; [reflexivity|].
        split; [apply match_here_sound; exact E|].
        intros pre' rest' a b _ Hlen. cbn [String.length] in Hlen. lia.
      * intros Hm. destruct (IH _ _ Hm) as [pre [rest [Hs [Hp Hfirst]]]].
        exists (String c pre), rest. cbn [append]. rewrite <- Hs.
        split; [reflexivity|]. split; [exact Hp|].
        intros pre' rest' a b Hs' Hlen Hpat.
        destruct pre' as [|c' pre''].
        -- cbn [append] in Hs'. subst rest'.
           apply match_here_complete in Hpat. congruence.
        -- cbn [append] in Hs'. injection Hs' as _ Hr.
           cbn [String.length] in Hlen.
           apply (Hfirst pre'' rest' a b Hr); [lia | exact Hpat].
  - intros [pre [rest [Hs [Hp Hfirst]]]]. subst s.
    induction pre as [|c pre IH]; cbn [append].
    + apply match_here_complete in Hp.
      destruct rest; cbn [score_search]; rewrite Hp; reflexivity.
    + cbn [score_search].
      destruct (match_here (String c (pre ++ rest))) as [[a b]|] eqn:E.
      * exfalso. apply match_here_sound in E.
        apply (Hfirst EmptyString (String c (pre ++ rest)) a b eq_refl);
          [cbn [String.length]; lia | exact E].
      * apply IH. intros pre' rest' a b Hs' Hlen.
        apply (Hfirst (String c pre') rest' a b).
        -- cbn [append]. rewrite Hs'. reflexivity.
        -- cbn [String.length]. lia.
Qed.

Lemma score_search_no_match (s : string) :
  score_search s = None <->
  forall pre rest a b, s = (pre ++ rest)%string -> ~ pattern_at rest a b.
Proof.
  split.
  - intros Hn pre rest a b Hs Hpat.
    assert (Hex : exists g1 g2, score_search s = Some (g1, g2)).
    { subst s. clear Hn. induction pre as [|c pre IH]; cbn [append].
      - apply match_here_complete in Hpat.
        exists a, b. destruct rest; cbn [score_search]; rewrite Hpat; reflexivity.
      - cbn [score_search].
        destruct (match_here (String c (pre ++ rest))) as [[x y]|];
          [exists x, y; reflexivity | exact IH]. }
    destruct Hex as [g1 [g2 Hsome]]. congruence.
  - intros Hall. destruct (score_search s) as [[g1 g2]|] eqn:E; [|reflexivity].
    exfalso. apply score_search_first_match in E.
    destruct E as [pre [rest [Hs [Hp _]]]]. exact (Hall pre rest g1 g2 Hs Hp).
Qed.

End Pattern.

(** ** Claims about the fallback scan *)

Lemma has_digit_skip_seps (s : string) :
  has_digit (GradingService.skip_seps s) = true -> has_digit s = true.
Proof.
  induction s as [|c r IH]; cbn [GradingService.skip_seps has_digit]; [auto|].
  destruct (GradingService.is_sep c); [|auto].
  intros Hr. rewrite (IH Hr). apply orb_true_r.
Qed.

Lemma has_digit_skip_prefix (p s r : string) :
  skip_prefix_nocase p s = Some r -> has_digit r = true -> has_digit s = true.
Proof.
  revert s. induction p as [|a p IH]; intros s; cbn [skip_prefix_nocase].
  - intros Hs. inversion Hs; subst. auto.
  - destruct s as [|b s']; [discriminate|].
    destruct (Ascii.eqb a (lower b)); [|discriminate].
    intros Hs Hr. cbn [has_digit]. rewrite (IH _ Hs Hr). apply orb_true_r.
Qed.

Lemma match_number_has_digit (s g1 : string) (g2 : option string) :
  GradingService.match_number s = Some (g1, g2) -> has_digit s = true.
Proof.
  unfold GradingService.match_number. intros Hm.
  apply has_digit_skip_seps.
  destruct (GradingService.skip_seps s) as [|c r]; cbn [span_digits] in Hm.
  - discriminate.
  - cbn [has_digit]. destruct (isdigit c); [reflexivity|discriminate].
Qed.

Lemma match_here_has_digit (s g1 : string) (g2 : option string) :
  GradingService.match_here s = Some (g1, g2) -> has_digit s = true.
Proof.
  unfold GradingService.match_here, GradingService.or_else.
  destruct (skip_prefix_nocase "score" s) as [r|] eqn:Es.
  - destruct (GradingService.match_number r) as [[a b]|] eqn:E.
    + intros _. exact (has_digit_skip_prefix _ _ _ Es (match_number_has_digit _ _ _ E)).
    + destruct (skip_prefix_nocase "mark" s) as [r1|] eqn:Em; [|discriminate].
      destruct (skip_prefix_nocase "s" r1) as [r2|] eqn:E2.
      * destruct (GradingService.match_number r2) as [[a b]|] eqn:E3.
        -- intros _. apply (has_digit_skip_prefix _ _ _ Em).
           exact (has_digit_skip_prefix _ _ _ E2 (match_number_has_digit _ _ _ E3)).
        -- intros Hm. exact (has_digit_skip_prefix _ _ _ Em (match_number_has_digit _ _ _ Hm)).
      * intros Hm. exact (has_digit_skip_prefix _ _ _ Em (match_number_has_digit _ _ _ Hm)).
  - destruct (skip_prefix_nocase "mark" s) as [r1|] eqn:Em; [|discriminate].
    destruct (skip_prefix_nocase "s" r1) as [r2|] eqn:E2.
    + destruct (GradingService.match_number r2) as [[a b]|] eqn:E3.
      * intros _. apply (has_digit_skip_prefix _ _ _ Em).
        exact (has_digit_skip_prefix _ _ _ E2 (match_number_has_digit _ _ _ E3)).
      * intros Hm. exact (has_digit_skip_prefix _ _ _ Em (match_number_has_digit _ _ _ Hm)).
    + intros Hm. exact (has_digit_skip_prefix _ _ _ Em (match_number_has_digit _ _ _ Hm)).
Qed.

(** A text in which the pattern matches holds a digit. *)
Lemma score_search_has_digit (s g1 : string) (g2 : option string) :
  GradingService.score_search s = Some (g1, g2) -> has_digit s = true.
Proof.
  induction s as [|c r IH]; cbn [GradingService.score_search].
  - destruct (GradingService.match_here EmptyString) as [[a b]|] eqn:E; [|discriminate].
    intros _. exact (match_here_has_digit _ _ _ E).
  - destruct (GradingService.match_here (String c r)) as [[a b]|] eqn:E.
    + intros _. exact (match_here_has_digit _ _ _ E).
    + intros Hr. cbn [has_digit]. rewrite (IH Hr). apply orb_true_r.
Qed.

Section FallbackClaims.
Import GradingService.

(** C10. The fallback text parser returns a record for every input. When
    the pattern matches with a denominator of zero (and [total_marks] is
    not itself zero, so that the score is rescaled), the division error is
    caught: the record is the error record, with score 0 and the fixed
    message as feedback, which is not the raw input text. *)
Theorem fallback_catches_zero_denominator :
  forall (response : string) (tm : Z),
    (exists r, _fallback_text_parsing response tm = Return r) /\
    (forall g1 d,
        score_search response = Some (g1, Some d) ->
        int_of_digits d = 0%Z ->
        tm <> 0%Z ->
        fallback_body response tm = Raise ZeroDivisionError /\
        exists r,
          _fallback_text_parsing response tm = Return r /\
          r = _create_error_result "Failed to parse grading response" /\
          total_score r = VInt 0 /\
          percentage r = VInt 0 /\
          feedback r = "Error during grading: Failed to parse grading response" /\
          feedback r <> response).
Proof.
  intros response tm. split; [exact (fallback_returns response tm)|].
  intros g1 d Hm Hd Htm.
  pose proof (fallback_body_zero_denominator response tm g1 (Some d) Hm Hd Htm) as Hb.
  split; [exact Hb|].
  exists (_create_error_result "Failed to parse grading response").
  unfold _fallback_text_parsing. rewrite Hb.
  repeat split.
  cbn [feedback _create_error_result]. intros Heq.
  pose proof (score_search_has_digit _ _ _ Hm) as Hdig.
  rewrite <- Heq in Hdig. vm_compute in Hdig. discriminate.
Qed.

Context {I : Interpreter}.

(** C6. When the strict parse of the candidate region and the parse of
    its repair both fail, the normaliser returns what the fallback scan
    of the raw text returns. The scan looks for the first place where the
    text reads [score], [mark] or [marks] (case ignored), then colons and
    white space, then a number [n], then optionally a slash and a number
    [d]. If it finds one with a denominator [d] that differs from
    [total_marks] (and is not zero), the score is [n] rescaled to
    [total_marks] and clamped: [min (n / d * total_marks) total_marks],
    which lies in [0, total_marks]. If it finds one without another
    denominator the score is [min n total_marks]. If the pattern matches
    nowhere, the record has score 0 and the raw text, unchanged, as
    feedback. *)
Theorem fallback_scan_of_raw_text :
  forall (response : string) (tm : Z),
    (forall start,
        find "{" (strip response) = Some start ->
        Json.loads (json_region (strip response) start) = Raise JSONDecodeError ->
        Json.loads (_repair_json (json_region (strip response) start))
          = Raise JSONDecodeError ->
        _parse_grading_response response tm = _fallback_text_parsing response tm) /\
    (forall g1 g2,
        score_search response = Some (g1, g2) <->
        exists pre rest,
          response = (pre ++ rest)%string /\ pattern_at rest g1 g2 /\
          (forall pre' rest' a b,
              response = (pre' ++ rest')%string ->
              String.length pre' < String.length pre -> ~ pattern_at rest' a b)) /\
    (forall g1 d,
        score_search response = Some (g1, Some d) ->
        int_of_digits d <> tm -> int_of_digits d <> 0%Z -> (0 <= tm)%Z ->
        exists r c,
          _fallback_text_parsing response tm = Return r /\
          as_number (total_score r) = Some c /\
          (c == Qmin (inject_Z (int_of_digits g1) / inject_Z (int_of_digits d)
                      * inject_Z tm) (inject_Z tm))%Q /\
          (0 <= c)%Q /\ (c <= inject_Z tm)%Q /\
          feedback r = response) /\
    (forall g1 g2,
        score_search response = Some (g1, g2) ->
        denominator g2 tm = tm ->
        exists r c,
          _fallback_text_parsing response tm = Return r /\
          as_number (total_score r) = Some c /\
          (c == Qmin (inject_Z (int_of_digits g1)) (inject_Z tm))%Q /\
          feedback r = response) /\
    ((forall pre rest a b, response = (pre ++ rest)%string -> ~ pattern_at rest a b) ->
        exists r,
          _fallback_text_parsing response tm = Return r /\
          total_score r = VInt 0 /\
          (number_of (percentage r) == 0)%Q /\
          feedback r = response).
Proof.
  intros response tm. split; [|split; [|split; [|split]]].
  - intros start Hfind H1 H2.
    unfold _parse_grading_response, parse_body. rewrite Hfind.
    unfold parse_or_repair. rewrite H1, H2. reflexivity.
  - intros g1 g2. apply score_search_first_match.
  - intros g1 d Hm Hne Hnz Htm.
    destruct (score_search_digits _ _ _ Hm) as [Hg1 Hg2].
    assert (Hd : denominator (Some d) tm = tm \/ denominator (Some d) tm <> 0%Z)
      by (right; exact Hnz).
    destruct (rescaled_number g1 (Some d) tm Hg1 Hg2 Htm Hd) as [q [Hq Hq0]].
    destruct (py_min_value _ tm _ Hq) as [v [c [Hv [Hc [Hmin [Hle Hge]]]]]].
    unfold _fallback_text_parsing.
    rewrite (fallback_body_match _ _ _ _ Hm Hd), Hv. cbn [bind].
    eexists. exists c. split; [reflexivity|].
    cbn [total_score feedback fallback_record].
    split; [exact Hc|]. split.
    + rewrite Hmin. unfold rescaled in Hq. cbn [denominator] in Hq.
      apply Z.eqb_neq in Hne. rewrite Hne in Hq.
      inversion Hq. reflexivity.
    + split; [exact (Hge Hq0 Htm)|]. split; [exact Hle | reflexivity].
  - intros g1 g2 Hm Heq.
    assert (Hq : as_number (rescaled g1 g2 tm) = Some (inject_Z (int_of_digits g1))).
    { unfold rescaled. rewrite Heq, Z.eqb_refl. reflexivity. }
    destruct (py_min_value _ tm _ Hq) as [v [c [Hv [Hc [Hmin _]]]]].
    unfold _fallback_text_parsing.
    rewrite (fallback_body_match _ _ _ _ Hm (or_introl Heq)), Hv. cbn [bind].
    eexists. exists c. split; [reflexivity|].
    cbn [total_score feedback fallback_record].
    split; [exact Hc|]. split; [exact Hmin | reflexivity].
  - intros Hnone. apply score_search_no_match in Hnone.
    unfold _fallback_text_parsing.
    rewrite (fallback_body_no_match _ tm Hnone).
    eexists. split; [reflexivity|].
    cbn [total_score feedback percentage fallback_record].
    split; [reflexivity|]. split; [|reflexivity].
    unfold fallback_percentage. destruct (0 <? tm)%Z eqn:E.
    + cbn [number_of as_number]. apply Z.ltb_lt in E.
      change (number_of (VInt 0)) with 0%Q.
      assert (Hz : ~ (inject_Z tm == 0)%Q).
      { intros H0. apply Qeq_bool_iff in H0. apply inject_Z_eq0 in H0. lia. }
      field. exact Hz.
    + reflexivity.
Qed.

End FallbackClaims.

(** C10 at the text "score: 5/0" with 10 marks. *)
Lemma fallback_catches_zero_denominator_witness :
  GradingService.score_search "score: 5/0" = Some ("5", Some "0") /\
  int_of_digits "0" = 0%Z /\
  10%Z <> 0%Z /\
  exists r,
    GradingService._fallback_text_parsing "score: 5/0" 10 = Return r /\
    GradingService.total_score r = VInt 0 /\
    GradingService.feedback r
      = "Error during grading: Failed to parse grading response" /\
    GradingService.feedback r <> "score: 5/0".
Proof.
  assert (Hm : GradingService.score_search "score: 5/0" = Some ("5", Some "0"))
    by reflexivity.
  assert (Hd : int_of_digits "0" = 0%Z) by reflexivity.
  assert (Htm : 10%Z <> 0%Z) by discriminate.
  split; [exact Hm|]. split; [exact Hd|]. split; [exact Htm|].
  destruct (proj2 (fallback_catches_zero_denominator "score: 5/0" 10)
              "5" "0" Hm Hd Htm)
    as [_ [r [Hr [_ [Hs [_ [Hf Hne]]]]]]].
  exists r. repeat split; assumption.
Defined.

(** C6 at a text with an opening brace that no repair makes parse:
    7/10 rescaled to 20 marks is 14. *)
Lemma fallback_scan_of_raw_text_witness :
  let response := "{ Score: 7/10" in
  (find "{" (strip response) = Some 0 /\
   Json.loads (GradingService.json_region (strip response) 0)
     = Raise JSONDecodeError /\
   Json.loads (GradingService._repair_json
                 (GradingService.json_region (strip response) 0))
     = Raise JSONDecodeError) /\
  GradingService.score_search response = Some ("7", Some "10") /\
  int_of_digits "10" <> 20%Z /\
  int_of_digits "10" <> 0%Z /\
  (0 <= 20)%Z /\
  GradingService._parse_grading_response (interp := quiet) response 20
    = GradingService._fallback_text_parsing response 20 /\
  exists r c,
    GradingService._fallback_text_parsing response 20 = Return r /\
    as_number (GradingService.total_score r) = Some c /\
    (c == 14)%Q /\
    GradingService.feedback r = response.
Proof.
  intros response.
  assert (Hfind : find "{" (strip response) = Some 0) by reflexivity.
  assert (H1 : Json.loads (GradingService.json_region (strip response) 0)
               = Raise JSONDecodeError) by (vm_compute; reflexivity).
  assert (H2 : Json.loads (GradingService._repair_json
                             (GradingService.json_region (strip response) 0))
               = Raise JSONDecodeError) by (vm_compute; reflexivity).
  assert (Hm : GradingService.score_search response = Some ("7", Some "10"))
    by reflexivity.
  assert (Hne : int_of_digits "10" <> 20%Z) by (vm_compute; discriminate).
  assert (Hnz : int_of_digits "10" <> 0%Z) by (vm_compute; discriminate).
  assert (Htm : (0 <= 20)%Z) by lia.
  pose proof (fallback_scan_of_raw_text (I := quiet) response 20)
    as [Hentry [_ [Hscale _]]].
  split; [repeat split; assumption|].
  split; [exact Hm|]. split; [exact Hne|]. split; [exact Hnz|]. split; [exact Htm|].
  split; [exact (Hentry 0 Hfind H1 H2)|].
  destruct (Hscale "7" "10" Hm Hne Hnz Htm) as [r [c [Hr [Hc [Hmin [_ [_ Hf]]]]]]].
  exists r, c. repeat split; try assumption.
  rewrite Hmin. reflexivity.
Defined.

(** ** The dataset builder *)

Section Frame.
Import AnalyticsService.

Lemma column_eqb_eq (a b : column) : column_eqb a b = true <-> a = b.
Proof.
  destruct a, b; cbn [column_eqb]; split; intros H;
    try discriminate; try reflexivity;
    try (apply Nat.eqb_eq in H; subst; reflexivity);
    try (inversion H; subst; apply Nat.eqb_refl).
Qed.

Lemma column_eqb_refl (a : column) : column_eqb a a = true.
Proof. apply column_eqb_eq. reflexivity. Qed.

Lemma column_eqb_sym (a b : column) : column_eqb a b = column_eqb b a.
Proof.
  destruct (column_eqb a b) eqn:E1, (column_eqb b a) eqn:E2; try reflexivity.
  - apply column_eqb_eq in E1. subst. rewrite column_eqb_refl in E2. discriminate.
  - apply column_eqb_eq in E2. subst. rewrite column_eqb_refl in E1. discriminate.
Qed.

Lemma has_column_In (c : column) (cols : list column) :
  has_column c cols = true <-> In c cols.
Proof.
  unfold has_column. rewrite existsb_exists. split.
  - intros [x [Hx Hc]]. apply column_eqb_eq in Hc. subst. exact Hx.
  - intros Hc. exists c. split; [exact Hc | apply column_eqb_refl].
Qed.

Lemma has_column_snoc (c k : column) (cols : list column) :
  has_column c (cols ++ [k]) = has_column c cols || column_eqb c k.
Proof.
  unfold has_column. rewrite existsb_app. cbn [existsb]. rewrite orb_false_r.
  reflexivity.
Qed.

Lemma row_has_cons (c k : column) (v : cell) (r : row) :
  row_has c ((k, v) :: r) = column_eqb c k || row_has c r.
Proof.
  unfold row_has. cbn [row_get]. rewrite (column_eqb_sym k c).
  destruct (column_eqb c k); reflexivity.
Qed.

Lemma add_columns_has (c : column) (r : row) :
  forall cols, has_column c (add_columns cols r) = has_column c cols || row_has c r.
Proof.
  unfold add_columns. induction r as [|[k v] r IH]; intros cols; cbn [fold_left].
  - unfold row_has. cbn [row_get]. rewrite orb_false_r. reflexivity.
  - rewrite IH, row_has_cons. cbn [fst].
    destruct (has_column k cols) eqn:Ek.
    + destruct (column_eqb c k) eqn:Ec.
      * apply column_eqb_eq in Ec. subst. rewrite Ek. reflexivity.
      * reflexivity.
    + rewrite has_column_snoc. rewrite orb_assoc. reflexivity.
Qed.

Lemma fold_add_columns_has (c : column) (data : list row) :
  forall cols,
    has_column c (fold_left add_columns data cols)
    = has_column c cols || existsb (row_has c) data.
Proof.
  induction data as [|r data IH]; intros cols; cbn [fold_left existsb].
  - rewrite orb_false_r. reflexivity.
  - rewrite IH, add_columns_has, orb_assoc. reflexivity.
Qed.

(** A column is in the frame exactly when some row has an entry for it. *)
Lemma frame_has_column (c : column) (data : list row) :
  has_column c (columns (frame_of data)) = existsb (row_has c) data.
Proof.
  unfold frame_of. cbn [columns]. rewrite fold_add_columns_has. reflexivity.
Qed.

Lemma add_columns_NoDup (r : row) :
  forall cols, NoDup cols -> NoDup (add_columns cols r).
Proof.
  unfold add_columns. induction r as [|[k v] r IH]; intros cols Hnd; cbn [fold_left].
  - exact Hnd.
  - apply IH. cbn [fst]. destruct (has_column k cols) eqn:Ek; [exact Hnd|].
    apply NoDup_app; [exact Hnd | apply NoDup_cons; [intros []|apply NoDup_nil] |].
    intros x Hx [Hk|[]]. subst x.
    apply has_column_In in Hx. congruence.
Qed.

Lemma frame_columns_NoDup (data : list row) : NoDup (columns (frame_of data)).
Proof.
  unfold frame_of. cbn [columns].
  assert (H : forall cols, NoDup cols -> NoDup (fold_left add_columns data cols)).
  { induction data as [|r data IH]; intros cols Hnd; cbn [fold_left]; [exact Hnd|].
    apply IH. apply add_columns_NoDup. exact Hnd. }
  apply H. apply NoDup_nil.
Qed.

End Frame.

(** ** The rows of the records *)

Section Dataset.
Import AnalyticsService.
Context {ops : Arithmetic}.

Lemma row_get_app (c : column) (r1 r2 : row) :
  row_get c (r1 ++ r2) =
  match row_get c r1 with
  | Some v => Some v
  | None => row_get c r2
  end.
Proof.
  induction r1 as [|[k v] r1 IH]; cbn [app row_get]; [reflexivity|].
  destruct (column_eqb k c); [reflexivity | exact IH].
Qed.

(** The entries of the questions, looked up by question number. *)
Lemma question_cells_get (pick : nat -> column) (cellof : Question -> cell)
      (qs : list Question) :
  (forall i q, row_get (pick i) (question_cells i q) = Some (cellof q)) ->
  (forall i j q, i <> j -> row_get (pick j) (question_cells i q) = None) ->
  forall start n,
    row_get (pick n)
      (flat_map (fun iq => question_cells (fst iq) (snd iq)) (enumerate start qs))
    = if start <=? n then option_map cellof (nth_error qs (n - start)) else None.
Proof.
  intros Hhit Hmiss.
  induction qs as [|q qs IH]; intros start n; cbn [enumerate flat_map].
  - cbn [row_get]. destruct (start <=? n); [|reflexivity].
    destruct (n - start); reflexivity.
  - rewrite row_get_app. cbn [fst snd].
    destruct (Nat.eq_dec start n) as [Heq|Hne].
    + subst n. rewrite Hhit, Nat.leb_refl, Nat.sub_diag. reflexivity.
    + rewrite (Hmiss start n q Hne), IH.
      destruct (start <=? n) eqn:E1.
      * apply Nat.leb_le in E1.
        assert (E2 : (S start <=? n) = true) by (apply Nat.leb_le; lia).
        rewrite E2.
        replace (n - start) with (S (n - S start)) by lia. reflexivity.
      * apply Nat.leb_gt in E1.
        assert (E2 : (S start <=? n) = false) by (apply Nat.leb_gt; lia).
        rewrite E2. reflexivity.
Qed.

Lemma eqb_neq_false (i j : nat) : i <> j -> (i =? j) = false.
Proof. intros H. apply Nat.eqb_neq. exact H. Qed.

Lemma student_data_attempted (result : GradingRecord) (n : nat) :
  row_get (QAttempted n) (student_data result)
  = option_map (fun q => CFlag (or_default (attempted q) false))
               (nth_question n result).
Proof.
  unfold student_data. rewrite row_get_app. cbn [row_get column_eqb].
  rewrite (question_cells_get QAttempted
             (fun q => CFlag (or_default (attempted q) false))).
  - destruct n as [|i]; [reflexivity|].
    cbn [nth_question]. change (1 <=? S i) with true. cbv iota.
    replace (S i - 1) with i by lia. reflexivity.
  - intros i q. cbn [question_cells row_get column_eqb].
    rewrite Nat.eqb_refl. reflexivity.
  - intros i j q Hij. cbn [question_cells row_get column_eqb].
    rewrite (eqb_neq_false i j Hij). reflexivity.
Qed.

Lemma student_data_percentage (result : GradingRecord) (n : nat) :
  row_get (QPercentage n) (student_data result)
  = option_map (fun q => CNumber (question_percentage q)) (nth_question n result).
Proof.
  unfold student_data. rewrite row_get_app. cbn [row_get column_eqb].
  rewrite (question_cells_get QPercentage
             (fun q => CNumber (question_percentage q))).
  - destruct n as [|i]; [reflexivity|].
    cbn [nth_question]. change (1 <=? S i) with true. cbv iota.
    replace (S i - 1) with i by lia. reflexivity.
  - intros i q. cbn [question_cells row_get column_eqb].
    rewrite Nat.eqb_refl. reflexivity.
  - intros i j q Hij. cbn [question_cells row_get column_eqb].
    rewrite (eqb_neq_false i j Hij). reflexivity.
Qed.

Lemma student_data_filename (result : GradingRecord) :
  row_filename (student_data result) = filename result.
Proof. reflexivity. Qed.

Lemma student_data_percentage_cell (result : GradingRecord) :
  cell_number (row_get Percentage (student_data result)) = percentage result.
Proof. reflexivity. Qed.

Lemma nth_question_Some (n : nat) (result : GradingRecord) :
  (exists q, nth_question n result = Some q)
  <-> 1 <= n <= List.length (questions result).
Proof.
  destruct n as [|i]; cbn [nth_question].
  - split; [intros [q Hq]; discriminate | lia].
  - split.
    + intros [q Hq].
      assert (Hi : i < List.length (questions result))
        by (apply nth_error_Some; congruence).
      lia.
    + intros [_ Hi].
      destruct (nth_error (questions result) i) as [q|] eqn:E;
        [exists q; reflexivity|].
      apply nth_error_None in E. lia.
Qed.

Lemma row_has_attempted (n : nat) (result : GradingRecord) :
  row_has (QAttempted n) (student_data result) = true
  <-> 1 <= n <= List.length (questions result).
Proof.
  unfold row_has. rewrite student_data_attempted.
  rewrite <- nth_question_Some.
  destruct (nth_question n result) as [q|]; cbn [option_map]; split; intros H;
    try discriminate; try reflexivity.
  - exists q. reflexivity.
  - destruct H as [q Hq]. discriminate.
Qed.

Lemma max_question_count_bound (rs : list GradingRecord) (r : GradingRecord) :
  In r rs -> List.length (questions r) <= max_question_count rs.
Proof.
  induction rs as [|x rs IH]; [intros []|].
  cbn [max_question_count fold_right]. fold (max_question_count rs).
  intros [Hx|Hr]; [subst; lia | specialize (IH Hr); lia].
Qed.

Lemma max_question_count_reached (rs : list GradingRecord) (n : nat) :
  1 <= n <= max_question_count rs ->
  exists r, In r rs /\ n <= List.length (questions r).
Proof.
  induction rs as [|x rs IH]; cbn [max_question_count fold_right]; [lia|].
  fold (max_question_count rs). intros Hn.
  destruct (Nat.le_gt_cases n (List.length (questions x))) as [Hx|Hx].
  - exists x. split; [left; reflexivity | exact Hx].
  - destruct IH as [r [Hr Hlen]]; [lia|].
    exists r. split; [right; exact Hr | exact Hlen].
Qed.

(** The column [question_n_attempted] exists exactly for
    [1 <= n <= max_question_count]. *)
Lemma attempted_column_present (rs : list GradingRecord) (n : nat) :
  has_column (QAttempted n) (columns (frame_of (map student_data rs))) = true
  <-> 1 <= n <= max_question_count rs.
Proof.
  rewrite frame_has_column, existsb_exists. split.
  - intros [row [Hrow Hhas]]. apply in_map_iff in Hrow.
    destruct Hrow as [r [<- Hr]]. apply row_has_attempted in Hhas.
    pose proof (max_question_count_bound rs r Hr). lia.
  - intros Hn. destruct (max_question_count_reached rs n Hn) as [r [Hr Hlen]].
    exists (student_data r). split; [apply in_map; exact Hr|].
    apply row_has_attempted. lia.
Qed.

(** A frame built from at least one record is not empty: it has the
    column [filename]. *)
Lemma frame_of_records_not_empty (r : GradingRecord) (rs : list GradingRecord) :
  frame_empty (frame_of (map student_data (r :: rs))) = false.
Proof.
  unfold frame_empty.
  pose proof (frame_has_column Filename (map student_data (r :: rs))) as Hc.
  change (rows (frame_of (map student_data (r :: rs))))
    with (student_data r :: map student_data rs).
  destruct (columns (frame_of (map student_data (r :: rs)))) as [|c cols];
    [|reflexivity].
  cbn [map existsb] in Hc.
  change (row_has Filename (student_data r)) with true in Hc.
  discriminate Hc.
Qed.

Lemma loaded_no_data (self : Service) (rs : list GradingRecord) :
  no_data (load_results self rs) = match rs with [] => true | _ => false end.
Proof.
  destruct rs as [|r rs]; [reflexivity|].
  exact (frame_of_records_not_empty r rs).
Qed.

Lemma loaded_frame (self : Service) (r : GradingRecord) (rs : list GradingRecord) :
  frame (load_results self (r :: rs)) = frame_of (map student_data (r :: rs)).
Proof. reflexivity. Qed.

(** [get_max_questions] is the largest number of questions of a record. *)
Lemma get_max_questions_loaded (self : Service) (rs : list GradingRecord) :
  get_max_questions (load_results self rs) = max_question_count rs.
Proof.
  unfold get_max_questions. rewrite loaded_no_data.
  destruct rs as [|r0 rs0]; [reflexivity|].
  rewrite loaded_frame.
  set (rs := r0 :: rs0). set (cols := columns (frame_of (map student_data rs))).
  transitivity (List.length (map QAttempted (seq 1 (max_question_count rs))));
    [|rewrite length_map, length_seq; reflexivity].
  apply Permutation_length. apply NoDup_Permutation.
  - apply NoDup_filter. apply frame_columns_NoDup.
  - apply Finite.Injective_map_NoDup; [|apply seq_NoDup].
    intros i j Hij. inversion Hij. reflexivity.
  - intros c. rewrite filter_In, in_map_iff. split.
    + intros [Hc Hatt]. destruct c; try discriminate.
      exists i. split; [reflexivity|]. apply in_seq.
      apply has_column_In in Hc. apply attempted_column_present in Hc. lia.
    + intros [i [<- Hi]]. apply in_seq in Hi. split; [|reflexivity].
      apply has_column_In. apply attempted_column_present. lia.
Qed.

End Dataset.

(** ** Attempt counts *)

Section Attempts.
Import AnalyticsService.
Context {ops : Arithmetic}.

Lemma fold_left_Zadd {A} (f : A -> Z) (l : list A) :
  forall acc, fold_left (fun a x => (a + f x)%Z) l acc
              = (acc + fold_left (fun a x => (a + f x)%Z) l 0)%Z.
Proof.
  induction l as [|x l IH]; intros acc; cbn [fold_left]; [lia|].
  rewrite (IH (acc + f x)%Z), (IH (0 + f x)%Z). lia.
Qed.

Lemma filter_none {A} (f : A -> bool) (l : list A) :
  (forall x, In x l -> f x = false) -> filter f l = [].
Proof.
  induction l as [|x l IH]; [reflexivity|].
  intros Hall. cbn [filter]. rewrite (Hall x (or_introl eq_refl)).
  apply IH. intros y Hy. apply Hall. right. exact Hy.
Qed.

Lemma flag_count_student (n : nat) (r : GradingRecord) :
  flag_count (row_get (QAttempted n) (student_data r))
  = if explicitly_attempted n r then 1%Z else 0%Z.
Proof.
  rewrite student_data_attempted. unfold explicitly_attempted.
  destruct (nth_question n r) as [q|]; cbn [option_map flag_count]; [|reflexivity].
  destruct (attempted q) as [[|]|]; reflexivity.
Qed.

(** The sum of the column [question_n_attempted] is the number of records
    whose question [n] carries [attempted = True]. *)
Lemma column_sum_attempted (n : nat) (rs : list GradingRecord) :
  column_sum (QAttempted n) (frame_of (map student_data rs))
  = Z.of_nat (List.length (filter (explicitly_attempted n) rs)).
Proof.
  unfold column_sum, frame_of. cbn [rows].
  induction rs as [|r rs IH]; [reflexivity|].
  cbn [map fold_left filter]. rewrite fold_left_Zadd, IH, flag_count_student.
  destruct (explicitly_attempted n r); cbn [List.length]; lia.
Qed.

Lemma attempted_count_loaded (self : Service) (rs : list GradingRecord) (n : nat) :
  attempted_count (analyze_question_attempts (load_results self rs) n)
  = Z.of_nat (List.length (filter (explicitly_attempted n) rs)).
Proof.
  unfold analyze_question_attempts. rewrite loaded_no_data.
  destruct rs as [|r0 rs0]; [reflexivity|].
  rewrite loaded_frame.
  destruct (has_column (QAttempted n)
              (columns (frame_of (map student_data (r0 :: rs0))))) eqn:Ecol;
    cbn [negb attempted_count].
  - apply column_sum_attempted.
  - rewrite frame_has_column in Ecol.
    assert (Hnone : forall r, In r (r0 :: rs0) -> explicitly_attempted n r = false).
    { intros r Hr. unfold explicitly_attempted.
      destruct (nth_question n r) as [q|] eqn:Eq; [|reflexivity].
      exfalso.
      assert (Hhas : existsb (row_has (QAttempted n)) (map student_data (r0 :: rs0)) = true).
      { apply existsb_exists. exists (student_data r).
        split; [apply in_map; exact Hr|].
        unfold row_has. rewrite student_data_attempted, Eq. reflexivity. }
      congruence. }
    rewrite (filter_none _ _ Hnone). reflexivity.
Qed.

(** C4. A question object without an [attempted] key is recorded as
    [question_i_attempted = False], whatever its score; [attempts(n)]
    counts exactly the records whose question [n] carries
    [attempted = True], so it counts no record whose questions lack the
    key: for a dataset of such records the count is 0. *)
Theorem missing_attempted_key_counts_as_not_attempted :
  forall (self : Service) (rs : list GradingRecord) (n : nat),
    (forall r i q,
        nth_error (questions r) i = Some q -> attempted q = None ->
        row_get (QAttempted (S i)) (student_data r) = Some (CFlag false)) /\
    attempted_count (analyze_question_attempts (load_results self rs) n)
      = Z.of_nat (List.length (filter (explicitly_attempted n) rs)) /\
    (forall r, (forall q, In q (questions r) -> attempted q = None) ->
               explicitly_attempted n r = false) /\
    ((forall r q, In r rs -> In q (questions r) -> attempted q = None) ->
     attempted_count (analyze_question_attempts (load_results self rs) n) = 0%Z).
Proof.
  intros self rs n.
  assert (Hlack : forall r, (forall q, In q (questions r) -> attempted q = None) ->
                            explicitly_attempted n r = false).
  { intros r Hr. unfold explicitly_attempted.
    destruct (nth_question n r) as [q|] eqn:Eq; [|reflexivity].
    destruct n as [|i]; [discriminate|]. cbn [nth_question] in Eq.
    rewrite (Hr q (nth_error_In _ _ Eq)). reflexivity. }
  split; [|split; [|split]].
  - intros r i q Hq Hatt. rewrite student_data_attempted.
    cbn [nth_question]. rewrite Hq. cbn [option_map]. rewrite Hatt. reflexivity.
  - apply attempted_count_loaded.
  - exact Hlack.
  - intros Hall. rewrite attempted_count_loaded.
    rewrite (filter_none (explicitly_attempted n) rs); [reflexivity|].
    intros r Hr. apply Hlack. intros q Hq. exact (Hall r q Hr Hq).
Qed.

(** The keys of a question object in the JSON format the grading prompt
    asks for. *)
Lemma prompt_schema_lacks_attempted (d : dict) :
  (forall k v, In (k, v) d -> In k GradingService.prompt_question_keys) ->
  dict_lookup "attempted" d = None.
Proof.
  induction d as [|[k v] d IH]; [reflexivity|].
  intros Hkeys. cbn [dict_lookup].
  assert (Hk : In k GradingService.prompt_question_keys)
    by (apply (Hkeys k v); left; reflexivity).
  assert (Hne : String.eqb k "attempted" = false).
  { destruct (String.eqb k "attempted") eqn:E; [|reflexivity].
    apply String.eqb_eq in E. subst k. exfalso.
    cbn [GradingService.prompt_question_keys In] in Hk.
    repeat (destruct Hk as [Hk|Hk]; [discriminate Hk|]). exact Hk. }
  rewrite Hne. apply IH. intros k' v' H'. apply (Hkeys k' v'). right. exact H'.
Qed.

End Attempts.

(** ** The most attempted and the most skipped question *)

Section FirstMaximum.
Import AnalyticsService.
Context {ops : Arithmetic}.

(** [max_by] over the entries of the indices [start, start + len), started
    from the entry of [b], the first maximum so far: the result is the
    entry of the first index that reaches the maximum. *)
Lemma max_by_first_maximum (f : nat -> QuestionCount) (lo : nat) :
  forall len start b,
    lo <= b < start ->
    (forall j, lo <= j < start -> (q_count (f j) <= q_count (f b))%Z) ->
    (forall j, lo <= j < b -> (q_count (f j) < q_count (f b))%Z) ->
    exists i,
      max_by q_count (f b) (map f (seq start len)) = f i /\
      lo <= i < start + len /\
      (forall j, lo <= j < start + len -> (q_count (f j) <= q_count (f i))%Z) /\
      (forall j, lo <= j < i -> (q_count (f j) < q_count (f i))%Z).
Proof.
  induction len as [|len IH]; intros start b Hb Hmax Hfirst; cbn [seq map max_by].
  - exists b. split; [reflexivity|]. split; [lia|]. split.
    + intros j Hj. apply Hmax. lia.
    + exact Hfirst.
  - destruct (q_count (f b) <? q_count (f start))%Z eqn:E.
    + apply Z.ltb_lt in E.
      destruct (IH (S start) start) as [i [Hi [Hr [Hm Hf]]]].
      * lia.
      * intros j Hj. destruct (Nat.eq_dec j start) as [->|Hne]; [lia|].
        specialize (Hmax j ltac:(lia)). lia.
      * intros j Hj. specialize (Hmax j ltac:(lia)). lia.
      * exists i. split; [exact Hi|]. split; [lia|]. split.
        -- intros j Hj. apply Hm. lia.
        -- exact Hf.
    + apply Z.ltb_ge in E.
      destruct (IH (S start) b) as [i [Hi [Hr [Hm Hf]]]].
      * lia.
      * intros j Hj. destruct (Nat.eq_dec j start) as [->|Hne]; [exact E|].
        apply Hmax. lia.
      * exact Hfirst.
      * exists i. split; [exact Hi|]. split; [lia|]. split.
        -- intros j Hj. apply Hm. lia.
        -- exact Hf.
Qed.

Lemma first_maximum_of_range (f : nat -> QuestionCount) (n : nat) :
  (forall i, question_number (f i) = i) ->
  0 < n ->
  exists first rest best,
    map f (range1 n) = first :: rest /\
    max_by q_count first rest = best /\
    best = f (question_number best) /\
    1 <= question_number best <= n /\
    (forall j, 1 <= j <= n -> (q_count (f j) <= q_count best)%Z) /\
    (forall j, 1 <= j < question_number best -> (q_count (f j) < q_count best)%Z).
Proof.
  intros Hnum Hn. unfold range1.
  destruct n as [|m]; [lia|]. cbn [seq map].
  destruct (max_by_first_maximum f 1 m 2 1) as [i [Hi [Hr [Hm Hf]]]].
  - lia.
  - intros j Hj. replace j with 1 by lia. lia.
  - intros j Hj. lia.
  - exists (f 1), (map f (seq 2 m)), (f i).
    split; [reflexivity|]. split; [exact Hi|].
    rewrite Hnum. split; [reflexivity|]. split; [lia|]. split.
    + intros j Hj. apply Hm. lia.
    + exact Hf.
Qed.

(** C7. With data loaded and at least one question column, the most
    attempted question is the smallest index among [1..max_questions]
    whose attempted count is the maximum, and the most skipped question
    is the smallest index whose skipped count ([total - attempted]) is the
    maximum; each result carries that index and that count. *)
Theorem most_attempted_and_skipped_first_maximum :
  forall (self : Service),
    no_data self = false ->
    0 < get_max_questions self ->
    let n := get_max_questions self in
    let att j := attempted_count (analyze_question_attempts self j) in
    let skp j :=
      (Z.of_nat (total_students (analyze_question_attempts self j)) - att j)%Z in
    let a := get_most_attempted_question self in
    let k := get_most_skipped_question self in
    (1 <= question_number a <= n /\
     q_count a = att (question_number a) /\
     (forall j, 1 <= j <= n -> (att j <= q_count a)%Z) /\
     (forall j, 1 <= j < question_number a -> (att j < q_count a)%Z)) /\
    (1 <= question_number k <= n /\
     q_count k = skp (question_number k) /\
     (forall j, 1 <= j <= n -> (skp j <= q_count k)%Z) /\
     (forall j, 1 <= j < question_number k -> (skp j < q_count k)%Z)).
Proof.
  intros self Hdata Hn n att skp a k.
  assert (Hn0 : (n =? 0) = false) by (apply Nat.eqb_neq; unfold n; lia).
  split.
  - destruct (first_maximum_of_range (attempts_entry self) n)
      as [first [rest [best [Hl [Hb [Hbest [Hr [Hm Hf]]]]]]]];
      [reflexivity | exact Hn |].
    assert (Ha : a = best).
    { unfold a, get_most_attempted_question. rewrite Hdata. fold n.
      rewrite Hn0, Hl. exact Hb. }
    rewrite Ha. split; [exact Hr|]. split; [rewrite Hbest at 1; reflexivity|].
    split; [exact Hm | exact Hf].
  - destruct (first_maximum_of_range (skip_entry self) n)
      as [first [rest [best [Hl [Hb [Hbest [Hr [Hm Hf]]]]]]]];
      [reflexivity | exact Hn |].
    assert (Hk : k = best).
    { unfold k, get_most_skipped_question. rewrite Hdata. fold n.
      rewrite Hn0, Hl. exact Hb. }
    rewrite Hk. split; [exact Hr|]. split; [rewrite Hbest at 1; reflexivity|].
    split; [exact Hm | exact Hf].
Qed.

End FirstMaximum.

(** ** Consistent performers *)

Section Sorting.
Import AnalyticsService.
Context {A : Type} (before : A -> A -> bool).

Lemma insert_by_perm (x : A) (l : list A) :
  Permutation (insert_by before x l) (x :: l).
Proof.
  induction l as [|y l IH]; cbn [insert_by]; [apply Permutation_refl|].
  destruct (before x y); [apply Permutation_refl|].
  apply (Permutation_trans (l' := y :: x :: l)).
  - apply perm_skip. exact IH.
  - apply perm_swap.
Qed.

Lemma sort_by_perm (l : list A) : Permutation (sort_by before l) l.
Proof.
  induction l as [|x l IH]; cbn [sort_by fold_right]; [apply Permutation_refl|].
  fold (sort_by before l).
  apply (Permutation_trans (insert_by_perm x (sort_by before l))).
  apply perm_skip. exact IH.
Qed.

Hypothesis before_total : forall x y, before x y = false -> before y x = true.

Lemma insert_by_sorted (x : A) (l : list A) :
  Sorted (fun a b => before a b = true) l ->
  Sorted (fun a b => before a b = true) (insert_by before x l).
Proof.
  induction l as [|y l IH]; intros Hs; cbn [insert_by].
  - apply Sorted_cons; [apply Sorted_nil | apply HdRel_nil].
  - destruct (before x y) eqn:E.
    + apply Sorted_cons; [exact Hs | apply HdRel_cons; exact E].
    + inversion Hs as [|y' l' Hl Hhd]; subst.
      apply Sorted_cons; [apply IH; exact Hl|].
      destruct l as [|z l]; cbn [insert_by].
      * apply HdRel_cons. apply before_total. exact E.
      * destruct (before x z).
        -- apply HdRel_cons. apply before_total. exact E.
        -- inversion Hhd; subst. apply HdRel_cons. assumption.
Qed.

Lemma sort_by_sorted (l : list A) :
  Sorted (fun a b => before a b = true) (sort_by before l).
Proof.
  induction l as [|x l IH]; cbn [sort_by fold_right]; [apply Sorted_nil|].
  apply insert_by_sorted. exact IH.
Qed.

End Sorting.

Section Consistency.
Import AnalyticsService.
Context {ops : Arithmetic}.

Lemma flat_map_filter {A B} (p : A -> bool) (g : A -> B) (l : list A) :
  flat_map (fun x => if p x then [g x] else []) l = map g (filter p l).
Proof.
  induction l as [|x l IH]; [reflexivity|].
  cbn [flat_map filter]. destruct (p x); cbn [map app]; rewrite IH; reflexivity.
Qed.

Lemma flat_map_over_map {A B C} (f : B -> list C) (g : A -> B) (l : list A) :
  flat_map f (map g l) = flat_map (fun x => f (g x)) l.
Proof.
  induction l as [|x l IH]; [reflexivity|].
  cbn [map flat_map]. rewrite IH. reflexivity.
Qed.

Lemma flat_map_ext_in {A B} (f g : A -> list B) (l : list A) :
  (forall x, In x l -> f x = g x) -> flat_map f l = flat_map g l.
Proof.
  induction l as [|x l IH]; [reflexivity|].
  intros H. cbn [flat_map]. rewrite (H x (or_introl eq_refl)), IH; [reflexivity|].
  intros y Hy. apply H. right. exact Hy.
Qed.

(** The percentages of the questions [start..] read off index by index. *)
Lemma percentages_by_index (qs : list Question) :
  forall start len,
    List.length qs <= len ->
    flat_map
      (fun i =>
         match option_map (fun q => CNumber (question_percentage q))
                          (nth_error qs (i - start)) with
         | Some c => [cell_number (Some c)]
         | None => []
         end)
      (seq start len)
    = map question_percentage qs.
Proof.
  induction qs as [|q qs IH]; intros start len Hlen.
  - cbn [map]. induction (seq start len) as [|i l IHl]; [reflexivity|].
    cbn [flat_map]. destruct (i - start); cbn [nth_error option_map app]; exact IHl.
  - destruct len as [|len]; [cbn [List.length] in Hlen; lia|].
    cbn [seq flat_map map]. rewrite Nat.sub_diag. cbn [nth_error option_map cell_number app].
    f_equal. rewrite <- (IH (S start) len) by (cbn [List.length] in Hlen; lia).
    apply flat_map_ext_in. intros i Hi. apply in_seq in Hi.
    replace (i - start) with (S (i - S start)) by lia. reflexivity.
Qed.

(** The question percentages the loop collects from the row of a record
    are the percentages of the record's questions. *)
Lemma question_percentages_of_record
      (rs : list GradingRecord) (r : GradingRecord) :
  In r rs ->
  question_percentages (frame_of (map student_data rs)) (max_question_count rs)
                       (student_data r)
  = record_percentages r.
Proof.
  intros Hr. unfold question_percentages, record_percentages, range1.
  rewrite <- (percentages_by_index (questions r) 1 (max_question_count rs))
    by (apply max_question_count_bound; exact Hr).
  apply flat_map_ext_in. intros i Hi. apply in_seq in Hi.
  rewrite student_data_percentage.
  destruct i as [|i']; [lia|]. cbn [nth_question].
  replace (S i' - 1) with i' by lia.
  destruct (nth_error (questions r) i') as [q|] eqn:Eq; cbn [option_map].
  - assert (Hcol : has_column (QPercentage (S i'))
                     (columns (frame_of (map student_data rs))) = true).
    { rewrite frame_has_column. apply existsb_exists.
      exists (student_data r). split; [apply in_map; exact Hr|].
      unfold row_has. rewrite student_data_percentage. cbn [nth_question].
      rewrite Eq. reflexivity. }
    rewrite Hcol. reflexivity.
  - destruct (has_column _ _); reflexivity.
Qed.

Lemma is_consistent_needs_two (qs : list Q) :
  List.length qs < 2 -> is_consistent qs = false.
Proof.
  intros H. unfold is_consistent.
  assert (E : (2 <=? List.length qs) = false) by (apply Nat.leb_gt; exact H).
  rewrite E. reflexivity.
Qed.

(** What [get_consistent_performers] returns, in terms of the records. *)
Lemma consistent_performers_loaded (self : Service) (rs : list GradingRecord) :
  get_consistent_performers (load_results self rs)
  = sort_by (fun x y => Qle_bool (c_std_deviation x) (c_std_deviation y))
      (map consistent_entry
           (filter (fun r => is_consistent (record_percentages r)) rs)).
Proof.
  unfold get_consistent_performers.
  rewrite loaded_no_data, get_max_questions_loaded.
  destruct rs as [|r0 rs0]; [reflexivity|].
  rewrite !loaded_frame.
  set (rs := r0 :: rs0).
  destruct (max_question_count rs <? 2) eqn:Emax.
  - apply Nat.ltb_lt in Emax.
    rewrite (filter_none (fun r => is_consistent (record_percentages r)) rs);
      [reflexivity|].
    intros r Hr. apply is_consistent_needs_two.
    unfold record_percentages. rewrite length_map.
    pose proof (max_question_count_bound rs r Hr). lia.
  - f_equal.
    change (rows (frame_of (map student_data rs))) with (map student_data rs).
    rewrite flat_map_over_map, <- flat_map_filter.
    apply flat_map_ext_in. intros r Hr.
    rewrite (question_percentages_of_record rs r Hr), student_data_filename.
    reflexivity.
Qed.

Lemma is_consistent_iff (qs : list Q) :
  is_consistent qs = true
  <-> 2 <= List.length qs /\ (np_std qs < 15)%Q /\ (50 < np_mean qs)%Q.
Proof.
  unfold is_consistent. rewrite !andb_true_iff, Nat.leb_le, !Qlt_bool_iff.
  tauto.
Qed.

(** The order of the returned list. *)
Lemma sorted_by_key {E : Type} (key : E -> Q) (entries : list E) :
  StronglySorted (fun x y => (key x <= key y)%Q)
    (sort_by (fun x y => Qle_bool (key x) (key y)) entries).
Proof.
  apply Sorted_StronglySorted.
  - intros x y z Hxy Hyz. exact (Qle_trans _ _ _ Hxy Hyz).
  - pose proof (sort_by_sorted (fun x y => Qle_bool (key x) (key y))) as Hs.
    assert (Htot : forall x y : E,
               Qle_bool (key x) (key y) = false -> Qle_bool (key y) (key x) = true).
    { intros x y Hf. apply Qle_bool_iff. apply Qlt_le_weak.
      apply Qnot_le_lt. intros Hle. apply Qle_bool_iff in Hle. congruence. }
    specialize (Hs Htot entries).
    induction Hs as [|x l Hl IH Hhd]; [apply Sorted_nil|].
    apply Sorted_cons; [exact IH|].
    destruct Hhd as [|y l' Hxy]; [apply HdRel_nil|].
    apply HdRel_cons. apply Qle_bool_iff. exact Hxy.
Qed.

(** C8. [consistent_performers] returns one entry for each record that has
    at least 2 question percentages, a population standard deviation below
    15 and a mean above 50, both as [numpy] computes them from the
    percentages the builder computed, and for no other record; each entry
    carries that mean and that standard deviation; the entries are sorted
    by ascending standard deviation. This holds however the platform
    rounds. For the percentages 60, 62, 58 the statistics without rounding
    are a mean of 60 and a variance of 8/3 (a standard deviation between
    1.63 and 1.64), and with the arithmetic without rounding a record
    whose three questions score 60, 62 and 58 out of 100 is the one
    consistent performer of its dataset. *)
Theorem consistent_performers_selected_and_sorted :
  forall (self : Service) (rs : list GradingRecord),
    let result := get_consistent_performers (load_results self rs) in
    Permutation result
      (map consistent_entry
           (filter (fun r => is_consistent (record_percentages r)) rs)) /\
    (forall r,
        is_consistent (record_percentages r) = true
        <-> 2 <= List.length (questions r) /\
            (np_std (map question_percentage (questions r)) < 15)%Q /\
            (50 < np_mean (map question_percentage (questions r)))%Q) /\
    (forall e, In e result <->
               exists r, In r rs /\
                         is_consistent (record_percentages r) = true /\
                         e = consistent_entry r) /\
    (forall e, In e result ->
               exists r, In r rs /\
                         c_filename e = filename r /\
                         c_question_scores e = map question_percentage (questions r) /\
                         average_score e = np_mean (c_question_scores e) /\
                         c_std_deviation e = np_std (c_question_scores e)) /\
    StronglySorted (fun x y => (c_std_deviation x <= c_std_deviation y)%Q) result /\
    ((mean [60; 62; 58] == 60)%Q /\
     (variance [60; 62; 58] == 8 # 3)%Q /\
     ((163 # 100) * (163 # 100) < variance [60; 62; 58])%Q /\
     (variance [60; 62; 58] < (164 # 100) * (164 # 100))%Q /\
     get_consistent_performers (ops := exact_ops)
       (load_results (ops := exact_ops) self
          [answered "uneven" [question None 10 100; question None 95 100];
           answered "steady" [question None 60 100; question None 62 100;
                              question None 58 100]])
     = [ {| c_filename := "steady";
            average_score := 60;
            c_std_deviation := 1632993 # 1000000;
            c_question_scores := [60; 62; 58]%Q |} ]).
Proof.
  intros self rs result.
  assert (Hperm : Permutation result
            (map consistent_entry
                 (filter (fun r => is_consistent (record_percentages r)) rs))).
  { unfold result. rewrite consistent_performers_loaded. apply sort_by_perm. }
  assert (Hin : forall e, In e result <->
               exists r, In r rs /\
                         is_consistent (record_percentages r) = true /\
                         e = consistent_entry r).
  { intros e. split.
    + intros He. apply (Permutation_in _ Hperm) in He.
      apply in_map_iff in He. destruct He as [r [<- Hr]].
      apply filter_In in Hr. destruct Hr as [Hr Hc].
      exists r. repeat split; assumption.
    + intros [r [Hr [Hc ->]]].
      apply (Permutation_in _ (Permutation_sym Hperm)).
      apply in_map. apply filter_In. split; assumption. }
  split; [exact Hperm|]. split; [|split; [exact Hin|split; [|split]]].
  - intros r. rewrite is_consistent_iff. unfold record_percentages.
    rewrite length_map. reflexivity.
  - intros e He. apply Hin in He. destruct He as [r [Hr [_ ->]]].
    exists r. split; [exact Hr|]. repeat split.
  - unfold result. rewrite consistent_performers_loaded.
    apply (sorted_by_key c_std_deviation).
  - split; [reflexivity|]. split; [reflexivity|]. split; [reflexivity|].
    split; [reflexivity|]. vm_compute. reflexivity.
Qed.

End Consistency.

(** ** Grade distribution and the empty dataset *)

Section Distribution.
Import AnalyticsService.
Context {ops : Arithmetic}.

(** C3 (the code departs from the claim). Three records with 179/200,
    140/200 and 100/200 marks have the percentages 89.5, 70 and 50. The
    percentage 89.5 lies between the buckets B [80, 89] and A [90, 100]
    and is counted in neither: the bucket counts add up to 2, not to the
    3 records. *)
Theorem grade_buckets_miss_fractional_percentage :
  forall (self : Service),
    let s := load_results self
               [graded "a" 179 200; graded "b" 140 200; graded "c" 100 200] in
    (percentages (frame s) = [(179 # 200) * 100; (140 # 200) * 100; (100 # 200) * 100]%Q
     /\ ((179 # 200) * 100 == 895 # 10)%Q) /\
    grades (get_grade_distribution s)
      = [("A (90-100%)", 0); ("B (80-89%)", 0); ("C (70-79%)", 1);
         ("D (60-69%)", 0); ("F (0-59%)", 1)] /\
    graded_total (get_grade_distribution s) = 2 /\
    List.length (results s) = 3.
Proof.
  intros self s. split; [split; reflexivity|].
  split; [vm_compute; reflexivity|]. split; [vm_compute; reflexivity | reflexivity].
Qed.

(** What does hold: with whole-number percentages between 0 and 100 every
    percentage is counted in exactly one bucket. *)
Lemma whole_percentage_in_one_bucket (z : Z) :
  (0 <= z <= 100)%Z ->
  fold_right (fun gr acc => (if in_range (snd gr) (inject_Z z) then 1 else 0) + acc)
             0 grade_ranges = 1.
Proof.
  intros Hz. unfold grade_ranges, in_range. cbn [fold_right fst snd].
  assert (Hle : forall a b : Z, Qle_bool (inject_Z a) (inject_Z b) = (a <=? b)%Z).
  { intros a b. unfold Qle_bool, inject_Z. cbn [Qnum Qden].
    rewrite !Z.mul_1_r. reflexivity. }
  change 90%Q with (inject_Z 90). change 100%Q with (inject_Z 100).
  change 80%Q with (inject_Z 80). change 89%Q with (inject_Z 89).
  change 70%Q with (inject_Z 70). change 79%Q with (inject_Z 79).
  change 60%Q with (inject_Z 60). change 69%Q with (inject_Z 69).
  change 0%Q with (inject_Z 0). change 59%Q with (inject_Z 59).
  rewrite !Hle.
  destruct (90 <=? z)%Z eqn:E90, (z <=? 100)%Z eqn:E100,
           (80 <=? z)%Z eqn:E80, (z <=? 89)%Z eqn:E89,
           (70 <=? z)%Z eqn:E70, (z <=? 79)%Z eqn:E79,
           (60 <=? z)%Z eqn:E60, (z <=? 69)%Z eqn:E69,
           (0 <=? z)%Z eqn:E0, (z <=? 59)%Z eqn:E59;
    cbn [andb Nat.add]; try reflexivity; exfalso;
    repeat match goal with
           | H : (_ <=? _)%Z = true |- _ => apply Z.leb_le in H
           | H : (_ <=? _)%Z = false |- _ => apply Z.leb_gt in H
           end; lia.
Qed.

Lemma bucket_counts_add_up (ps : list Q) :
  fold_right (fun gr acc => List.length (filter (in_range (snd gr)) ps) + acc)
             0 grade_ranges
  = fold_right
      (fun p acc =>
         fold_right (fun gr a => (if in_range (snd gr) p then 1 else 0) + a)
                    0 grade_ranges + acc)
      0 ps.
Proof.
  induction ps as [|p ps IH]; [reflexivity|].
  cbn [fold_right]. rewrite <- IH. unfold grade_ranges.
  cbn [fold_right filter snd].
  destruct (in_range (90, 100)%Q p), (in_range (80, 89)%Q p),
           (in_range (70, 79)%Q p), (in_range (60, 69)%Q p),
           (in_range (0, 59)%Q p); cbn [List.length]; lia.
Qed.

Lemma length_map_Qlen (f : Q -> Q) (xs : list Q) : Qlen (map f xs) = Qlen xs.
Proof. unfold Qlen. rewrite length_map. reflexivity. Qed.

(** The statistics reported next to the buckets: mean, median and the
    population variance (divisor [N]) of all percentages; and the spec's
    example with percentages 90, 70, 50. *)
Lemma grade_distribution_statistics (self : Service) (rs : list GradingRecord) :
  rs <> [] ->
  let dist := get_grade_distribution (load_results self rs) in
  let ps := map percentage rs in
  average dist = (Qsum ps / Qlen ps)%Q /\
  median_score dist = median ps /\
  std_dev_squared dist
    = (Qsum (map (fun x => (x - mean ps) * (x - mean ps)) ps) / Qlen ps)%Q.
Proof.
  intros Hne dist ps. unfold dist, get_grade_distribution.
  rewrite loaded_no_data. destruct rs as [|r0 rs0]; [congruence|].
  rewrite !loaded_frame.
  assert (Hps : percentages (frame_of (map student_data (r0 :: rs0))) = ps).
  { unfold percentages, frame_of. cbn [rows]. rewrite map_map. reflexivity. }
  rewrite Hps. unfold ps. cbn [map average median_score std_dev_squared].
  repeat split; try reflexivity.
  unfold variance, mean at 1. rewrite length_map_Qlen. reflexivity.
Qed.

Lemma in_range_Qeq (bounds : Q * Q) (p q : Q) :
  (p == q)%Q -> in_range bounds p = in_range bounds q.
Proof.
  intros Hpq. unfold in_range.
  assert (H1 : Qle_bool (fst bounds) p = Qle_bool (fst bounds) q).
  { destruct (Qle_bool (fst bounds) p) eqn:E1, (Qle_bool (fst bounds) q) eqn:E2;
      try reflexivity.
    - apply Qle_bool_iff in E1. rewrite Hpq in E1. apply Qle_bool_iff in E1. congruence.
    - apply Qle_bool_iff in E2. rewrite <- Hpq in E2. apply Qle_bool_iff in E2. congruence. }
  assert (H2 : Qle_bool p (snd bounds) = Qle_bool q (snd bounds)).
  { destruct (Qle_bool p (snd bounds)) eqn:E1, (Qle_bool q (snd bounds)) eqn:E2;
      try reflexivity.
    - apply Qle_bool_iff in E1. rewrite Hpq in E1. apply Qle_bool_iff in E1. congruence.
    - apply Qle_bool_iff in E2. rewrite <- Hpq in E2. apply Qle_bool_iff in E2. congruence. }
  rewrite H1, H2. reflexivity.
Qed.

Lemma whole_percentages_one_bucket_each (ps : list Q) :
  (forall p, In p ps -> exists z, (p == inject_Z z)%Q /\ (0 <= z <= 100)%Z) ->
  fold_right
    (fun p acc =>
       fold_right (fun gr a => (if in_range (snd gr) p then 1 else 0) + a)
                  0 grade_ranges + acc)
    0 ps
  = List.length ps.
Proof.
  induction ps as [|p ps IH]; intros Hwhole; [reflexivity|].
  cbn [fold_right List.length].
  rewrite IH by (intros x Hx; apply Hwhole; right; exact Hx).
  destruct (Hwhole p (or_introl eq_refl)) as [z [Hz Hrange]].
  change (S (List.length ps)) with (1 + List.length ps).
  f_equal.
  etransitivity; [|exact (whole_percentage_in_one_bucket z Hrange)].
  unfold grade_ranges. cbn [fold_right snd].
  rewrite !(in_range_Qeq _ _ _ Hz). reflexivity.
Qed.

(** X3. With whole-number percentages between 0 and 100 every percentage
    falls in exactly one bucket: the bucket counts add up to the number of
    records. *)
Lemma whole_percentages_partitioned (self : Service) (rs : list GradingRecord) :
  (forall r, In r rs ->
             exists z, (percentage r == inject_Z z)%Q /\ (0 <= z <= 100)%Z) ->
  graded_total (get_grade_distribution (load_results self rs)) = List.length rs.
Proof.
  intros Hwhole. unfold get_grade_distribution. rewrite loaded_no_data.
  destruct rs as [|r0 rs0]; [reflexivity|].
  rewrite !loaded_frame. set (rs := r0 :: rs0) in *.
  assert (Hps : percentages (frame_of (map student_data rs)) = map percentage rs).
  { unfold percentages, frame_of. cbn [rows]. rewrite map_map. reflexivity. }
  rewrite Hps. unfold graded_total. cbn [grades].
  transitivity
    (fold_right
       (fun gr acc => List.length (filter (in_range (snd gr)) (map percentage rs)) + acc)
       0 grade_ranges); [reflexivity|].
  rewrite bucket_counts_add_up, whole_percentages_one_bucket_each.
  - apply length_map.
  - intros p Hp. apply in_map_iff in Hp. destruct Hp as [r [<- Hr]].
    apply Hwhole. exact Hr.
Qed.

(** The spec's example: three records with percentages 90, 70 and 50
    give the bucket counts A:1, C:1, F:1, mean 70 and median 70. *)
Lemma grade_distribution_example (self : Service) :
  let dist :=
    get_grade_distribution
      (load_results self [graded "a" 90 100; graded "b" 70 100; graded "c" 50 100]) in
  grades dist
    = [("A (90-100%)", 1); ("B (80-89%)", 0); ("C (70-79%)", 1);
       ("D (60-69%)", 0); ("F (0-59%)", 1)] /\
  (average dist == 70)%Q /\ (median_score dist == 70)%Q.
Proof.
  cbv zeta. split; [vm_compute; reflexivity|].
  split; vm_compute; reflexivity.
Qed.

(** C5. On a service that never loaded results and on one that loaded an
    empty list, every query returns its zero or empty default: the model's
    queries are total, and none of them goes past its guard on an empty
    dataset. *)
Theorem queries_on_empty_dataset :
  forall (self : Service) (n : nat),
    Forall
      (fun s =>
         no_data s = true /\
         get_max_questions s = 0 /\
         analyze_question_attempts s n
           = {| attempted_count := 0; total_students := 0; attempt_percentage := 0 |} /\
         get_most_attempted_question s
           = {| question_number := 0; q_count := 0; share := 0 |} /\
         get_most_skipped_question s
           = {| question_number := 0; q_count := 0; share := 0 |} /\
         get_average_questions_attempted s = 0%Q /\
         get_grade_distribution s
           = {| grades := []; average := 0; median_score := 0; std_dev_squared := 0 |} /\
         get_consistent_performers s = [] /\
         get_inconsistent_performers s = [] /\
         get_above_average_percentage s
           = {| above_percentage := 0; above_count := 0; above_total := 0;
                class_average := 0 |})
      [init; load_results self []].
Proof.
  intros self n.
  apply Forall_cons; [repeat split; reflexivity|].
  apply Forall_cons; [repeat split; reflexivity|].
  apply Forall_nil.
Qed.

End Distribution.

(** ** The analytics on example datasets *)

Section AnalyticsExamples.
Import AnalyticsService.
#[local] Existing Instance exact_ops.

(** C4 at a dataset of two records whose question objects carry scores
    but no [attempted] key: question 1 is counted as attempted by none of
    the 2 students. *)
Lemma missing_attempted_key_counts_as_not_attempted_witness :
  let rs := [answered "a" [question None 8 10; question None 0 10];
             answered "b" [question None 10 10]] in
  (forall r q, In r rs -> In q (questions r) -> attempted q = None) /\
  attempted_count (analyze_question_attempts (load_results init rs) 1) = 0%Z /\
  total_students (analyze_question_attempts (load_results init rs) 1) = 2.
Proof.
  intros rs.
  assert (Hall : forall r q, In r rs -> In q (questions r) -> attempted q = None).
  { intros r q [<-|[<-|[]]]; cbn [questions answered In].
    - intros [<-|[<-|[]]]; reflexivity.
    - intros [<-|[]]; reflexivity. }
  split; [exact Hall|]. split.
  - exact (proj2 (proj2 (proj2
             (missing_attempted_key_counts_as_not_attempted init rs 1))) Hall).
  - vm_compute. reflexivity.
Defined.

(** C7 at a dataset where questions 1 and 2 are each attempted once (the
    tie goes to question 1) and question 3 is skipped by both students. *)
Lemma most_attempted_and_skipped_first_maximum_witness :
  let s := load_results init
             [answered "a" [question (Some true) 1 1; question (Some false) 0 1;
                            question (Some false) 0 1];
              answered "b" [question (Some false) 0 1; question (Some true) 1 1]] in
  no_data s = false /\
  0 < get_max_questions s /\
  (1 <= question_number (get_most_attempted_question s) <= get_max_questions s) /\
  get_most_attempted_question s
    = {| question_number := 1; q_count := 1; share := 100 # 2 |} /\
  get_most_skipped_question s
    = {| question_number := 3; q_count := 2; share := 200 # 2 |}.
Proof.
  intros s.
  assert (Hdata : no_data s = false) by (vm_compute; reflexivity).
  assert (Hn : 0 < get_max_questions s) by (vm_compute; lia).
  split; [exact Hdata|]. split; [exact Hn|].
  destruct (most_attempted_and_skipped_first_maximum s Hdata Hn) as [[Hr _] _].
  split; [exact Hr|]. split; vm_compute; reflexivity.
Defined.

(** The spec's example for C8, from the records on: a submission whose
    three questions score 60, 62 and 58 out of 100 is the one consistent
    performer of its dataset; the second submission (10 and 95 out of 100)
    is not. *)
Lemma consistent_performers_example (self : Service) :
  let steady := answered "steady"
                  [question None 60 100; question None 62 100; question None 58 100] in
  let uneven := answered "uneven" [question None 10 100; question None 95 100] in
  map c_filename (get_consistent_performers (load_results self [uneven; steady]))
    = ["steady"] /\
  map i_filename (get_inconsistent_performers (load_results self [uneven; steady]))
    = ["uneven"].
Proof.
  cbv zeta. split; vm_compute; reflexivity.
Qed.

(** X3 at the percentages 90, 89 and 0. *)
Lemma whole_percentages_partitioned_witness :
  let rs := [graded "a" 90 100; graded "b" 89 100; graded "c" 0 100] in
  (forall r, In r rs ->
             exists z, (percentage r == inject_Z z)%Q /\ (0 <= z <= 100)%Z) /\
  graded_total (get_grade_distribution (load_results init rs)) = 3.
Proof.
  intros rs.
  assert (Hwhole : forall r, In r rs ->
             exists z, (percentage r == inject_Z z)%Q /\ (0 <= z <= 100)%Z).
  { intros r [<-|[<-|[<-|[]]]].
    - exists 90%Z. split; [reflexivity | lia].
    - exists 89%Z. split; [reflexivity | lia].
    - exists 0%Z. split; [reflexivity | lia]. }
  split; [exact Hwhole|].
  exact (whole_percentages_partitioned init rs Hwhole).
Defined.

(** X4. [get_max_questions] is the largest number of questions of a loaded
    record (0 for an empty list). *)
Theorem max_questions_is_largest_question_count :
  forall (self : Service) (rs : list GradingRecord),
    get_max_questions (load_results self rs) = max_question_count rs /\
    (forall r, In r rs -> List.length (questions r) <= get_max_questions (load_results self rs)) /\
    (rs = [] \/ exists r, In r rs /\
                         List.length (questions r) = get_max_questions (load_results self rs)).
Proof.
  intros self rs. rewrite get_max_questions_loaded.
  split; [reflexivity|]. split; [apply max_question_count_bound|].
  induction rs as [|x rs IH]; [left; reflexivity|]. right.
  cbn [max_question_count fold_right]. fold (max_question_count rs).
  destruct (Nat.le_gt_cases (max_question_count rs) (List.length (questions x))) as [Hx|Hx].
  - exists x. split; [left; reflexivity | lia].
  - destruct IH as [->|[r [Hr Hlen]]]; [cbn in Hx; lia|].
    exists r. split; [right; exact Hr | lia].
Qed.

End AnalyticsExamples.

(* ===================================================================== *)
(** * Further properties of the code *)
(* ===================================================================== *)

(** ** Strings: concatenation, stripping and searching *)

Lemma count_app (c : ascii) (a b : string) :
  count c (a ++ b) = count c a + count c b.
Proof.
  induction a as [|x a IH]; [reflexivity|].
  cbn [append count]. rewrite IH. lia.
Qed.

Lemma length_app_s (a b : string) :
  String.length (a ++ b) = String.length a + String.length b.
Proof.
  induction a as [|x a IH]; [reflexivity|]. cbn [append String.length].
  rewrite IH. reflexivity.
Qed.

(** A text without white space at either end. *)
Lemma lstrip_head (c : ascii) (r : string) :
  isspace c = false -> lstrip (String c r) = String c r.
Proof. intros H. cbn [lstrip]. rewrite H. reflexivity. Qed.

Lemma lstrip_fixed (s : string) : lstrip (lstrip s) = lstrip s.
Proof.
  induction s as [|c r IH]; [reflexivity|].
  cbn [lstrip]. destruct (isspace c) eqn:E; [exact IH|].
  cbn [lstrip]. rewrite E. reflexivity.
Qed.

Lemma lstrip_shape (s : string) :
  lstrip s = EmptyString \/ exists c r, lstrip s = String c r /\ isspace c = false.
Proof.
  induction s as [|c r IH]; [left; reflexivity|].
  cbn [lstrip]. destruct (isspace c) eqn:E; [exact IH|].
  right. exists c, r. split; [reflexivity | exact E].
Qed.

Lemma rstrip_cons (c : ascii) (r : string) :
  rstrip r <> EmptyString -> rstrip (String c r) = String c (rstrip r).
Proof.
  intros H. cbn [rstrip]. destruct (rstrip r); [contradiction H; reflexivity|].
  reflexivity.
Qed.

Lemma rstrip_cons_head (c : ascii) (r : string) :
  isspace c = false -> rstrip (String c r) = String c (rstrip r).
Proof.
  intros H. cbn [rstrip]. destruct (rstrip r); [rewrite H|]; reflexivity.
Qed.

Lemma rstrip_fixed (s : string) : rstrip (rstrip s) = rstrip s.
Proof.
  induction s as [|c r IH]; [reflexivity|].
  cbn [rstrip]. destruct (rstrip r) as [|c' r'] eqn:E.
  - destruct (isspace c) eqn:Ec; [reflexivity|].
    cbn [rstrip]. rewrite Ec. reflexivity.
  - rewrite rstrip_cons; [rewrite IH; reflexivity|].
    rewrite IH. discriminate.
Qed.

Lemma strip_shape (s : string) :
  strip s = EmptyString \/ exists c r, strip s = String c r /\ isspace c = false.
Proof.
  unfold strip. destruct (lstrip_shape s) as [->|[c [r [-> Hc]]]].
  - left. reflexivity.
  - right. exists c, (rstrip r). split; [apply rstrip_cons_head; exact Hc | exact Hc].
Qed.

Lemma strip_rstrip (s : string) : rstrip (strip s) = strip s.
Proof. unfold strip. apply rstrip_fixed. Qed.

Lemma strip_lstrip (s : string) : lstrip (strip s) = strip s.
Proof.
  destruct (strip_shape s) as [->|[c [r [-> Hc]]]]; [reflexivity|].
  apply lstrip_head. exact Hc.
Qed.

Lemma strip_fixed (s : string) : strip (strip s) = strip s.
Proof.
  unfold strip at 1. rewrite strip_lstrip. apply strip_rstrip.
Qed.

Lemma rstrip_no_space (s : string) : no_space s -> rstrip s = s.
Proof.
  induction s as [|c r IH]; [reflexivity|].
  intros [Hc Hr]. rewrite rstrip_cons_head by exact Hc. rewrite (IH Hr). reflexivity.
Qed.

Lemma rstrip_app (a b : string) :
  rstrip b = b -> b <> EmptyString -> rstrip (a ++ b) = (a ++ b)%string.
Proof.
  intros Hb Hne. induction a as [|x a IH]; [exact Hb|].
  cbn [append]. rewrite rstrip_cons; rewrite IH; [reflexivity|].
  destruct a; cbn [append]; [exact Hne | discriminate].
Qed.

Lemma rstrip_app_no_space (a b : string) :
  rstrip a = a -> no_space b -> rstrip (a ++ b) = (a ++ b)%string.
Proof.
  intros Ha Hb. destruct b as [|c b].
  - rewrite append_empty_r. exact Ha.
  - apply rstrip_app; [apply rstrip_no_space; exact Hb | discriminate].
Qed.

Lemma lstrip_app (a b : string) :
  lstrip a = a -> a <> EmptyString -> lstrip (a ++ b) = (a ++ b)%string.
Proof.
  intros Ha Hne. destruct a as [|c a]; [contradiction Hne; reflexivity|].
  cbn [append lstrip] in *. destruct (isspace c) eqn:E; [|reflexivity].
  exfalso. assert (Hlen : String.length (lstrip a) <= String.length a).
  { clear. induction a as [|x a IH]; [constructor|].
    cbn [lstrip]. destruct (isspace x); cbn [String.length]; lia. }
  rewrite Ha in Hlen. cbn [String.length] in Hlen. lia.
Qed.

(** ** Searching and slicing *)

Lemma find_absent (c : ascii) (s : string) : count c s = 0 -> find c s = None.
Proof.
  induction s as [|a r IH]; [reflexivity|].
  intros H. apply count_zero_cons in H. destruct H as [Ha Hr].
  cbn [find]. rewrite Ha, (IH Hr). reflexivity.
Qed.

Lemma count_lstrip (c : ascii) (s : string) : count c (lstrip s) <= count c s.
Proof.
  induction s as [|a r IH]; [constructor|].
  cbn [lstrip]. destruct (isspace a); [cbn [count]; lia | constructor].
Qed.

Lemma count_rstrip (c : ascii) (s : string) : count c (rstrip s) <= count c s.
Proof.
  induction s as [|a r IH]; [constructor|].
  cbn [rstrip]. destruct (rstrip r) as [|b r'].
  - destruct (isspace a); cbn [count] in *; lia.
  - cbn [count] in *. lia.
Qed.

Lemma count_strip (c : ascii) (s : string) : count c (strip s) <= count c s.
Proof.
  unfold strip. pose proof (count_rstrip c (lstrip s)). pose proof (count_lstrip c s). lia.
Qed.

Lemma find_app_first (c : ascii) (a rest : string) :
  count c a = 0 -> find c (a ++ String c rest) = Some (String.length a).
Proof.
  induction a as [|x a IH]; intros H.
  - cbn [append find]. rewrite Ascii.eqb_refl. reflexivity.
  - apply count_zero_cons in H. destruct H as [Hx Ha].
    cbn [append find String.length]. rewrite Hx, (IH Ha). reflexivity.
Qed.

Lemma rfind_app_last (c : ascii) (a rest : string) :
  count c rest = 0 -> rfind c (a ++ String c rest) = Some (String.length a).
Proof.
  intros H. induction a as [|x a IH].
  - cbn [append rfind String.length]. rewrite (rfind_absent c rest H), Ascii.eqb_refl.
    reflexivity.
  - cbn [append rfind String.length]. rewrite IH. reflexivity.
Qed.

Lemma drop_app_length (a b : string) : drop (String.length a) (a ++ b) = b.
Proof.
  induction a as [|x a IH]; [destruct b; reflexivity|]. exact IH.
Qed.

Lemma take_app_length (a b : string) : take (String.length a) (a ++ b) = a.
Proof.
  induction a as [|x a IH]; [destruct b; reflexivity|].
  cbn [String.length append take]. rewrite IH. reflexivity.
Qed.

Lemma lstrip_app_head (a : string) (c : ascii) (b : string) :
  isspace c = false -> lstrip (a ++ String c b) = (lstrip a ++ String c b)%string.
Proof.
  intros Hc. induction a as [|x a IH].
  - cbn [append lstrip]. rewrite Hc. reflexivity.
  - cbn [append lstrip]. destruct (isspace x); [exact IH | reflexivity].
Qed.

Lemma rstrip_app_tail (a : string) (c : ascii) (b : string) :
  isspace c = false -> rstrip (a ++ String c b) = (a ++ String c (rstrip b))%string.
Proof.
  intros Hc. induction a as [|x a IH].
  - cbn [append]. apply rstrip_cons_head. exact Hc.
  - cbn [append]. rewrite rstrip_cons; rewrite IH; [reflexivity|].
    destruct a; discriminate.
Qed.

Lemma rstrip_tail (c : ascii) (r : string) :
  rstrip (String c r) = String c r -> rstrip r = r.
Proof.
  cbn [rstrip]. destruct (rstrip r) as [|c' r'] eqn:E.
  - destruct (isspace c); intros H; [discriminate H|].
    injection H as <-. reflexivity.
  - intros H. injection H as <-. reflexivity.
Qed.

Lemma rstrip_drop (s : string) :
  rstrip s = s -> forall i, rstrip (drop i s) = drop i s.
Proof.
  induction s as [|c r IH]; intros H i; [destruct i; reflexivity|].
  destruct i as [|i]; [exact H|].
  cbn [drop]. apply IH. apply (rstrip_tail c r H).
Qed.

Lemma rfind_split (c : ascii) (s : string) :
  forall j, rfind c s = Some j ->
            exists a b, s = (a ++ String c b)%string /\ String.length a = j.
Proof.
  induction s as [|x s IH]; intros j H; [discriminate H|].
  cbn [rfind] in H. destruct (rfind c s) as [i|].
  - injection H as <-. destruct (IH i eq_refl) as [a [b [-> Hlen]]].
    exists (String x a), b. split; [reflexivity|]. cbn [String.length]. rewrite Hlen.
    reflexivity.
  - destruct (Ascii.eqb x c) eqn:E; [|discriminate H].
    injection H as <-. apply Ascii.eqb_eq in E. subst x.
    exists EmptyString, s. split; reflexivity.
Qed.

Lemma drop_app_le (a b : string) :
  forall i, i <= String.length a -> drop i (a ++ b) = (drop i a ++ b)%string.
Proof.
  induction a as [|x a IH]; intros i Hi.
  - cbn [String.length] in Hi. replace i with 0 by lia. reflexivity.
  - destruct i as [|i]; [reflexivity|].
    cbn [append drop]. apply IH. cbn [String.length] in Hi. lia.
Qed.

Lemma length_drop (a : string) :
  forall i, String.length (drop i a) = String.length a - i.
Proof.
  induction a as [|x a IH]; intros i; [destruct i; reflexivity|].
  destruct i as [|i]; [reflexivity|]. cbn [drop String.length]. apply IH.
Qed.

(** ** The repair: what it leaves behind *)

Section RepairExtras.
Import GradingService.

Lemma balance_app (a b : string) :
  forall stack, balance (a ++ b) stack = balance b (balance a stack).
Proof.
  induction a as [|x a IH]; intros stack; [reflexivity|].
  cbn [append balance].
  destruct (is_opener x); [apply IH|].
  destruct (is_closer x); [|apply IH].
  destruct stack as [|top below]; [apply IH|].
  destruct ((Ascii.eqb x "}" && Ascii.eqb top "{")
            || (Ascii.eqb x "]" && Ascii.eqb top "[")); apply IH.
Qed.

Lemma balance_openers (s : string) :
  forall stack,
    Forall (fun c => is_opener c = true) stack ->
    Forall (fun c => is_opener c = true) (balance s stack).
Proof.
  induction s as [|x s IH]; intros stack Hst; [exact Hst|].
  cbn [balance]. destruct (is_opener x) eqn:Eo.
  - apply IH. constructor; [exact Eo | exact Hst].
  - destruct (is_closer x); [|apply IH; exact Hst].
    destruct stack as [|top below]; [apply IH; exact Hst|].
    destruct ((Ascii.eqb x "}" && Ascii.eqb top "{")
              || (Ascii.eqb x "]" && Ascii.eqb top "[")).
    + apply IH. inversion Hst; assumption.
    + apply IH. exact Hst.
Qed.

Lemma is_opener_cases (c : ascii) :
  is_opener c = true -> c = "{"%char \/ c = "["%char.
Proof.
  unfold is_opener. rewrite orb_true_iff, !Ascii.eqb_eq. tauto.
Qed.

Lemma balance_close_open (stack : list ascii) :
  Forall (fun c => is_opener c = true) stack ->
  balance (close_open stack) stack = [].
Proof.
  induction stack as [|o below IH]; intros Hst; [reflexivity|].
  inversion Hst as [|? ? Ho Hbelow]; subst.
  destruct (is_opener_cases o Ho) as [-> | ->]; cbn; apply IH; exact Hbelow.
Qed.

Lemma close_open_count_quote (stack : list ascii) :
  count dquote (close_open stack) = 0.
Proof.
  induction stack as [|o below IH]; [reflexivity|].
  cbn [close_open]. rewrite count_app, IH.
  destruct (Ascii.eqb o "{"); [reflexivity|].
  destruct (Ascii.eqb o "["); reflexivity.
Qed.

Lemma close_open_no_space (stack : list ascii) : no_space (close_open stack).
Proof.
  induction stack as [|o below IH]; [exact I|].
  cbn [close_open].
  destruct (Ascii.eqb o "{"); [split; [reflexivity | exact IH]|].
  destruct (Ascii.eqb o "["); [split; [reflexivity | exact IH] | exact IH].
Qed.

Lemma close_open_all_closers (stack : list ascii) : all_closers (close_open stack).
Proof.
  induction stack as [|o below IH]; [exact Logic.I|].
  cbn [close_open].
  destruct (Ascii.eqb o "{"); [split; [reflexivity | exact IH]|].
  destruct (Ascii.eqb o "["); [split; [reflexivity | exact IH] | exact IH].
Qed.

Lemma balance_quotes_even (s : string) :
  Nat.modulo (count dquote (balance_quotes s)) 2 = 0.
Proof.
  unfold balance_quotes.
  destruct (Nat.eqb (Nat.modulo (count dquote s) 2) 0) eqn:E.
  - apply Nat.eqb_eq. exact E.
  - apply Nat.eqb_neq in E. rewrite count_app.
    change (count dquote (String dquote EmptyString)) with 1.
    pose proof (Nat.mod_upper_bound (count dquote s) 2 ltac:(lia)) as Hb.
    pose proof (Nat.div_mod_eq (count dquote s) 2) as Hd.
    pose proof (Nat.div_mod_eq (count dquote s + 1) 2) as Hd'.
    pose proof (Nat.mod_upper_bound (count dquote s + 1) 2 ltac:(lia)) as Hb'.
    lia.
Qed.

Lemma balance_quotes_fixed (s : string) :
  Nat.modulo (count dquote s) 2 = 0 -> balance_quotes s = s.
Proof.
  intros H. unfold balance_quotes. rewrite H. reflexivity.
Qed.

Lemma repair_even_quotes (s : string) :
  Nat.modulo (count dquote (_repair_json s)) 2 = 0.
Proof.
  unfold _repair_json. cbv zeta. rewrite count_app, close_open_count_quote, Nat.add_0_r.
  apply balance_quotes_even.
Qed.

Lemma repair_balanced (s : string) : balance (_repair_json s) [] = [].
Proof.
  unfold _repair_json. cbv zeta. rewrite balance_app.
  apply balance_close_open. apply balance_openers. constructor.
Qed.

Lemma balance_quotes_stripped (s : string) :
  strip (balance_quotes (strip s)) = balance_quotes (strip s).
Proof.
  unfold balance_quotes.
  destruct (Nat.eqb (Nat.modulo (count dquote (strip s)) 2) 0); [apply strip_fixed|].
  destruct (strip s) as [|c r] eqn:E; [reflexivity|].
  unfold strip at 1. rewrite lstrip_app.
  - apply rstrip_app; [reflexivity | discriminate].
  - rewrite <- E. apply strip_lstrip.
  - discriminate.
Qed.

Lemma stripped_ends (t : string) : strip t = t -> lstrip t = t /\ rstrip t = t.
Proof.
  intros H. split.
  - rewrite <- H. apply strip_lstrip.
  - rewrite <- H. apply strip_rstrip.
Qed.

Lemma stripped_app_no_space (t u : string) :
  strip t = t -> t <> EmptyString -> no_space u -> strip (t ++ u) = (t ++ u)%string.
Proof.
  intros Ht Hne Hu. destruct (stripped_ends t Ht) as [Hl Hr].
  unfold strip. rewrite lstrip_app by assumption.
  apply rstrip_app_no_space; assumption.
Qed.

Lemma repair_stripped (s : string) : strip (_repair_json s) = _repair_json s.
Proof.
  unfold _repair_json. cbv zeta.
  pose proof (balance_quotes_stripped s) as Ht.
  destruct (balance_quotes (strip s)) as [|c r] eqn:E; [reflexivity|].
  apply stripped_app_no_space;
    [exact Ht | discriminate | apply close_open_no_space].
Qed.

Lemma repair_fixed (t : string) :
  strip t = t -> Nat.modulo (count dquote t) 2 = 0 -> balance t [] = [] ->
  _repair_json t = t.
Proof.
  intros Hs Hq Hb. unfold _repair_json. cbv zeta.
  rewrite Hs, (balance_quotes_fixed t Hq), Hb. apply append_empty_r.
Qed.

(** X5. A repaired text needs no further repair: it has an even number of
    quotation marks, the bracket scan of [_repair_json] ends on it with an
    empty stack, and repairing it again returns it unchanged. *)
Theorem repair_is_idempotent :
  forall s : string,
    Nat.modulo (count dquote (_repair_json s)) 2 = 0 /\
    balance (_repair_json s) [] = [] /\
    _repair_json (_repair_json s) = _repair_json s.
Proof.
  intros s. split; [apply repair_even_quotes|].
  split; [apply repair_balanced|].
  apply repair_fixed;
    [apply repair_stripped | apply repair_even_quotes | apply repair_balanced].
Qed.

Lemma balance_length (s : string) :
  forall stack,
    List.length (balance s stack)
    <= List.length stack + count "{" s + count "[" s.
Proof.
  induction s as [|x s IH]; intros stack; [cbn; lia|].
  cbn [balance count]. unfold is_opener.
  destruct (Ascii.eqb x "{") eqn:E1; cbn [orb].
  - specialize (IH (x :: stack)). cbn [List.length] in IH.
    destruct (Ascii.eqb x "["); lia.
  - destruct (Ascii.eqb x "[") eqn:E2.
    + specialize (IH (x :: stack)). cbn [List.length] in IH. lia.
    + destruct (is_closer x); [|specialize (IH stack); lia].
      destruct stack as [|top below]; [specialize (IH []); lia|].
      destruct ((Ascii.eqb x "}" && Ascii.eqb top "{")
                || (Ascii.eqb x "]" && Ascii.eqb top "[")).
      * specialize (IH below). cbn [List.length]. lia.
      * specialize (IH (top :: below)). lia.
Qed.

Lemma close_open_length (stack : list ascii) :
  String.length (close_open stack) <= List.length stack.
Proof.
  induction stack as [|o below IH]; [constructor|].
  cbn [close_open List.length]. rewrite length_app_s.
  destruct (Ascii.eqb o "{"); [cbn [String.length]; lia|].
  destruct (Ascii.eqb o "["); cbn [String.length]; lia.
Qed.

(** X6. The repair only appends: its result is the stripped text, then
    one quotation mark exactly when the stripped text has an odd number of
    them, then closing braces and brackets only, no more of them than the
    stripped text has opening ones, and none when the bracket scan ends
    with an empty stack. No character of the stripped text is removed or
    changed. *)
Theorem repair_only_appends :
  forall s : string,
    exists quote closers,
      _repair_json s = (strip s ++ quote ++ closers)%string /\
      (quote = EmptyString \/ quote = String dquote EmptyString) /\
      (quote = EmptyString <-> Nat.modulo (count dquote (strip s)) 2 = 0) /\
      all_closers closers /\
      String.length closers <= count "{" (strip s) + count "[" (strip s) /\
      (balance (strip s ++ quote) [] = [] -> closers = EmptyString).
Proof.
  intros s. unfold _repair_json, balance_quotes. cbv zeta.
  destruct (Nat.eqb (Nat.modulo (count dquote (strip s)) 2) 0) eqn:E.
  - apply Nat.eqb_eq in E.
    exists EmptyString, (close_open (balance (strip s) [])).
    split; [reflexivity|]. split; [left; reflexivity|].
    split; [split; [intros _; exact E | reflexivity]|].
    split; [apply close_open_all_closers|].
    split.
    + pose proof (close_open_length (balance (strip s) [])) as H1.
      pose proof (balance_length (strip s) []) as H2. cbn [List.length] in H2. lia.
    + rewrite append_empty_r. intros Hb. rewrite Hb. reflexivity.
  - apply Nat.eqb_neq in E.
    exists (String dquote EmptyString),
           (close_open (balance (strip s ++ String dquote EmptyString) [])).
    split; [rewrite append_assoc_s; reflexivity|].
    split; [right; reflexivity|].
    split; [split; [intros H; discriminate H | intros H; contradiction]|].
    split; [apply close_open_all_closers|].
    split.
    + pose proof (close_open_length (balance (strip s ++ String dquote EmptyString) []))
        as H1.
      pose proof (balance_length (strip s ++ String dquote EmptyString) []) as H2.
      rewrite !count_app in H2. cbn [List.length] in H2.
      change (count "{" (String dquote EmptyString)) with 0 in H2.
      change (count "[" (String dquote EmptyString)) with 0 in H2. lia.
    + intros Hb. rewrite Hb. reflexivity.
Qed.

End RepairExtras.

(** ** The response normaliser: outcomes *)

Section ResponseExtras.
Import GradingService.
Context {interp : Interpreter}.

(** X7. A response without an opening brace is answered with the error
    record that quotes it: the awarded score is 0 and the text is not
    searched for a score, whatever it says. *)
Theorem response_without_brace_is_error :
  forall (response : string) (tm : Z),
    count "{" response = 0 ->
    _parse_grading_response response tm
    = Return (_create_error_result
                ("Gemini did not return JSON:" ++ newline ++ strip response)) /\
    (forall r, _parse_grading_response response tm = Return r ->
               total_score r = VInt 0 /\ percentage r = VInt 0 /\
               feedback r
               = ("Error during grading: Gemini did not return JSON:"
                    ++ newline ++ strip response)%string).
Proof.
  intros response tm H.
  assert (Hfind : find "{" (strip response) = None).
  { apply find_absent. pose proof (count_strip "{" response). lia. }
  assert (Hres : _parse_grading_response response tm
                 = Return (_create_error_result
                             ("Gemini did not return JSON:" ++ newline ++ strip response))).
  { unfold _parse_grading_response, parse_body. rewrite Hfind. reflexivity. }
  split; [exact Hres|].
  intros r Hr. rewrite Hres in Hr. injection Hr as <-.
  split; [reflexivity|]. split; reflexivity.
Qed.

(** The text handed to the decoder when a payload is wrapped in other
    text. *)
Lemma region_of_wrapped (prefix mid suffix : string) :
  count "{" prefix = 0 -> count "}" suffix = 0 ->
  exists start,
    find "{" (strip (prefix ++ String "{" (mid ++ String "}" suffix))) = Some start /\
    json_region (strip (prefix ++ String "{" (mid ++ String "}" suffix))) start
    = String "{" (mid ++ String "}" EmptyString).
Proof.
  intros Hp Hs.
  assert (Hraw : strip (prefix ++ String "{" (mid ++ String "}" suffix))
                 = (lstrip prefix ++ String "{" (mid ++ String "}" (rstrip suffix)))%string).
  { unfold strip. rewrite lstrip_app_head by reflexivity.
    change (lstrip prefix ++ String "{" (mid ++ String "}" suffix))%string
      with (lstrip prefix ++ (String "{" mid ++ String "}" suffix))%string.
    rewrite <- append_assoc_s. rewrite rstrip_app_tail by reflexivity.
    rewrite append_assoc_s. reflexivity. }
  rewrite Hraw.
  assert (Hp' : count "{" (lstrip prefix) = 0)
    by (pose proof (count_lstrip "{" prefix); lia).
  assert (Hs' : count "}" (rstrip suffix) = 0)
    by (pose proof (count_rstrip "}" suffix); lia).
  exists (String.length (lstrip prefix)).
  split; [apply find_app_first; exact Hp'|].
  unfold json_region.
  change (lstrip prefix ++ String "{" (mid ++ String "}" (rstrip suffix)))%string
    with (lstrip prefix ++ (String "{" mid ++ String "}" (rstrip suffix)))%string.
  rewrite <- append_assoc_s.
  rewrite (rfind_app_last "}" (lstrip prefix ++ String "{" mid) (rstrip suffix) Hs').
  rewrite length_app_s. cbn [String.length].
  assert (Hlt : (String.length (lstrip prefix)
                 <? String.length (lstrip prefix) + S (String.length mid)) = true)
    by (apply Nat.ltb_lt; lia).
  rewrite Hlt. unfold slice.
  rewrite append_assoc_s, drop_app_length.
  replace (String.length (lstrip prefix) + S (String.length mid) + 1
           - String.length (lstrip prefix))
    with (String.length (String "{" mid ++ String "}" EmptyString))
    by (rewrite length_app_s; cbn [String.length]; lia).
  replace (String "{" mid ++ String "}" (rstrip suffix))%string
    with ((String "{" mid ++ String "}" EmptyString) ++ rstrip suffix)%string
    by (rewrite append_assoc_s; reflexivity).
  apply take_app_length.
Qed.

Lemma parse_body_not_decode_error (response : string) (tm : Z) (start : nat) (v : value) :
  find "{" (strip response) = Some start ->
  parse_or_repair (json_region (strip response) start) = Return v ->
  parse_body response tm <> Raise JSONDecodeError.
Proof.
  intros Hf Hp. unfold parse_body. rewrite Hf, Hp. cbn [bind].
  destruct v; try discriminate.
  destruct (normalize_outcome d tm) as [[r ->] | ->]; discriminate.
Qed.

(** X8. Text around the payload is ignored: when the payload, from its
    opening brace to its closing brace, can be parsed (as it is or after
    repair), a response that wraps it in a prefix without an opening brace
    and a suffix without a closing brace is answered like the payload
    alone. *)
Theorem wrapped_payload_same_as_bare :
  forall (prefix mid suffix : string) (tm : Z) (v : value),
    count "{" prefix = 0 -> count "}" suffix = 0 ->
    parse_or_repair (String "{" (mid ++ String "}" EmptyString)) = Return v ->
    _parse_grading_response (prefix ++ String "{" (mid ++ String "}" suffix)) tm
    = _parse_grading_response (String "{" (mid ++ String "}" EmptyString)) tm.
Proof.
  intros prefix mid suffix tm v Hp Hs Hv.
  destruct (region_of_wrapped prefix mid suffix Hp Hs) as [start [Hf Hr]].
  destruct (region_of_wrapped EmptyString mid EmptyString eq_refl eq_refl)
    as [start0 [Hf0 Hr0]].
  cbn [append] in Hf0, Hr0.
  assert (Hbody : parse_body (prefix ++ String "{" (mid ++ String "}" suffix)) tm
                  = parse_body (String "{" (mid ++ String "}" EmptyString)) tm).
  { unfold parse_body. rewrite Hf, Hf0, Hr, Hr0. reflexivity. }
  unfold _parse_grading_response. rewrite Hbody.
  pose proof (parse_body_not_decode_error
                (String "{" (mid ++ String "}" EmptyString)) tm start0 v Hf0) as Hne.
  rewrite Hr0 in Hne. specialize (Hne Hv).
  destruct (parse_body (String "{" (mid ++ String "}" EmptyString)) tm) as [r|e];
    [reflexivity|].
  destruct e; try reflexivity. contradiction Hne. reflexivity.
Qed.

End ResponseExtras.

Section FeedbackExtras.
Import GradingService.
Context {interp : Interpreter}.

Lemma strings_of_text (parts : list value) :
  forallb is_text parts = true -> exists ss, strings_of parts = Return ss.
Proof.
  induction parts as [|p parts IH]; intros H; [exists []; reflexivity|].
  cbn [forallb] in H. apply andb_true_iff in H. destruct H as [Hp Hps].
  destruct p; try discriminate Hp.
  destruct (IH Hps) as [ss Hss]. cbn [strings_of]. rewrite Hss.
  eexists. reflexivity.
Qed.

Lemma strings_of_not_text (parts : list value) :
  forallb is_text parts = false -> strings_of parts = Raise TypeError.
Proof.
  induction parts as [|p parts IH]; intros H; [discriminate H|].
  cbn [forallb] in H.
  destruct p; try reflexivity.
  cbn [is_text andb] in H. cbn [strings_of]. rewrite (IH H). reflexivity.
Qed.

Lemma labelled_list_cases (label : string) (v : value) (parts : list value) :
  (truthy v && negb (iterable v) = true /\
   labelled_list label v parts = Raise TypeError)
  \/ (truthy v && negb (iterable v) = false /\
      exists extra, labelled_list label v parts = Return (parts ++ extra)
                    /\ forallb is_text extra = true).
Proof.
  unfold labelled_list. destruct (truthy v) eqn:Et.
  - destruct v; cbn [iterable negb andb iterate bind];
      try (left; split; reflexivity);
      right; (split; [reflexivity|]); eexists; (split; [reflexivity|]); reflexivity.
  - right. split; [reflexivity|]. exists []. rewrite app_nil_r. split; reflexivity.
Qed.

Lemma combine_feedback_cases (d : dict) :
  (unusable_feedback d = true /\ _combine_feedback d = Raise TypeError)
  \/ (unusable_feedback d = false /\ exists fb, _combine_feedback d = Return fb).
Proof.
  unfold _combine_feedback, unusable_feedback. cbv zeta.
  set (overall := dict_get d "overall_feedback" VNone).
  set (vs := dict_get d "strengths" VNone).
  set (va := dict_get d "areas_for_improvement" VNone).
  set (vj := dict_get d "grade_justification" VNone).
  set (parts0 := if truthy overall then ([] ++ [overall])%list else []).
  destruct (labelled_list_cases "**Strengths:**" vs parts0) as [[Hs ->]|[Hs [e1 [-> H1]]]].
  { left. rewrite Hs, orb_true_r. split; reflexivity. }
  cbn [bind].
  destruct (labelled_list_cases "**Areas for Improvement:**" va (parts0 ++ e1))
    as [[Ha ->]|[Ha [e2 [-> H2]]]].
  { left. rewrite Ha, orb_true_r. split; reflexivity. }
  cbn [bind]. rewrite Hs, Ha, !orb_false_r.
  set (parts := if truthy vj then _ else _).
  assert (Hparts : forallb is_text parts = is_text overall || negb (truthy overall)).
  { subst parts parts0.
    destruct (truthy vj); destruct (truthy overall);
      rewrite ?forallb_app, ?H1, ?H2; cbn [forallb is_text app andb negb];
      rewrite ?andb_true_r, ?orb_false_r, ?orb_true_r; reflexivity. }
  destruct (truthy overall && negb (is_text overall)) eqn:Eo.
  - left. split; [reflexivity|].
    apply andb_true_iff in Eo. destruct Eo as [Eo1 Eo2].
    apply negb_true_iff in Eo2. rewrite Eo1, Eo2 in Hparts. cbn in Hparts.
    rewrite (strings_of_not_text parts Hparts). reflexivity.
  - right. split; [reflexivity|].
    assert (Hp : forallb is_text parts = true).
    { rewrite Hparts. destruct (truthy overall); destruct (is_text overall);
        try reflexivity. discriminate Eo. }
    destruct (strings_of_text parts Hp) as [ss ->]. eexists. reflexivity.
Qed.

Lemma normalize_unusable_feedback (d : dict) (tm : Z) :
  unusable_feedback d = true -> normalize d tm = Raise TypeError.
Proof.
  intros H. destruct (combine_feedback_cases d) as [[_ Hc]|[Hf _]]; [|congruence].
  destruct (normalize_outcome d tm) as [[r Hr]|Hr]; [|exact Hr].
  exfalso. unfold normalize in Hr.
  destruct (py_min (dict_get d "total_score" (VInt 0)) tm);
    cbn [bind] in Hr; [rewrite Hc in Hr|]; discriminate.
Qed.

(** *** Scores are never above the total *)

Lemma py_min_not_above (a : value) (b : Z) (v : value) :
  py_min a b = Return v -> not_above v b.
Proof.
  unfold py_min. destruct (as_number a) as [q|] eqn:Ea.
  - intros H. injection H as <-.
    destruct (Qlt_bool (inject_Z b) q) eqn:E.
    + exists (inject_Z b). split; [reflexivity | apply Qle_refl].
    + apply Qlt_bool_false_iff in E.
      destruct a; try discriminate Ea; exists q; split; assumption.
  - destruct a as [| | | |[|]| | | |]; intros H; try discriminate H;
      injection H as <-.
    + reflexivity.
    + exists (inject_Z b). split; [reflexivity | apply Qle_refl].
    + exact Logic.I.
Qed.

Lemma normalize_not_above (d : dict) (tm : Z) (r : GradingResult) :
  normalize d tm = Return r -> not_above (total_score r) tm.
Proof.
  unfold normalize.
  destruct (py_min (dict_get d "total_score" (VInt 0)) tm) as [score|e] eqn:Hmin;
    cbn [bind]; [|discriminate].
  apply py_min_not_above in Hmin.
  destruct (_combine_feedback d) as [fb|e]; cbn [bind]; [|discriminate].
  destruct (py_positive score).
  - destruct (py_percent score tm) as [p|e]; cbn [bind]; [|discriminate].
    intros H. injection H as <-. exact Hmin.
  - intros H. injection H as <-. exact Hmin.
Qed.

Lemma error_record_not_above (msg : string) (tm : Z) :
  (0 <= tm)%Z -> not_above (total_score (_create_error_result msg)) tm.
Proof.
  intros Htm. exists 0%Q. split; [reflexivity | apply inject_Z_nonneg; exact Htm].
Qed.

Lemma not_above_number (v : value) (c : Q) (tm : Z) :
  as_number v = Some c -> (c <= inject_Z tm)%Q -> not_above v tm.
Proof.
  intros Hc Hle. destruct v; try discriminate Hc; exists c; split; assumption.
Qed.

Lemma parse_response_not_above (response : string) (tm : Z) :
  (0 <= tm)%Z ->
  exists r, _parse_grading_response response tm = Return r /\
            not_above (total_score r) tm.
Proof.
  intros Htm. unfold _parse_grading_response.
  destruct (parse_body response tm) as [r|e] eqn:Hb.
  - exists r. split; [reflexivity|].
    unfold parse_body in Hb.
    destruct (find "{" (strip response)) as [start|]; [|discriminate Hb].
    destruct (parse_or_repair (json_region (strip response) start)) as [v|e];
      cbn [bind] in Hb; [|discriminate Hb].
    destruct v; try discriminate Hb.
    apply (normalize_not_above d tm r Hb).
  - assert (Herr : forall msg,
               exists r, Return (_create_error_result msg) = Return r /\
                         not_above (total_score r) tm).
    { intros msg. eexists. split; [reflexivity|].
      apply error_record_not_above. exact Htm. }
    destruct e; try apply Herr.
    destruct (fallback_score_range response tm Htm) as [r [c [Hr [Hc [_ Hle]]]]].
    exists r. split; [exact Hr|]. apply (not_above_number _ c tm Hc Hle).
Qed.

End FeedbackExtras.

Section Objects.
Import Json.

Lemma object_pairs_object (fuel : nat) :
  forall pairs s v rest,
    object_pairs fuel pairs s = Scanned v rest -> exists d, v = VDict d.
Proof.
  induction fuel as [|fuel IH]; intros pairs s v rest H; [discriminate H|].
  cbn [object_pairs] in H.
  destruct (scanstring s) as [[key r]|]; [|discriminate H].
  destruct (skip_ws r) as [|c r1]; [discriminate H|].
  destruct (Ascii.eqb c ":"); [|discriminate H].
  destruct (scan_once fuel (skip_ws r1)) as [v' r2| |]; try discriminate H.
  cbv zeta in H.
  destruct (skip_ws r2) as [|c2 r3]; [discriminate H|].
  destruct (Ascii.eqb c2 "}").
  - injection H as <- _. eexists. reflexivity.
  - destruct (Ascii.eqb c2 ","); [|discriminate H].
    destruct (skip_ws r3) as [|c3 r4]; [discriminate H|].
    destruct (Ascii.eqb c3 dquote); [|discriminate H].
    apply (IH _ _ _ _ H).
Qed.

Lemma loads_brace_object (r : string) (v : value) :
  loads (String "{" r) = Return v -> exists d, v = VDict d.
Proof.
  unfold loads, decode.
  change (skip_ws (String "{" r)) with (String "{" r).
  set (fuel := 2 * String.length (String "{" r) + 1).
  destruct fuel as [|fuel]; [discriminate|].
  cbn [scan_once].
  change (Ascii.eqb "{" dquote) with false. change (Ascii.eqb "{" "{") with true.
  cbv iota.
  destruct (skip_ws r) as [|c1 r1]; [discriminate|].
  destruct (Ascii.eqb c1 "}").
  - destruct (skip_ws r1); intros H; [|discriminate H].
    injection H as <-. eexists. reflexivity.
  - destruct (Ascii.eqb c1 dquote); [|discriminate].
    destruct (object_pairs fuel [] r1) as [v' rest| |] eqn:E; try discriminate.
    destruct (skip_ws rest); intros H; [|discriminate H].
    injection H as <-. apply (object_pairs_object _ _ _ _ _ E).
Qed.

End Objects.

Section Outcomes.
Import GradingService.
Context {interp : Interpreter}.

Lemma drop_find (c : ascii) (s : string) :
  forall i, find c s = Some i -> exists r, drop i s = String c r.
Proof.
  induction s as [|a s IH]; intros i H; [discriminate H|].
  cbn [find] in H. destruct (Ascii.eqb a c) eqn:E.
  - injection H as <-. apply Ascii.eqb_eq in E. subst a. exists s. reflexivity.
  - destruct (find c s) as [j|]; [|discriminate H].
    injection H as <-. cbn [drop]. apply IH. reflexivity.
Qed.

Lemma json_region_brace (raw : string) (start : nat) :
  find "{" raw = Some start -> exists r, json_region raw start = String "{" r.
Proof.
  intros H. destruct (drop_find "{" raw start H) as [r Hr].
  unfold json_region. destruct (rfind "}" raw) as [j|]; [|exists r; exact Hr].
  destruct (start <? j) eqn:E; [|exists r; exact Hr].
  apply Nat.ltb_lt in E. unfold slice. rewrite Hr.
  replace (j + 1 - start) with (S (j - start)) by lia.
  cbn [take]. eexists. reflexivity.
Qed.

Lemma repair_brace (r : string) : exists r', _repair_json (String "{" r) = String "{" r'.
Proof.
  unfold _repair_json, balance_quotes, strip. cbv zeta.
  rewrite (lstrip_head "{" r eq_refl), (rstrip_cons_head "{" r eq_refl).
  destruct (Nat.eqb _ 0); cbn [append]; eexists; reflexivity.
Qed.

Lemma parsed_region_object (raw : string) (start : nat) (v : value) :
  find "{" raw = Some start ->
  parse_or_repair (json_region raw start) = Return v -> exists d, v = VDict d.
Proof.
  intros Hf. destruct (json_region_brace raw start Hf) as [r ->].
  unfold parse_or_repair.
  destruct (Json.loads (String "{" r)) as [v'|e] eqn:E.
  - intros H. injection H as <-. apply (loads_brace_object r v' E).
  - destruct e; try discriminate.
    destruct (repair_brace r) as [r' ->]. apply loads_brace_object.
Qed.

Lemma py_min_cases (a : value) (b : Z) :
  (number_like a = true /\ exists v, py_min a b = Return v /\ number_like v = true)
  \/ (number_like a = false /\ py_min a b = Raise TypeError).
Proof.
  unfold py_min.
  destruct a as [| x | z | q | [|] | | s | l | d]; cbn [as_number number_like];
    try (right; split; reflexivity);
    left; (split; [reflexivity|]);
    try (eexists; split; [reflexivity | reflexivity]);
    destruct (Qlt_bool _ _); eexists; (split; [reflexivity | reflexivity]).
Qed.

Lemma py_percent_not_type_error (v : value) (tm : Z) :
  py_percent v tm <> Raise TypeError.
Proof.
  unfold py_percent, py_div.
  destruct v; try destruct (Z.eqb tm 0); try destruct (Qeq_bool _ _);
    cbn [bind]; discriminate.
Qed.

Lemma normalize_cases (d : dict) (tm : Z) :
  (well_typed_payload d = true /\ exists r, normalize d tm = Return r)
  \/ (well_typed_payload d = false /\ normalize d tm = Raise TypeError).
Proof.
  unfold well_typed_payload.
  destruct (py_min_cases (dict_get d "total_score" (VInt 0)) tm)
    as [[Hn [v [Hv _]]]|[Hn Hv]]; rewrite Hn; cbn [andb].
  - destruct (combine_feedback_cases d) as [[Hu Hc]|[Hu [fb Hc]]]; rewrite Hu; cbn [negb].
    + right. split; [reflexivity|]. apply normalize_unusable_feedback. exact Hu.
    + left. split; [reflexivity|].
      destruct (normalize_outcome d tm) as [Hr|Hr]; [exact Hr|].
      exfalso. unfold normalize in Hr. rewrite Hv, Hc in Hr. cbn [bind] in Hr.
      destruct (py_positive v); [|discriminate Hr].
      destruct (py_percent v tm) as [p|e] eqn:Ep; cbn [bind] in Hr; [discriminate Hr|].
      injection Hr as ->. exact (py_percent_not_type_error v tm Ep).
  - right. split; [reflexivity|]. unfold normalize. rewrite Hv. reflexivity.
Qed.

(** X9. What becomes of a parsed payload. The text from the first opening
    brace on, when it can be parsed, is always an object. The normaliser
    accepts the object exactly when its score is a number and its feedback
    fields can be combined (the overall feedback a string, the strengths and
    the areas for improvement iterable, each unless unset); it then returns
    the normalised record, and the recomputation of the percentage never
    fails. Every other object is answered with the error record, whose
    score is 0 whatever score the payload reports. *)
Theorem payload_accepted_iff_well_typed :
  forall (response : string) (tm : Z) (start : nat) (v : value),
    find "{" (strip response) = Some start ->
    parse_or_repair (json_region (strip response) start) = Return v ->
    exists d,
      v = VDict d /\
      (_combine_feedback d = Raise TypeError <-> unusable_feedback d = true) /\
      (well_typed_payload d = true ->
       exists r, normalize d tm = Return r /\
                 _parse_grading_response response tm = Return r) /\
      (well_typed_payload d = false ->
       _parse_grading_response response tm
       = Return (_create_error_result (exn_text TypeError)) /\
       forall r, _parse_grading_response response tm = Return r ->
                 total_score r = VInt 0).
Proof.
  intros response tm start v Hf Hp.
  destruct (parsed_region_object _ start v Hf Hp) as [d ->].
  exists d. split; [reflexivity|].
  pose proof (parse_response_of_structure response tm start d Hf Hp) as Hres.
  split; [|split].
  - destruct (combine_feedback_cases d) as [[Hu Hc]|[Hu [fb Hc]]];
      rewrite Hu, Hc; split; intros H; try reflexivity; discriminate H.
  - intros Hw. destruct (normalize_cases d tm) as [[_ [r Hr]]|[Hw' _]]; [|congruence].
    exists r. split; [exact Hr|]. rewrite Hres, Hr. reflexivity.
  - intros Hw. destruct (normalize_cases d tm) as [[Hw' _]|[_ Hr]]; [congruence|].
    rewrite Hres, Hr. split; [reflexivity|].
    intros r H. injection H as <-. reflexivity.
Qed.

End Outcomes.

Section Region.
Import GradingService.
Context {interp : Interpreter}.

(** The text handed to the decoder has no white space at either end. *)
Lemma json_region_stripped (response : string) (start : nat) :
  find "{" (strip response) = Some start ->
  strip (json_region (strip response) start) = json_region (strip response) start.
Proof.
  intros Hf. destruct (json_region_brace _ start Hf) as [r Hr].
  unfold strip at 1. rewrite Hr, (lstrip_head "{" r eq_refl), <- Hr.
  unfold json_region.
  assert (Hdrop : rstrip (drop start (strip response)) = drop start (strip response))
    by (apply rstrip_drop; apply strip_rstrip).
  destruct (rfind "}" (strip response)) as [j|] eqn:Ej; [|exact Hdrop].
  destruct (start <? j) eqn:E; [|exact Hdrop].
  apply Nat.ltb_lt in E.
  destruct (rfind_split "}" _ j Ej) as [a [b [Hs Hlen]]].
  unfold slice. rewrite Hs.
  rewrite drop_app_le by lia.
  replace (j + 1 - start) with (String.length (drop start a ++ String "}" EmptyString))
    by (rewrite length_app_s, length_drop; cbn [String.length]; lia).
  replace (drop start a ++ String "}" b)%string
    with ((drop start a ++ String "}" EmptyString) ++ b)%string
    by (rewrite append_assoc_s; reflexivity).
  rewrite take_app_length.
  apply rstrip_app_tail. reflexivity.
Qed.

(** X10. The repair mends truncation and nothing else. When the text
    handed to the decoder already has an even number of quotation marks and
    the bracket scan ends on it with an empty stack, [_repair_json] returns
    it unchanged; if the strict parse of such a text fails, the second
    parse fails in the same way and the response is answered by the
    fallback scan. *)
Theorem balanced_payload_is_not_repaired :
  forall (response : string) (tm : Z) (start : nat),
    find "{" (strip response) = Some start ->
    Nat.modulo (count dquote (json_region (strip response) start)) 2 = 0 ->
    balance (json_region (strip response) start) [] = [] ->
    _repair_json (json_region (strip response) start)
    = json_region (strip response) start /\
    (Json.loads (json_region (strip response) start) = Raise JSONDecodeError ->
     parse_or_repair (json_region (strip response) start) = Raise JSONDecodeError /\
     _parse_grading_response response tm = _fallback_text_parsing response tm).
Proof.
  intros response tm start Hf Hq Hb.
  assert (Hfix : _repair_json (json_region (strip response) start)
                 = json_region (strip response) start).
  { apply repair_fixed; [apply json_region_stripped; exact Hf | exact Hq | exact Hb]. }
  split; [exact Hfix|].
  intros Hl.
  assert (Hp : parse_or_repair (json_region (strip response) start)
               = Raise JSONDecodeError).
  { unfold parse_or_repair. rewrite Hl, Hfix. exact Hl. }
  split; [exact Hp|].
  unfold _parse_grading_response, parse_body. rewrite Hf, Hp. reflexivity.
Qed.

End Region.

Section FallbackExtras.
Import GradingService.
Context {interp : Interpreter}.

Lemma percent_bounds (c : Q) (tm : Z) :
  (0 < tm)%Z -> (0 <= c)%Q -> (c <= inject_Z tm)%Q ->
  (0 <= c / inject_Z tm * 100)%Q /\ (c / inject_Z tm * 100 <= 100)%Q.
Proof.
  intros Htm H0 Hle. pose proof (inject_Z_pos tm Htm) as Hpos.
  split.
  - apply Qmult_le_0_compat; [apply Qdiv_nonneg; assumption | discriminate].
  - assert (H1 : (c / inject_Z tm <= 1)%Q).
    { apply Qle_shift_div_r; [exact Hpos|]. rewrite Qmult_1_l. exact Hle. }
    setoid_replace 100%Q with (1 * 100)%Q at 2 by reflexivity.
    apply Qmult_le_compat_r; [exact H1 | discriminate].
Qed.

Lemma fallback_record_percentage (response : string) (tm : Z) (score : value) (c : Q) :
  (0 < tm)%Z -> as_number score = Some c ->
  as_number (percentage (fallback_record response score (fallback_percentage score tm)))
  = Some (c / inject_Z tm * 100)%Q.
Proof.
  intros Htm Hc. unfold fallback_percentage.
  assert (E : (0 <? tm)%Z = true) by (apply Z.ltb_lt; exact Htm).
  rewrite E. cbn [fallback_record percentage as_number].
  rewrite (number_of_as_number score c Hc). reflexivity.
Qed.

(** X11. On the fallback path, with [total_marks > 0], the percentage of
    the record is its score over [total_marks] times 100 and the score lies
    between 0 and [total_marks], so the percentage lies between 0 and
    100. *)
Theorem fallback_percentage_follows_score :
  forall (response : string) (tm : Z),
    (0 < tm)%Z ->
    exists r c,
      _fallback_text_parsing response tm = Return r /\
      as_number (total_score r) = Some c /\
      (0 <= c)%Q /\ (c <= inject_Z tm)%Q /\
      (number_of (percentage r) == c / inject_Z tm * 100)%Q /\
      (0 <= number_of (percentage r))%Q /\ (number_of (percentage r) <= 100)%Q.
Proof.
  intros response tm Htm.
  assert (Htm0 : (0 <= tm)%Z) by lia.
  assert (Hfinish : forall r c,
             _fallback_text_parsing response tm = Return r ->
             as_number (total_score r) = Some c ->
             (0 <= c)%Q -> (c <= inject_Z tm)%Q ->
             (number_of (percentage r) == c / inject_Z tm * 100)%Q ->
             exists r c,
               _fallback_text_parsing response tm = Return r /\
               as_number (total_score r) = Some c /\
               (0 <= c)%Q /\ (c <= inject_Z tm)%Q /\
               (number_of (percentage r) == c / inject_Z tm * 100)%Q /\
               (0 <= number_of (percentage r))%Q /\
               (number_of (percentage r) <= 100)%Q).
  { intros r c Hr Hc H0 Hle Hp. exists r, c.
    destruct (percent_bounds c tm Htm H0 Hle) as [Hlo Hhi].
    repeat (split; [assumption|]). rewrite Hp. split; assumption. }
  assert (Herr : forall msg,
             _fallback_text_parsing response tm = Return (_create_error_result msg) ->
             exists r c,
               _fallback_text_parsing response tm = Return r /\
               as_number (total_score r) = Some c /\
               (0 <= c)%Q /\ (c <= inject_Z tm)%Q /\
               (number_of (percentage r) == c / inject_Z tm * 100)%Q /\
               (0 <= number_of (percentage r))%Q /\
               (number_of (percentage r) <= 100)%Q).
  { intros msg Hr. apply (Hfinish _ 0%Q Hr).
    - reflexivity.
    - apply Qle_refl.
    - apply inject_Z_nonneg. exact Htm0.
    - cbn [_create_error_result percentage number_of as_number].
      unfold Qdiv. rewrite !Qmult_0_l. reflexivity. }
  unfold _fallback_text_parsing in *.
  destruct (score_search response) as [[g1 g2]|] eqn:Hs.
  - destruct (score_search_digits response g1 g2 Hs) as [Hd1 Hd2].
    destruct (Z.eq_dec (denominator g2 tm) 0) as [Hz|Hnz].
    + rewrite (fallback_body_zero_denominator response tm g1 g2 Hs Hz ltac:(lia)) in *.
      apply (Herr _ eq_refl).
    + rewrite (fallback_body_match response tm g1 g2 Hs (or_intror Hnz)) in *.
      destruct (rescaled_number g1 g2 tm Hd1 Hd2 Htm0 (or_intror Hnz)) as [q [Hq Hq0]].
      destruct (py_min_value (rescaled g1 g2 tm) tm q Hq)
        as [v [c [Hv [Hc [_ [Hle Hnn]]]]]].
      rewrite Hv in *. cbn [bind] in *.
      apply (Hfinish _ c eq_refl).
      * exact Hc.
      * apply Hnn; assumption.
      * exact Hle.
      * pose proof (fallback_record_percentage response tm v c Htm Hc) as Hp.
        rewrite (number_of_as_number _ _ Hp). reflexivity.
  - rewrite (fallback_body_no_match response tm Hs) in *.
    apply (Hfinish _ 0%Q eq_refl).
    + reflexivity.
    + apply Qle_refl.
    + apply inject_Z_nonneg. exact Htm0.
    + pose proof (fallback_record_percentage response tm (VInt 0) 0%Q Htm eq_refl) as Hp.
      rewrite (number_of_as_number _ _ Hp). reflexivity.
Qed.

End FallbackExtras.

Section GradeExtras.
Import GradingService.
Context {interp : Interpreter}.

Lemma grade_assignment_not_above (api_key : string) (api_response : option string)
      (tm : Z) :
  (0 <= tm)%Z ->
  not_above (total_score (grade_assignment api_key api_response tm)) tm.
Proof.
  intros Htm. unfold grade_assignment, grade_body.
  destruct (String.eqb api_key EmptyString);
    [apply error_record_not_above; exact Htm|].
  destruct api_response as [response|];
    [|apply error_record_not_above; exact Htm].
  destruct (negb (String.eqb response EmptyString));
    [|apply error_record_not_above; exact Htm].
  destruct (parse_response_not_above response tm Htm) as [r [-> Hb]]. exact Hb.
Qed.

(** X12. [grade_assignment] returns a record for every key, every answer of
    the service and every [total_marks >= 0], and the score of the record
    is never above [total_marks]. Without a key, and when the service gave
    no text, the record is the error record with score 0 that names the
    cause; otherwise it is what [_parse_grading_response] makes of the
    answer. *)
Theorem grade_assignment_score_not_above_total :
  forall (api_key : string) (api_response : option string) (tm : Z),
    (0 <= tm)%Z ->
    not_above (total_score (grade_assignment api_key api_response tm)) tm /\
    (api_key = EmptyString ->
     grade_assignment api_key api_response tm
     = _create_error_result "Gemini API key not configured") /\
    (api_key <> EmptyString ->
     api_response = None \/ api_response = Some EmptyString ->
     grade_assignment api_key api_response tm
     = _create_error_result "Failed to get response from Gemini AI") /\
    (forall response,
        api_key <> EmptyString -> response <> EmptyString ->
        api_response = Some response ->
        _parse_grading_response response tm
        = Return (grade_assignment api_key api_response tm)).
Proof.
  intros api_key api_response tm Htm.
  unfold grade_assignment, grade_body.
  destruct (String.eqb api_key EmptyString) eqn:Ek.
  - apply String.eqb_eq in Ek. split; [apply error_record_not_above; exact Htm|].
    split; [reflexivity|]. split; intros; congruence.
  - apply String.eqb_neq in Ek.
    destruct api_response as [response|].
    + destruct (String.eqb response EmptyString) eqn:Er; cbn [negb].
      * apply String.eqb_eq in Er. subst response.
        split; [apply error_record_not_above; exact Htm|].
        split; [intros; congruence|]. split; [reflexivity|].
        intros response _ Hne H. congruence.
      * apply String.eqb_neq in Er.
        destruct (parse_response_not_above response tm Htm) as [r [Hr Hb]].
        rewrite Hr. split; [exact Hb|].
        split; [intros; congruence|].
        split; [intros _ [H|H]; congruence|].
        intros response' _ _ H. injection H as <-. exact Hr.
    + split; [apply error_record_not_above; exact Htm|].
      split; [intros; congruence|]. split; [reflexivity|].
      intros response _ _ H. discriminate H.
Qed.

End GradeExtras.

(** ** Repair of a truncated payload *)



Section RepairClaims.
Import GradingService.
Context {I : Interpreter}.




End RepairClaims.



(** ** One uploaded file *)

Section AppExtras.
Import GradingService.
Context {interp : Interpreter}.

Lemma percent_of_not_above (score : value) (tm : Z) :
  (0 < tm)%Z -> not_above score tm ->
  exists p, App.percent_of_total score tm = Return p /\ not_above p 100 /\
            (forall c, as_number score = Some c ->
                       as_number p = Some (c / inject_Z tm * 100)%Q).
Proof.
  intros Htm Hs.
  assert (Hz : (tm =? 0)%Z = false) by (apply Z.eqb_neq; lia).
  assert (Hneg : (tm <? 0)%Z = false) by (apply Z.ltb_ge; lia).
  assert (Hnum : forall c, as_number score = Some c -> (c <= inject_Z tm)%Q ->
                 (match score with VInf _ | VNaN => False | _ => True end) ->
                 exists p, py_percent score tm = Return p /\ not_above p 100 /\
                           (forall c', as_number score = Some c' ->
                                       as_number p = Some (c' / inject_Z tm * 100)%Q)).
  { intros c Hc Hle Hshape.
    exists (VFloat (c / inject_Z tm * 100)%Q).
    split.
    - rewrite (py_percent_number score c tm Hc), py_div_nonzero by lia. reflexivity.
    - split.
      + exists (c / inject_Z tm * 100)%Q. split; [reflexivity|].
        pose proof (inject_Z_pos tm Htm) as Hpos.
        assert (H1 : (c / inject_Z tm <= 1)%Q)
          by (apply Qle_shift_div_r; [exact Hpos | lra]).
        change (inject_Z 100) with 100%Q. lra.
      + intros c' Hc'. rewrite Hc in Hc'. injection Hc' as <-. reflexivity. }
  destruct score as [| b | z | q | negative | | s | l | d];
    cbn [not_above] in Hs; unfold App.percent_of_total.
  - destruct Hs as [c [Hc _]]. discriminate Hc.
  - destruct Hs as [c [Hc Hle]]. apply (Hnum c Hc Hle Logic.I).
  - destruct Hs as [c [Hc Hle]]. apply (Hnum c Hc Hle Logic.I).
  - destruct Hs as [c [Hc Hle]]. apply (Hnum c Hc Hle Logic.I).
  - subst negative. exists (VInf true). unfold py_percent. rewrite Hz, Hneg.
    split; [reflexivity|]. split; [reflexivity|]. intros c Hc. discriminate Hc.
  - exists VNaN. unfold py_percent. rewrite Hz.
    split; [reflexivity|]. split; [exact Logic.I|]. intros c Hc. discriminate Hc.
  - destruct Hs as [c [Hc _]]. discriminate Hc.
  - destruct Hs as [c [Hc _]]. discriminate Hc.
  - destruct Hs as [c [Hc _]]. discriminate Hc.
Qed.

(** X13. No file is reported above its total: for every file, whatever the
    text extraction and the model returned, and [total_marks >= 1], the
    record of [process_single_file] has awarded marks not above
    [total_marks] and a percentage not above 100, and the percentage is the
    awarded marks over [total_marks] times 100. The percentage the model
    reported is never passed on. When no text was extracted, or the
    extraction failed, the file gets 0 marks and 0 percent. *)
Theorem processed_file_never_above_total :
  forall (name : string) (extracted : Exc string) (api_key : string)
         (api_response : option string) (tm : Z),
    (0 < tm)%Z ->
    let result := App.process_single_file name extracted api_key api_response tm in
    not_above (App.awarded_marks result) tm /\
    not_above (App.percentage result) 100 /\
    (forall c, as_number (App.awarded_marks result) = Some c ->
               (number_of (App.percentage result) == c / inject_Z tm * 100)%Q) /\
    (forall text, extracted = Return text -> strip text <> EmptyString ->
                  App.awarded_marks result
                  = total_score (grade_assignment api_key api_response tm) /\
                  App.questions result
                  = questions (grade_assignment api_key api_response tm)) /\
    ((forall text, extracted = Return text -> strip text = EmptyString) ->
     App.awarded_marks result = VInt 0 /\ App.percentage result = VInt 0).
Proof.
  intros name extracted api_key api_response tm Htm result.
  assert (Hzero : forall r : App.FileResult,
             App.awarded_marks r = VInt 0 -> App.percentage r = VInt 0 ->
             not_above (App.awarded_marks r) tm /\
             not_above (App.percentage r) 100 /\
             (forall c, as_number (App.awarded_marks r) = Some c ->
                        (number_of (App.percentage r) == c / inject_Z tm * 100)%Q)).
  { intros r Ha Hp. rewrite Ha, Hp. split; [|split].
    - exists 0%Q. split; [reflexivity | apply inject_Z_nonneg; lia].
    - exists 0%Q. split; [reflexivity | discriminate].
    - intros c Hc. injection Hc as <-. cbn [number_of as_number].
      unfold Qdiv. rewrite !Qmult_0_l. reflexivity. }
  unfold result, App.process_single_file, App.process_body.
  destruct extracted as [text|e]; cbn [bind].
  - destruct (String.eqb (strip text) EmptyString) eqn:Et.
    + apply String.eqb_eq in Et.
      match goal with
      | |- not_above (App.awarded_marks ?r) tm /\ _ =>
          destruct (Hzero r eq_refl eq_refl) as [H1 [H2 H3]]
      end.
      split; [exact H1|]. split; [exact H2|]. split; [exact H3|].
      split; [|intros _; split; reflexivity].
      intros text' Ht Hne. injection Ht as <-. contradiction.
    + apply String.eqb_neq in Et.
      pose proof (grade_assignment_not_above api_key api_response tm ltac:(lia))
        as Hscore.
      destruct (percent_of_not_above _ tm Htm Hscore) as [p [Hp [Hp100 Hpc]]].
      rewrite Hp. cbn [bind App.awarded_marks App.percentage App.questions].
      split; [exact Hscore|]. split; [exact Hp100|].
      split; [intros c Hc; rewrite (number_of_as_number _ _ (Hpc c Hc)); reflexivity|].
      split; [intros text' _ _; split; reflexivity|].
      intros Hall. exfalso. apply Et. apply (Hall text). reflexivity.
  - destruct (Hzero
                {| App.filename := name; App.total_marks := tm;
                   App.awarded_marks := VInt 0; App.percentage := VInt 0;
                   App.feedback := "Error processing file: " ++ str_exn e;
                   App.questions := VList [];
                   App.text_content := "Error occurred during processing" |}
                eq_refl eq_refl) as [H1 [H2 H3]].
    split; [exact H1|]. split; [exact H2|]. split; [exact H3|].
    split; [intros text Ht; discriminate Ht | intros _; split; reflexivity].
Qed.

End AppExtras.

(** ** The analytics: further queries and the charts *)

Section Inconsistency.
Import AnalyticsService.
Context {ops : Arithmetic}.

Lemma Qmin_list_le (xs : list Q) :
  forall x, (Qmin_list x xs <= x)%Q /\ (forall y, In y xs -> (Qmin_list x xs <= y)%Q).
Proof.
  unfold Qmin_list.
  induction xs as [|a xs IH]; intros x; cbn [fold_left].
  - split; [apply Qle_refl | intros y []].
  - destruct (Qlt_bool a x) eqn:E.
    + apply Qlt_bool_iff in E. destruct (IH a) as [H1 H2].
      split; [lra|]. intros y [<-|Hy]; [exact H1 | apply H2; exact Hy].
    + apply Qlt_bool_false_iff in E. destruct (IH x) as [H1 H2].
      split; [exact H1|]. intros y [<-|Hy]; [lra | apply H2; exact Hy].
Qed.

Lemma Qmax_list_ge (xs : list Q) :
  forall x, (x <= Qmax_list x xs)%Q /\ (forall y, In y xs -> (y <= Qmax_list x xs)%Q).
Proof.
  unfold Qmax_list.
  induction xs as [|a xs IH]; intros x; cbn [fold_left].
  - split; [apply Qle_refl | intros y []].
  - destruct (Qlt_bool x a) eqn:E.
    + apply Qlt_bool_iff in E. destruct (IH a) as [H1 H2].
      split; [lra|]. intros y [<-|Hy]; [exact H1 | apply H2; exact Hy].
    + apply Qlt_bool_false_iff in E. destruct (IH x) as [H1 H2].
      split; [exact H1|]. intros y [<-|Hy]; [lra | apply H2; exact Hy].
Qed.

Lemma Qmin_list_In (xs : list Q) : forall x, In (Qmin_list x xs) (x :: xs).
Proof.
  unfold Qmin_list.
  induction xs as [|a xs IH]; intros x; cbn [fold_left]; [left; reflexivity|].
  destruct (Qlt_bool a x).
  - right. apply IH.
  - destruct (IH x) as [H|H]; [left; exact H | right; right; exact H].
Qed.

Lemma Qmax_list_In (xs : list Q) : forall x, In (Qmax_list x xs) (x :: xs).
Proof.
  unfold Qmax_list.
  induction xs as [|a xs IH]; intros x; cbn [fold_left]; [left; reflexivity|].
  destruct (Qlt_bool x a).
  - right. apply IH.
  - destruct (IH x) as [H|H]; [left; exact H | right; right; exact H].
Qed.

Lemma is_inconsistent_needs_two (qs : list Q) :
  List.length qs < 2 -> is_inconsistent qs = false.
Proof.
  intros H. unfold is_inconsistent.
  assert (E : (2 <=? List.length qs) = false) by (apply Nat.leb_gt; exact H).
  rewrite E. reflexivity.
Qed.

(** What [get_inconsistent_performers] returns, in terms of the records. *)
Lemma inconsistent_performers_loaded (self : Service) (rs : list GradingRecord) :
  get_inconsistent_performers (load_results self rs)
  = sort_by (fun x y => Qle_bool (i_std_deviation y) (i_std_deviation x))
      (map inconsistent_entry
           (filter (fun r => is_inconsistent (record_percentages r)) rs)).
Proof.
  unfold get_inconsistent_performers.
  rewrite loaded_no_data, get_max_questions_loaded.
  destruct rs as [|r0 rs0]; [reflexivity|].
  rewrite !loaded_frame.
  set (rs := r0 :: rs0).
  destruct (max_question_count rs <? 2) eqn:Emax.
  - apply Nat.ltb_lt in Emax.
    rewrite (filter_none (fun r => is_inconsistent (record_percentages r)) rs);
      [reflexivity|].
    intros r Hr. apply is_inconsistent_needs_two.
    unfold record_percentages. rewrite length_map.
    pose proof (max_question_count_bound rs r Hr). lia.
  - f_equal.
    change (rows (frame_of (map student_data rs))) with (map student_data rs).
    rewrite flat_map_over_map, <- flat_map_filter.
    apply flat_map_ext_in. intros r Hr.
    rewrite (question_percentages_of_record rs r Hr), student_data_filename.
    unfold is_inconsistent, inconsistent_entry.
    destruct (record_percentages r) as [|q0 [|q1 rest]]; reflexivity.
Qed.

(** X2. [get_inconsistent_performers] returns one entry for each record
    that has at least 2 question percentages and either a population
    standard deviation above 25 or a spread between its best and its worst
    question above 40, standard deviation and spread as the platform
    computes them, and for no other record. The entries are sorted by
    descending standard deviation, and the minimum and the maximum an entry
    reports are the least and the greatest of the record's question
    percentages. This holds however the platform rounds. *)
Theorem inconsistent_performers_selected_and_sorted :
  forall (self : Service) (rs : list GradingRecord),
    let result := get_inconsistent_performers (load_results self rs) in
    Permutation result
      (map inconsistent_entry
           (filter (fun r => is_inconsistent (record_percentages r)) rs)) /\
    (forall qs,
        is_inconsistent qs = true
        <-> 2 <= List.length qs /\
            ((25 < np_std qs)%Q \/
             (40 < float_sub (list_max qs) (list_min qs))%Q)) /\
    (forall e, In e result <->
               exists r, In r rs /\
                         is_inconsistent (record_percentages r) = true /\
                         e = inconsistent_entry r) /\
    StronglySorted (fun x y => (i_std_deviation y <= i_std_deviation x)%Q) result /\
    (forall e, In e result ->
               In (min_score e) (i_question_scores e) /\
               In (i_max_score e) (i_question_scores e) /\
               (forall q, In q (i_question_scores e) ->
                          (min_score e <= q)%Q /\ (q <= i_max_score e)%Q) /\
               score_range e = float_sub (i_max_score e) (min_score e) /\
               i_std_deviation e = np_std (i_question_scores e)).
Proof.
  intros self rs result.
  assert (Hperm : Permutation result
            (map inconsistent_entry
                 (filter (fun r => is_inconsistent (record_percentages r)) rs))).
  { unfold result. rewrite inconsistent_performers_loaded. apply sort_by_perm. }
  assert (Hin : forall e, In e result <->
               exists r, In r rs /\
                         is_inconsistent (record_percentages r) = true /\
                         e = inconsistent_entry r).
  { intros e. split.
    + intros He. apply (Permutation_in _ Hperm) in He.
      apply in_map_iff in He. destruct He as [r [<- Hr]].
      apply filter_In in Hr. destruct Hr as [Hr Hc].
      exists r. repeat split; assumption.
    + intros [r [Hr [Hc ->]]].
      apply (Permutation_in _ (Permutation_sym Hperm)).
      apply in_map. apply filter_In. split; assumption. }
  split; [exact Hperm|]. split; [|split; [exact Hin|split]].
  - intros qs. unfold is_inconsistent.
    rewrite andb_true_iff, orb_true_iff, Nat.leb_le, !Qlt_bool_iff.
    reflexivity.
  - unfold result. rewrite inconsistent_performers_loaded.
    apply Sorted_StronglySorted.
    + intros x y z Hxy Hyz. exact (Qle_trans _ _ _ Hyz Hxy).
    + set (entries := map inconsistent_entry _).
      pose proof (sort_by_sorted
                    (fun x y => Qle_bool (i_std_deviation y) (i_std_deviation x))) as Hs.
      assert (Htot : forall x y : Inconsistent,
                 Qle_bool (i_std_deviation y) (i_std_deviation x) = false ->
                 Qle_bool (i_std_deviation x) (i_std_deviation y) = true).
      { intros x y Hf. apply Qle_bool_iff. apply Qlt_le_weak.
        apply Qnot_le_lt. intros Hle. apply Qle_bool_iff in Hle. congruence. }
      specialize (Hs Htot entries).
      induction Hs as [|x l Hl IH Hhd]; [apply Sorted_nil|].
      apply Sorted_cons; [exact IH|].
      destruct Hhd as [|y l' Hxy]; [apply HdRel_nil|].
      apply HdRel_cons. apply Qle_bool_iff. exact Hxy.
  - intros e He. apply Hin in He. destruct He as [r [_ [Hc ->]]].
    unfold inconsistent_entry. cbv zeta.
    cbn [min_score i_max_score i_question_scores score_range i_std_deviation].
    destruct (record_percentages r) as [|q0 rest] eqn:E; [discriminate Hc|].
    cbn [list_min list_max].
    pose proof (Qmin_list_le rest q0) as [Hlo0 Hlo].
    pose proof (Qmax_list_ge rest q0) as [Hhi0 Hhi].
    split; [apply Qmin_list_In|]. split; [apply Qmax_list_In|].
    split; [|split; reflexivity].
    intros q [<-|Hq]; [split; assumption|].
    split; [apply Hlo | apply Hhi]; exact Hq.
Qed.

End Inconsistency.

Section Lists.

Lemma filter_length_le {A} (f : A -> bool) (l : list A) :
  List.length (filter f l) <= List.length l.
Proof.
  induction l as [|x l IH]; [constructor|].
  cbn [filter]. destruct (f x); cbn [List.length]; lia.
Qed.

Lemma filter_length_all {A} (f : A -> bool) (l : list A) :
  List.length (filter f l) = List.length l <-> (forall x, In x l -> f x = true).
Proof.
  induction l as [|x l IH]; [split; [intros _ y [] | reflexivity]|].
  cbn [filter]. pose proof (filter_length_le f l) as Hle.
  destruct (f x) eqn:E; cbn [List.length]; split.
  - intros H y [<-|Hy]; [exact E|]. apply IH; [lia | exact Hy].
  - intros H. f_equal. apply IH. intros y Hy. apply H. right. exact Hy.
  - intros H. lia.
  - intros H. specialize (H x (or_introl eq_refl)). congruence.
Qed.

End Lists.

Section Distribution.
Import AnalyticsService.
Context {ops : Arithmetic}.

Lemma percentages_loaded (self : Service) (r : GradingRecord) (rs : list GradingRecord) :
  percentages (frame (load_results self (r :: rs))) = map percentage (r :: rs).
Proof.
  rewrite loaded_frame. unfold percentages, frame_of. cbn [rows].
  rewrite map_map. reflexivity.
Qed.

Lemma in_range_iff (lo hi p : Q) :
  in_range (lo, hi) p = true <-> (lo <= p)%Q /\ (p <= hi)%Q.
Proof.
  unfold in_range. cbn [fst snd]. rewrite andb_true_iff, !Qle_bool_iff. reflexivity.
Qed.

Lemma in_range_false_iff (lo hi p : Q) :
  in_range (lo, hi) p = false <-> (p < lo)%Q \/ (hi < p)%Q.
Proof.
  unfold in_range. cbn [fst snd]. rewrite andb_false_iff.
  split; intros [H|H].
  - left. apply Qnot_le_lt. intros Hle. apply Qle_bool_iff in Hle. congruence.
  - right. apply Qnot_le_lt. intros Hle. apply Qle_bool_iff in Hle. congruence.
  - left. destruct (Qle_bool lo p) eqn:E; [|reflexivity].
    apply Qle_bool_iff in E. lra.
  - right. destruct (Qle_bool p hi) eqn:E; [|reflexivity].
    apply Qle_bool_iff in E. lra.
Qed.

(** The ranges are disjoint: a percentage is counted in at most one of
    them. *)
Lemma buckets_holding (p : Q) :
  fold_right (fun gr acc => (if in_range (snd gr) p then 1 else 0) + acc)
             0 grade_ranges
  = if in_some_bucket p then 1 else 0.
Proof.
  unfold in_some_bucket, grade_ranges. cbn [fold_right existsb snd].
  destruct (in_range (90, 100)%Q p) eqn:E1, (in_range (80, 89)%Q p) eqn:E2,
           (in_range (70, 79)%Q p) eqn:E3, (in_range (60, 69)%Q p) eqn:E4,
           (in_range (0, 59)%Q p) eqn:E5; try reflexivity; exfalso;
    repeat match goal with
           | H : in_range _ _ = true |- _ => apply in_range_iff in H
           | H : in_range _ _ = false |- _ => clear H
           end; lra.
Qed.

Lemma bucket_total (ps : list Q) :
  fold_right (fun gr acc => List.length (filter (in_range (snd gr)) ps) + acc)
             0 grade_ranges
  = List.length (filter in_some_bucket ps).
Proof.
  rewrite bucket_counts_add_up.
  induction ps as [|p ps IH]; [reflexivity|].
  cbn [fold_right filter]. rewrite IH, buckets_holding.
  destruct (in_some_bucket p); reflexivity.
Qed.

Lemma filter_map_length {A B} (f : B -> bool) (g : A -> B) (l : list A) :
  List.length (filter f (map g l)) = List.length (filter (fun x => f (g x)) l).
Proof.
  induction l as [|x l IH]; [reflexivity|].
  cbn [map filter]. destruct (f (g x)); cbn [List.length]; rewrite IH; reflexivity.
Qed.

(** X1. The grade buckets count every record at most once: the counts add
    up to the number of records whose percentage lies in one of the five
    ranges, never to more than the number of records, and to exactly that
    number when no percentage is left out. A percentage is left out when
    it is below 0, above 100, or strictly between the upper bound of one
    range and the lower bound of the next. *)
Theorem grade_buckets_count_at_most_once :
  forall (self : Service) (rs : list GradingRecord),
    let dist := get_grade_distribution (load_results self rs) in
    graded_total dist
      = List.length (filter (fun r => in_some_bucket (percentage r)) rs) /\
    graded_total dist <= List.length rs /\
    (graded_total dist = List.length rs
     <-> forall r, In r rs -> in_some_bucket (percentage r) = true) /\
    (forall p : Q,
        in_some_bucket p = false
        <-> (p < 0 \/ (59 < p /\ p < 60) \/ (69 < p /\ p < 70) \/
             (79 < p /\ p < 80) \/ (89 < p /\ p < 90) \/ 100 < p)%Q).
Proof.
  intros self rs dist.
  assert (Htotal : graded_total dist
                   = List.length (filter (fun r => in_some_bucket (percentage r)) rs)).
  { unfold dist, get_grade_distribution. rewrite loaded_no_data.
    destruct rs as [|r0 rs0]; [reflexivity|].
    rewrite percentages_loaded. unfold graded_total. cbn [grades].
    rewrite <- filter_map_length, <- bucket_total.
    unfold grade_ranges. reflexivity. }
  split; [exact Htotal|]. rewrite Htotal.
  split; [apply filter_length_le|].
  split; [apply filter_length_all|].
  intros p. unfold in_some_bucket, grade_ranges. cbn [existsb snd].
  rewrite !orb_false_iff, !in_range_false_iff. split.
  - intros [H1 [H2 [H3 [H4 [H5 _]]]]]. lra.
  - intros H. repeat split; lra.
Qed.

End Distribution.

Section AttemptExtras.
Import AnalyticsService.
Context {ops : Arithmetic}.

Lemma nth_map_seq {B} (f : nat -> B) (d : B) (len : nat) :
  forall start i, i < len -> nth i (map f (seq start len)) d = f (start + i).
Proof.
  induction len as [|len IH]; intros start i Hi; [lia|].
  cbn [seq map nth]. destruct i as [|i]; [rewrite Nat.add_0_r; reflexivity|].
  rewrite IH by lia. f_equal. lia.
Qed.

Lemma total_students_loaded (self : Service) (rs : list GradingRecord) (n : nat) :
  total_students (analyze_question_attempts (load_results self rs) n) = List.length rs.
Proof.
  unfold analyze_question_attempts. rewrite loaded_no_data.
  destruct rs as [|r0 rs0]; [reflexivity|].
  rewrite loaded_frame.
  change (rows (frame_of (map student_data (r0 :: rs0))))
    with (map student_data (r0 :: rs0)).
  destruct (has_column (QAttempted n) _); cbn [negb total_students];
    apply length_map.
Qed.

Lemma attempt_percentage_loaded (self : Service) (r0 : GradingRecord)
      (rs0 : list GradingRecord) (n : nat) :
  let rs := r0 :: rs0 in
  (attempt_percentage (analyze_question_attempts (load_results self rs) n)
   == inject_Z (Z.of_nat (List.length (filter (explicitly_attempted n) rs)))
      / inject_Z (Z.of_nat (List.length rs)) * 100)%Q.
Proof.
  intros rs.
  pose proof (attempted_count_loaded self rs n) as Hc.
  unfold analyze_question_attempts in *. rewrite loaded_no_data in *.
  unfold rs in *. rewrite loaded_frame in *.
  change (rows (frame_of (map student_data (r0 :: rs0))))
    with (map student_data (r0 :: rs0)) in *.
  destruct (has_column (QAttempted n) _); cbn [negb attempt_percentage attempted_count] in *.
  - rewrite length_map. cbn [List.length Nat.ltb Nat.leb]. rewrite Hc. reflexivity.
  - rewrite <- Hc. unfold Qdiv. rewrite !Qmult_0_l. reflexivity.
Qed.

(** X15. For every question number the attempt analysis of a loaded dataset
    reports the number of records as its total, a count between 0 and that
    total, and a percentage between 0 and 100 that is the count over the
    total times 100. *)
Theorem attempt_analysis_within_bounds :
  forall (self : Service) (rs : list GradingRecord) (n : nat),
    let a := analyze_question_attempts (load_results self rs) n in
    total_students a = List.length rs /\
    (0 <= attempted_count a <= Z.of_nat (total_students a))%Z /\
    (0 <= attempt_percentage a)%Q /\ (attempt_percentage a <= 100)%Q /\
    (rs <> [] ->
     (attempt_percentage a
      == inject_Z (attempted_count a) / inject_Z (Z.of_nat (total_students a)) * 100)%Q).
Proof.
  intros self rs n a.
  pose proof (total_students_loaded self rs n) as Ht.
  pose proof (attempted_count_loaded self rs n) as Hc.
  pose proof (filter_length_le (explicitly_attempted n) rs) as Hle.
  fold a in Ht, Hc.
  split; [exact Ht|]. split; [rewrite Ht, Hc; lia|].
  destruct rs as [|r0 rs0].
  - unfold a, analyze_question_attempts. rewrite loaded_no_data.
    cbn [attempt_percentage]. split; [lra|]. split; [lra|].
    intros H. contradiction H. reflexivity.
  - pose proof (attempt_percentage_loaded self r0 rs0 n) as Hp. cbv zeta in Hp.
    fold a in Hp. set (rs := r0 :: rs0) in *.
    set (k := List.length (filter (explicitly_attempted n) rs)) in *.
    assert (Hn : (0 < inject_Z (Z.of_nat (List.length rs)))%Q)
      by (apply inject_Z_pos; cbn [List.length rs]; lia).
    assert (Hk0 : (0 <= inject_Z (Z.of_nat k))%Q) by (apply inject_Z_nonneg; lia).
    assert (Hk1 : (inject_Z (Z.of_nat k) <= inject_Z (Z.of_nat (List.length rs)))%Q)
      by (rewrite <- Zle_Qle; lia).
    assert (Hq0 : (0 <= inject_Z (Z.of_nat k) / inject_Z (Z.of_nat (List.length rs)))%Q)
      by (apply Qdiv_nonneg; assumption).
    assert (Hq1 : (inject_Z (Z.of_nat k) / inject_Z (Z.of_nat (List.length rs)) <= 1)%Q)
      by (apply Qle_shift_div_r; [exact Hn | lra]).
    split; [lra|]. split; [lra|].
    intros _. rewrite Ht, Hc. exact Hp.
Qed.

(** *** The stacked bars *)

(** X16. The attempts chart is empty exactly when no record has a question.
    Otherwise it has one stacked bar per question number up to the largest
    number of questions of a record; the lower part of bar [i] is the number
    of records that attempted question [i], the upper part is the rest, and
    every bar is as high as the number of records. *)
Theorem attempts_chart_bars_add_up :
  forall (self : Service) (rs : list GradingRecord),
    let s := load_results self rs in
    (create_question_attempts_chart s = None <-> max_question_count rs = 0) /\
    (forall ch,
        create_question_attempts_chart s = Some ch ->
        chart_questions ch = seq 1 (max_question_count rs) /\
        chart_attempted ch
          = map (fun i => Z.of_nat (List.length (filter (explicitly_attempted i) rs)))
                (seq 1 (max_question_count rs)) /\
        List.length (chart_skipped ch) = max_question_count rs /\
        (forall i, i < max_question_count rs ->
                   (0 <= nth i (chart_attempted ch) 0)%Z /\
                   (0 <= nth i (chart_skipped ch) 0)%Z /\
                   (nth i (chart_attempted ch) 0 + nth i (chart_skipped ch) 0
                    = Z.of_nat (List.length rs))%Z)).
Proof.
  intros self rs s. unfold create_question_attempts_chart.
  unfold s. rewrite get_max_questions_loaded. fold s.
  destruct (max_question_count rs =? 0) eqn:E.
  - apply Nat.eqb_eq in E. split; [split; [intros _; exact E | reflexivity]|].
    intros ch H. discriminate H.
  - apply Nat.eqb_neq in E. split; [split; [intros H; discriminate H | intros H; lia]|].
    intros ch H. injection H as <-.
    cbn [chart_questions chart_attempted chart_skipped]. unfold range1.
    rewrite !map_map.
    assert (Hatt : map (fun x => attempted_count (analyze_question_attempts s x))
                       (seq 1 (max_question_count rs))
                   = map (fun i => Z.of_nat (List.length (filter (explicitly_attempted i) rs)))
                         (seq 1 (max_question_count rs))).
    { apply map_ext. intros i. apply attempted_count_loaded. }
    assert (Hskp : map (fun x => (Z.of_nat (total_students (analyze_question_attempts s x))
                                  - attempted_count (analyze_question_attempts s x))%Z)
                       (seq 1 (max_question_count rs))
                   = map (fun i => (Z.of_nat (List.length rs)
                                    - Z.of_nat (List.length
                                                  (filter (explicitly_attempted i) rs)))%Z)
                         (seq 1 (max_question_count rs))).
    { apply map_ext. intros i. unfold s.
      rewrite total_students_loaded, attempted_count_loaded. reflexivity. }
    rewrite Hatt, Hskp.
    split; [reflexivity|]. split; [reflexivity|].
    split; [rewrite length_map, length_seq; reflexivity|].
    intros i Hi.
    rewrite !nth_map_seq by exact Hi.
    pose proof (filter_length_le (explicitly_attempted (1 + i)) rs). lia.
Qed.

End AttemptExtras.

Section AverageExtras.
Import AnalyticsService.
Context {ops : Arithmetic}.

Lemma sum_nat_plus {A} (f g : A -> nat) (l : list A) :
  sum_nat (fun x => f x + g x) l = sum_nat f l + sum_nat g l.
Proof.
  induction l as [|x l IH]; [reflexivity|].
  unfold sum_nat in *. cbn [fold_right]. rewrite IH. lia.
Qed.

Lemma sum_nat_ext_in {A} (f g : A -> nat) (l : list A) :
  (forall x, In x l -> f x = g x) -> sum_nat f l = sum_nat g l.
Proof.
  induction l as [|x l IH]; intros H; [reflexivity|].
  unfold sum_nat in *. cbn [fold_right].
  rewrite (H x (or_introl eq_refl)), IH; [reflexivity|].
  intros y Hy. apply H. right. exact Hy.
Qed.

Lemma sum_nat_zero {A} (l : list A) : sum_nat (fun _ => 0) l = 0.
Proof. induction l as [|x l IH]; [reflexivity|]. exact IH. Qed.

Lemma sum_nat_le {A} (f : A -> nat) (bound : nat) (l : list A) :
  (forall x, In x l -> f x <= bound) -> sum_nat f l <= List.length l * bound.
Proof.
  induction l as [|x l IH]; intros H; [constructor|].
  unfold sum_nat in *. cbn [fold_right List.length].
  pose proof (H x (or_introl eq_refl)).
  assert (fold_right (fun x acc => f x + acc) 0 l <= List.length l * bound)
    by (apply IH; intros y Hy; apply H; right; exact Hy).
  lia.
Qed.

(** Counting the marked cells of a table by columns or by rows. *)
Lemma sum_by_rows {A} (f : nat -> A -> bool) (rs : list A) (l : list nat) :
  sum_nat (fun i => List.length (filter (f i) rs)) l
  = sum_nat (fun r => sum_nat (fun i => if f i r then 1 else 0) l) rs.
Proof.
  induction rs as [|r rs IH].
  - cbn [filter List.length]. rewrite sum_nat_zero. reflexivity.
  - unfold sum_nat at 2. cbn [fold_right]. fold (sum_nat (A := A)).
    change (fold_right (fun x acc => sum_nat (fun i => if f i x then 1 else 0) l + acc) 0 rs)
      with (sum_nat (fun r => sum_nat (fun i => if f i r then 1 else 0) l) rs).
    rewrite <- IH, <- sum_nat_plus.
    apply sum_nat_ext_in. intros i _. cbn [filter].
    destruct (f i r); reflexivity.
Qed.

Lemma flags_by_index (qs : list Question) :
  forall start len,
    List.length qs <= len ->
    sum_nat (fun i => match nth_error qs (i - start) with
                      | Some q => if attempted_flag q then 1 else 0
                      | None => 0
                      end)
            (seq start len)
    = List.length (filter attempted_flag qs).
Proof.
  induction qs as [|q qs IH]; intros start len Hlen.
  - cbn [filter List.length].
    rewrite (sum_nat_ext_in _ (fun _ => 0)); [apply sum_nat_zero|].
    intros i _. destruct (i - start); reflexivity.
  - destruct len as [|len]; [cbn [List.length] in Hlen; lia|].
    assert (Hlen' : List.length qs <= len) by (cbn [List.length] in Hlen; lia).
    pose proof (IH (S start) len Hlen') as IH'.
    assert (E : sum_nat (fun i => match nth_error (q :: qs) (i - start) with
                                  | Some q' => if attempted_flag q' then 1 else 0
                                  | None => 0
                                  end) (seq (S start) len)
                = sum_nat (fun i => match nth_error qs (i - S start) with
                                    | Some q' => if attempted_flag q' then 1 else 0
                                    | None => 0
                                    end) (seq (S start) len)).
    { apply sum_nat_ext_in. intros i Hi. apply in_seq in Hi.
      replace (i - start) with (S (i - S start)) by lia. reflexivity. }
    cbn [seq]. unfold sum_nat in IH', E |- *. cbn [fold_right].
    rewrite E, IH', Nat.sub_diag. cbn [nth_error filter].
    destruct (attempted_flag q); reflexivity.
Qed.

Lemma attempted_by_record (r : GradingRecord) (m : nat) :
  List.length (questions r) <= m ->
  sum_nat (fun i => if explicitly_attempted i r then 1 else 0) (seq 1 m)
  = attempted_questions r.
Proof.
  intros Hm. unfold attempted_questions.
  rewrite <- (flags_by_index (questions r) 1 m Hm).
  apply sum_nat_ext_in. intros i Hi. apply in_seq in Hi.
  unfold explicitly_attempted. destruct i as [|i]; [lia|].
  cbn [nth_question]. replace (S i - 1) with i by lia.
  destruct (nth_error (questions r) i) as [q|]; [|reflexivity].
  unfold attempted_flag. destruct (attempted q) as [[|]|]; reflexivity.
Qed.

Lemma total_attempts_loaded (rs : list GradingRecord) :
  forall (l : list nat) (acc : Z),
    (forall i, In i l -> 1 <= i <= max_question_count rs) ->
    fold_left
      (fun acc i =>
         if has_column (QAttempted i) (columns (frame_of (map student_data rs)))
         then (acc + column_sum (QAttempted i) (frame_of (map student_data rs)))%Z
         else acc)
      l acc
    = (acc + Z.of_nat (sum_nat (fun i => List.length (filter (explicitly_attempted i) rs)) l))%Z.
Proof.
  induction l as [|i l IH]; intros acc Hl; [cbn; lia|].
  cbn [fold_left].
  rewrite (proj2 (attempted_column_present rs i)) by (apply Hl; left; reflexivity).
  rewrite IH by (intros j Hj; apply Hl; right; exact Hj).
  rewrite column_sum_attempted. unfold sum_nat. cbn [fold_right]. lia.
Qed.

Lemma attempted_questions_le (r : GradingRecord) :
  attempted_questions r <= List.length (questions r).
Proof. apply filter_length_le. Qed.

Lemma average_attempted_loaded (self : Service) (r0 : GradingRecord)
      (rs0 : list GradingRecord) :
  (get_average_questions_attempted (load_results self (r0 :: rs0))
   == inject_Z (Z.of_nat (sum_nat attempted_questions (r0 :: rs0)))
      / inject_Z (Z.of_nat (List.length (r0 :: rs0))))%Q.
Proof.
  unfold get_average_questions_attempted.
  rewrite loaded_no_data, get_max_questions_loaded, !loaded_frame.
  set (rs := r0 :: rs0).
  assert (Hsum : sum_nat (fun i => List.length (filter (explicitly_attempted i) rs))
                         (seq 1 (max_question_count rs))
                 = sum_nat attempted_questions rs).
  { rewrite sum_by_rows. apply sum_nat_ext_in. intros r Hr.
    apply attempted_by_record. apply max_question_count_bound. exact Hr. }
  destruct (max_question_count rs =? 0) eqn:E.
  - apply Nat.eqb_eq in E. rewrite E in Hsum. cbn [seq] in Hsum.
    rewrite <- Hsum. unfold sum_nat. cbn [fold_right].
    unfold Qdiv. rewrite Qmult_0_l. reflexivity.
  - unfold range1. rewrite total_attempts_loaded
      by (intros i Hi; apply in_seq in Hi; lia).
    rewrite Hsum. change (rows (frame_of (map student_data rs))) with (map student_data rs).
    rewrite length_map. unfold rs at 1. cbn [List.length Nat.ltb Nat.leb]. reflexivity.
Qed.

(** X17. The average number of questions attempted is the number of
    question objects with [attempted = True], summed over the records,
    divided by the number of records. It lies between 0 and the largest
    number of questions of a record, and it is 0 when no question object
    carries the key. *)
Theorem average_questions_attempted_per_record :
  forall (self : Service) (rs : list GradingRecord),
    rs <> [] ->
    let avg := get_average_questions_attempted (load_results self rs) in
    (avg == inject_Z (Z.of_nat (sum_nat attempted_questions rs))
            / inject_Z (Z.of_nat (List.length rs)))%Q /\
    (0 <= avg)%Q /\
    (avg <= inject_Z (Z.of_nat (max_question_count rs)))%Q /\
    ((forall r q, In r rs -> In q (questions r) -> attempted q = None) ->
     (avg == 0)%Q).
Proof.
  intros self rs Hne avg. destruct rs as [|r0 rs0]; [congruence|].
  pose proof (average_attempted_loaded self r0 rs0) as Havg.
  fold avg in Havg. set (rs := r0 :: rs0) in *.
  assert (Hn : (0 < inject_Z (Z.of_nat (List.length rs)))%Q)
    by (apply inject_Z_pos; cbn [List.length rs]; lia).
  assert (Hs0 : (0 <= inject_Z (Z.of_nat (sum_nat attempted_questions rs)))%Q)
    by (apply inject_Z_nonneg; lia).
  assert (Hbound : sum_nat attempted_questions rs
                   <= List.length rs * max_question_count rs).
  { apply sum_nat_le. intros r Hr.
    pose proof (attempted_questions_le r).
    pose proof (max_question_count_bound rs r Hr). lia. }
  split; [exact Havg|]. rewrite Havg.
  split; [apply Qdiv_nonneg; assumption|].
  split.
  - apply Qle_shift_div_r; [exact Hn|].
    rewrite <- inject_Z_mult, <- Zle_Qle. lia.
  - intros Hnone.
    assert (Hz : sum_nat attempted_questions rs = 0).
    { rewrite (sum_nat_ext_in attempted_questions (fun _ => 0)); [apply sum_nat_zero|].
      intros r Hr. unfold attempted_questions. rewrite filter_none; [reflexivity|].
      intros q Hq. unfold attempted_flag. rewrite (Hnone r q Hr Hq). reflexivity. }
    rewrite Hz. unfold Qdiv. rewrite Qmult_0_l. reflexivity.
Qed.

(** *** The consistency chart *)

Lemma length_take_le (n : nat) (s : string) : String.length (take n s) <= n.
Proof.
  revert s. induction n as [|n IH]; intros s; [constructor|].
  destruct s as [|c s]; cbn [take String.length]; [lia|].
  specialize (IH s). lia.
Qed.

Lemma chart_label_length (name : string) : String.length (chart_label name) <= 18.
Proof.
  unfold chart_label. destruct (15 <? String.length name) eqn:E.
  - rewrite length_app_s. pose proof (length_take_le 15 name).
    change (String.length "...") with 3. lia.
  - apply Nat.ltb_ge in E. lia.
Qed.

Lemma consistency_chart_loaded (self : Service) (rs : list GradingRecord) :
  create_performance_consistency_chart (load_results self rs)
  = if max_question_count rs <? 2 then None
    else Some (map consistency_point
                   (filter (fun r => 2 <=? List.length (questions r)) rs)).
Proof.
  unfold create_performance_consistency_chart.
  rewrite loaded_no_data, get_max_questions_loaded.
  destruct rs as [|r0 rs0]; [reflexivity|].
  rewrite !loaded_frame. set (rs := r0 :: rs0).
  destruct (max_question_count rs <? 2); [reflexivity|].
  f_equal.
  change (rows (frame_of (map student_data rs))) with (map student_data rs).
  rewrite flat_map_over_map, <- flat_map_filter.
  apply flat_map_ext_in. intros r Hr.
  rewrite (question_percentages_of_record rs r Hr), student_data_filename.
  unfold record_percentages. rewrite length_map. reflexivity.
Qed.

(** X18. The consistency chart is empty exactly when no record has two
    questions. Otherwise it draws one marker, in dataset order, for each
    record with at least two questions, labelled with the file name cut to
    15 characters (18 with the ellipsis); every performer listed as
    consistent or as inconsistent has its marker. *)
Theorem consistency_chart_shows_every_performer :
  forall (self : Service) (rs : list GradingRecord),
    let s := load_results self rs in
    (create_performance_consistency_chart s = None <-> max_question_count rs < 2) /\
    (forall points,
        create_performance_consistency_chart s = Some points ->
        points = map consistency_point
                     (filter (fun r => 2 <=? List.length (questions r)) rs) /\
        (forall p, In p points -> String.length (point_label p) <= 18) /\
        (forall e, In e (get_consistent_performers s) ->
                   exists p, In p points /\
                             point_label p = chart_label (c_filename e) /\
                             point_std p = c_std_deviation e /\
                             point_average p = average_score e) /\
        (forall e, In e (get_inconsistent_performers s) ->
                   exists p, In p points /\
                             point_label p = chart_label (i_filename e) /\
                             point_std p = i_std_deviation e)).
Proof.
  intros self rs s. unfold s. rewrite consistency_chart_loaded.
  destruct (max_question_count rs <? 2) eqn:E.
  - apply Nat.ltb_lt in E. split; [split; [intros _; exact E | reflexivity]|].
    intros points H. discriminate H.
  - apply Nat.ltb_ge in E. split; [split; [intros H; discriminate H | intros H; lia]|].
    intros points H. injection H as <-.
    split; [reflexivity|]. split; [|split].
    + intros p Hp. apply in_map_iff in Hp. destruct Hp as [r [<- _]].
      apply chart_label_length.
    + intros e He. rewrite consistent_performers_loaded in He.
      apply (Permutation_in _ (sort_by_perm _ _)) in He.
      apply in_map_iff in He. destruct He as [r [<- Hr]].
      apply filter_In in Hr. destruct Hr as [Hr Hc].
      exists (consistency_point r). split; [|repeat split].
      apply in_map. apply filter_In. split; [exact Hr|].
      unfold is_consistent in Hc. apply andb_true_iff in Hc. destruct Hc as [Hc _].
      apply andb_true_iff in Hc. destruct Hc as [Hc _].
      unfold record_percentages in Hc. rewrite length_map in Hc. exact Hc.
    + intros e He. rewrite inconsistent_performers_loaded in He.
      apply (Permutation_in _ (sort_by_perm _ _)) in He.
      apply in_map_iff in He. destruct He as [r [<- Hr]].
      apply filter_In in Hr. destruct Hr as [Hr Hc].
      exists (consistency_point r). split; [|repeat split].
      apply in_map. apply filter_In. split; [exact Hr|].
      unfold is_inconsistent in Hc. apply andb_true_iff in Hc. destruct Hc as [Hc _].
      unfold record_percentages in Hc. rewrite length_map in Hc. exact Hc.
Qed.

End AverageExtras.

(** ** The further properties at concrete inputs *)

Section ResponseWitnesses.
Import GradingService.

(** X7 at a response that names a score but holds no brace. *)
Lemma response_without_brace_is_error_witness :
  count "{" "Score: 8/10" = 0 /\
  _parse_grading_response (interp := quiet) "Score: 8/10" 10
  = Return (_create_error_result
              ("Gemini did not return JSON:" ++ newline ++ "Score: 8/10")) /\
  score_search "Score: 8/10" = Some ("8", Some "10").
Proof.
  split; [reflexivity|]. split; [|reflexivity].
  exact (proj1 (response_without_brace_is_error (interp := quiet)
                  "Score: 8/10" 10 eq_refl)).
Defined.

(** X8 at a payload set in a sentence. *)
Lemma wrapped_payload_same_as_bare_witness :
  let mid := (quoted "total_score" ++ ": 7")%string in
  count "{" "Here is the grade: " = 0 /\
  count "}" " Regards." = 0 /\
  parse_or_repair (String "{" (mid ++ String "}" EmptyString))
    = Return (VDict [("total_score", VInt 7)]) /\
  _parse_grading_response (interp := quiet)
    ("Here is the grade: " ++ String "{" (mid ++ String "}" " Regards.")) 10
  = _parse_grading_response (interp := quiet)
      (String "{" (mid ++ String "}" EmptyString)) 10.
Proof.
  intros mid.
  split; [reflexivity|]. split; [reflexivity|]. split; [reflexivity|].
  exact (wrapped_payload_same_as_bare (interp := quiet)
           "Here is the grade: " mid " Regards." 10
           (VDict [("total_score", VInt 7)]) eq_refl eq_refl eq_refl).
Defined.

(** X9 at a payload with a valid score and a number as overall feedback:
    the score is lost. *)
Lemma payload_accepted_iff_well_typed_witness :
  let response := ("{" ++ quoted "total_score" ++ ": 9, "
                       ++ quoted "overall_feedback" ++ ": 5}")%string in
  let d := [("total_score", VInt 9); ("overall_feedback", VInt 5)] in
  find "{" (strip response) = Some 0 /\
  parse_or_repair (json_region (strip response) 0) = Return (VDict d) /\
  well_typed_payload d = false /\
  exists d',
    VDict d = VDict d' /\
    (well_typed_payload d' = false ->
     _parse_grading_response (interp := quiet) response 10
     = Return (_create_error_result EmptyString)).
Proof.
  intros response d.
  split; [reflexivity|]. split; [reflexivity|]. split; [reflexivity|].
  destruct (payload_accepted_iff_well_typed (interp := quiet)
              response 10 0 (VDict d) eq_refl eq_refl)
    as [d' [Hd [_ [_ Herr]]]].
  exists d'. split; [exact Hd|].
  intros Hw. exact (proj1 (Herr Hw)).
Defined.

(** X10 at a payload with a trailing comma: balanced, so not repaired, and
    answered by the fallback scan. *)
Lemma balanced_payload_is_not_repaired_witness :
  let response := ("{" ++ quoted "total_score" ++ ": 5,}")%string in
  find "{" (strip response) = Some 0 /\
  Nat.modulo (count dquote (json_region (strip response) 0)) 2 = 0 /\
  balance (json_region (strip response) 0) [] = [] /\
  Json.loads (json_region (strip response) 0) = Raise JSONDecodeError /\
  _repair_json (json_region (strip response) 0) = json_region (strip response) 0 /\
  _parse_grading_response (interp := quiet) response 10
  = _fallback_text_parsing response 10.
Proof.
  intros response.
  split; [reflexivity|]. split; [reflexivity|]. split; [reflexivity|].
  split; [reflexivity|].
  destruct (balanced_payload_is_not_repaired (interp := quiet)
              response 10 0 eq_refl eq_refl eq_refl) as [Hfix Hfallback].
  split; [exact Hfix|].
  exact (proj2 (Hfallback eq_refl)).
Defined.

(** X11 at a score out of 10 with 20 marks in total. *)
Lemma fallback_percentage_follows_score_witness :
  (0 < 20)%Z /\
  exists r c,
    _fallback_text_parsing "marks: 7/10" 20 = Return r /\
    as_number (total_score r) = Some c /\
    (0 <= c)%Q /\ (c <= inject_Z 20)%Q /\
    (number_of (percentage r) == c / inject_Z 20 * 100)%Q /\
    (0 <= number_of (percentage r))%Q /\ (number_of (percentage r) <= 100)%Q.
Proof.
  split; [reflexivity|].
  exact (fallback_percentage_follows_score "marks: 7/10" 20 eq_refl).
Defined.

(** X12 at an answer that reports more than the total. *)
Lemma grade_assignment_score_not_above_total_witness :
  let answer := ("{" ++ quoted "total_score" ++ ": 150}")%string in
  (0 <= 100)%Z /\
  not_above (total_score (grade_assignment (interp := quiet) "key" (Some answer) 100))
            100 /\
  total_score (grade_assignment (interp := quiet) "key" (Some answer) 100) = VInt 100 /\
  grade_assignment (interp := quiet) EmptyString (Some answer) 100
  = _create_error_result "Gemini API key not configured".
Proof.
  intros answer.
  assert (H : (0 <= 100)%Z) by (intros E; discriminate E).
  split; [exact H|].
  split; [exact (proj1 (grade_assignment_score_not_above_total (interp := quiet)
                          "key" (Some answer) 100 H))|].
  split; reflexivity.
Defined.

(** X13 at a file whose answer reports more than the total. *)
Lemma processed_file_never_above_total_witness :
  let answer := ("{" ++ quoted "total_score" ++ ": 150, "
                     ++ quoted "percentage" ++ ": 150}")%string in
  let result := App.process_single_file (interp := quiet)
                  "essay.pdf" (Return "An answer.") "key" (Some answer) 100 in
  (0 < 100)%Z /\
  not_above (App.awarded_marks result) 100 /\
  not_above (App.percentage result) 100 /\
  App.awarded_marks result = VInt 100 /\
  (number_of (App.percentage result) == 100)%Q.
Proof.
  intros answer result.
  pose proof (processed_file_never_above_total (interp := quiet)
                "essay.pdf" (Return "An answer.") "key" (Some answer) 100 eq_refl)
    as [H1 [H2 _]].
  split; [reflexivity|]. split; [exact H1|]. split; [exact H2|].
  split; reflexivity.
Defined.

End ResponseWitnesses.

Section AnalyticsWitnesses.
Import AnalyticsService.
#[local] Existing Instance exact_ops.

(** X16 at a dataset of two records with three and two questions. *)
Lemma attempts_chart_bars_add_up_witness :
  let rs := [answered "a" [question (Some true) 1 1; question (Some false) 0 1;
                           question (Some true) 1 1];
             answered "b" [question (Some false) 0 1; question (Some true) 1 1]] in
  create_question_attempts_chart (load_results init rs)
  = Some {| chart_questions := [1; 2; 3];
            chart_attempted := [1; 1; 1]%Z;
            chart_skipped := [1; 1; 1]%Z |} /\
  forall ch,
    create_question_attempts_chart (load_results init rs) = Some ch ->
    forall i, i < 3 ->
              (nth i (chart_attempted ch) 0 + nth i (chart_skipped ch) 0 = 2)%Z.
Proof.
  intros rs. split; [reflexivity|].
  intros ch Hch i Hi.
  destruct (attempts_chart_bars_add_up init rs) as [_ Hbars].
  destruct (Hbars ch Hch) as [_ [_ [_ Hsum]]].
  exact (proj2 (proj2 (Hsum i Hi))).
Defined.

(** X18 at a dataset with a long file name and a record of one question. *)
Lemma consistency_chart_shows_every_performer_witness :
  let uneven := answered "a_rather_long_file_name.pdf"
                  [question None 10 100; question None 95 100] in
  let steady := answered "steady"
                  [question None 60 100; question None 62 100; question None 58 100] in
  let rs := [steady; uneven; answered "single" [question None 5 10]] in
  option_map (map point_label)
             (create_performance_consistency_chart (load_results init rs))
  = Some ["steady"; "a_rather_long_f..."] /\
  forall points,
    create_performance_consistency_chart (load_results init rs) = Some points ->
    forall p, In p points -> String.length (point_label p) <= 18.
Proof.
  intros uneven steady rs.
  split; [vm_compute; reflexivity|].
  intros points Hpoints.
  destruct (consistency_chart_shows_every_performer init rs) as [_ Hchart].
  exact (proj1 (proj2 (Hchart points Hpoints))).
Defined.

(** X17 at the same shape of dataset: three questions attempted by two
    students. *)
Lemma average_questions_attempted_per_record_witness :
  let rs := [answered "a" [question (Some true) 1 1; question (Some false) 0 1;
                           question (Some true) 1 1];
             answered "b" [question (Some false) 0 1; question (Some true) 1 1]] in
  rs <> [] /\
  (get_average_questions_attempted (load_results init rs) == 3 # 2)%Q /\
  (get_average_questions_attempted (load_results init rs)
   <= inject_Z (Z.of_nat (max_question_count rs)))%Q.
Proof.
  intros rs.
  assert (Hne : rs <> []) by discriminate.
  pose proof (average_questions_attempted_per_record init rs Hne)
    as [Havg [_ [Hmax _]]].
  split; [exact Hne|].
  split; [rewrite Havg; reflexivity | exact Hmax].
Defined.

End AnalyticsWitnesses.

Section RoundingExamples.
Import AnalyticsService.

(** C8 with binary64 arithmetic, at the spec's example (a record whose
    three questions score 60, 62 and 58 out of 100: a mean of 60 and a
    standard deviation of 1.632993161855452), at a record below the mean
    of 50, and at a record whose two questions score 55 and 85 out of 100.
    The percentages the builder computes for the last are 55.00000000000001
    and 85, their standard deviation 14.999999999999996 is below 15, and
    the record is listed; without rounding its standard deviation is 15
    and it is not listed. Either way the list is the one the selection
    rule gives, in ascending order of the standard deviation. *)
Lemma consistent_performers_selected_and_sorted_witness :
  let edge := answered "edge" [question None 55 100; question None 85 100] in
  let low := answered "low" [question None 20 100; question None 30 100] in
  let steady := answered "steady"
                  [question None 60 100; question None 62 100; question None 58 100] in
  let rounded := get_consistent_performers (ops := ieee_ops)
                   (load_results (ops := ieee_ops) init [low; edge; steady]) in
  let exact := get_consistent_performers (ops := exact_ops)
                 (load_results (ops := exact_ops) init [low; edge; steady]) in
  rounded
  = [ {| c_filename := "steady";
         average_score := 60;
         c_std_deviation := 7354347395230795 # 4503599627370496;
         c_question_scores := [60; 62; 8162774324609023 # 140737488355328]%Q |};
      {| c_filename := "edge";
         average_score := 70;
         c_std_deviation := 4222124650659839 # 281474976710656;
         c_question_scores := [7740561859543041 # 140737488355328; 85]%Q |} ] /\
  (forall e, In e rounded <->
             exists r, In r [low; edge; steady] /\
                       is_consistent (ops := ieee_ops)
                         (record_percentages (ops := ieee_ops) r) = true /\
                       e = consistent_entry (ops := ieee_ops) r) /\
  (forall e, In e rounded -> (c_std_deviation e < 15)%Q /\ (50 < average_score e)%Q) /\
  StronglySorted (fun x y => (c_std_deviation x <= c_std_deviation y)%Q) rounded /\
  map c_filename exact = ["steady"].
Proof.
  intros edge low steady rounded exact.
  destruct (consistent_performers_selected_and_sorted (ops := ieee_ops)
              init [low; edge; steady])
    as [_ [_ [Hin [_ [Hsorted _]]]]].
  assert (Hval : rounded
                 = [ {| c_filename := "steady";
                        average_score := 60;
                        c_std_deviation := 7354347395230795 # 4503599627370496;
                        c_question_scores :=
                          [60; 62; 8162774324609023 # 140737488355328]%Q |};
                     {| c_filename := "edge";
                        average_score := 70;
                        c_std_deviation := 4222124650659839 # 281474976710656;
                        c_question_scores :=
                          [7740561859543041 # 140737488355328; 85]%Q |} ])
    by (vm_compute; reflexivity).
  split; [exact Hval|]. split; [exact Hin|].
  split; [|split; [exact Hsorted | vm_compute; reflexivity]].
  intros e He. rewrite Hval in He. destruct He as [<-|[<-|[]]]; split; reflexivity.
Defined.

(** X2 at a steady record, one whose two questions lie 41 apart and one
    whose two questions lie 85 apart, without rounding; and with binary64
    arithmetic at a record whose two questions score 15 and 55 out of 100:
    the percentages the builder computes are 15.000000000000002 and
    55.00000000000001, their spread 40.00000000000001 is above 40, and the
    record is listed, while without rounding the spread is 40 and the
    record is not listed. *)
Lemma inconsistent_performers_selected_and_sorted_witness :
  let uneven := answered "uneven" [question None 10 100; question None 95 100] in
  let wide := answered "wide" [question None 15 100; question None 56 100] in
  let steady := answered "steady"
                  [question None 60 100; question None 62 100; question None 58 100] in
  let edge := answered "edge" [question None 15 100; question None 55 100] in
  let result := get_inconsistent_performers (ops := exact_ops)
                  (load_results (ops := exact_ops) init [steady; wide; uneven]) in
  let rounded := get_inconsistent_performers (ops := ieee_ops)
                   (load_results (ops := ieee_ops) init [edge]) in
  (map i_filename result = ["uneven"; "wide"] /\
   map score_range result = [85; 41]%Q /\
   StronglySorted (fun x y => (i_std_deviation y <= i_std_deviation x)%Q) result /\
   forall e, In e result ->
             In (min_score e) (i_question_scores e) /\
             In (i_max_score e) (i_question_scores e)) /\
  (map i_filename rounded = ["edge"] /\
   map score_range rounded = [5629499534213121 # 140737488355328]%Q /\
   (forall e, In e rounded ->
              (40 < score_range e)%Q /\ (i_std_deviation e <= 25)%Q /\
              score_range e
              = float_sub (Arithmetic := ieee_ops) (i_max_score e) (min_score e)) /\
   get_inconsistent_performers (ops := exact_ops)
     (load_results (ops := exact_ops) init [edge]) = []).
Proof.
  intros uneven wide steady edge result rounded.
  destruct (inconsistent_performers_selected_and_sorted (ops := exact_ops)
              init [steady; wide; uneven])
    as [_ [_ [_ [Hsorted Hentry]]]].
  destruct (inconsistent_performers_selected_and_sorted (ops := ieee_ops) init [edge])
    as [_ [_ [_ [_ Hentry']]]].
  split.
  - split; [vm_compute; reflexivity|]. split; [vm_compute; reflexivity|].
    split; [exact Hsorted|].
    intros e He. destruct (Hentry e He) as [Hmin [Hmax _]].
    split; [exact Hmin | exact Hmax].
  - split; [vm_compute; reflexivity|]. split; [vm_compute; reflexivity|].
    split; [|vm_compute; reflexivity].
    intros e He. destruct (Hentry' e He) as [_ [_ [_ [Hrange _]]]].
    split; [|split; [|exact Hrange]].
    + vm_compute in He. destruct He as [<-|[]]. reflexivity.
    + vm_compute in He. destruct He as [<-|[]]. intros H. discriminate H.
Defined.

End RoundingExamples.
